(** * The TDP MMU of arch/x86/kvm/mmu/tdp_mmu.c

    A shallow embedding of the two-dimensional paging code: the change
    handler [__handle_changed_spte], the root registry
    [get_tdp_mmu_vcpu_root], the range teardown [zap_gfn_range] and the
    fault path [kvm_tdp_mmu_map].

    Conventions.
    - [u64], [gfn_t], [kvm_pfn_t] and [int] values are integers of [Z];
      64-bit additions are reduced with [wrap64].
    - A pointer [u64 *] is the index of a 64-bit word of memory; a page
      holds [PT64_ENT_PER_PAGE] words, so [pt + i] is pointer arithmetic.
    - A [struct kvm_mmu_page *] is named by the page its [spt] points to.
    - The functions return an [outcome]: [BUG()] and the other ways of
      not returning are [Crash].
    - Calls into the rest of the kernel are recorded, in order, in the
      [trace] of the state. *)

From Stdlib Require Import ZArith List Lia Bool.
From stdpp Require Import base option list gmap.
Import ListNotations.

Local Open Scope Z_scope.

(** ** Machine integers and the paging constants *)

Definition wrap64 (z : Z) : Z := z mod 2 ^ 64.

Definition PAGE_SHIFT : Z := 12.
Definition PAGE_SIZE : Z := Z.shiftl 1 PAGE_SHIFT.

(** Modelled from the spec: the level constants of the x86 headers are
    not among the sources. The spec has "level: integer, root is
    highest, 1 is the smallest leaf granularity"; the deepest tree of
    the architecture has five levels. *)
Definition PG_LEVEL_4K : Z := 1.
Definition PT64_ROOT_MAX_LEVEL : Z := 5.

(** Modelled from the spec: "N entries (N = architecture fan-out)";
    a 4096-byte page of 64-bit entries has 512 of them, nine bits of
    the guest frame number per level. *)
Definition PT64_LEVEL_BITS : Z := 9.
Definition PT64_ENT_PER_PAGE : Z := Z.shiftl 1 PT64_LEVEL_BITS.

(** Modelled from the spec: the macros of kvm_host.h that give the
    number of 4K frames one entry of a level covers; an entry of level
    [x] covers N^(x-1) frames. The macro chain is kept. *)
Definition KVM_HPAGE_GFN_SHIFT (x : Z) : Z := (x - 1) * 9.
Definition KVM_HPAGE_SHIFT (x : Z) : Z := PAGE_SHIFT + KVM_HPAGE_GFN_SHIFT x.
Definition KVM_HPAGE_SIZE (x : Z) : Z := wrap64 (Z.shiftl 1 (KVM_HPAGE_SHIFT x)).
Definition KVM_PAGES_PER_HPAGE (x : Z) : Z := KVM_HPAGE_SIZE x / PAGE_SIZE.

(** ** The entry codec and the helpers of the rest of the MMU

    spte.h, mmu_internal.h and mmu.c are not among the sources: what
    tdp_mmu.c calls from them is an interface, and every definition
    below is parametric in an instance of it. *)

Class spte_ops : Type := {
  is_shadow_present_pte : Z -> bool;
  is_last_spte : Z -> Z -> bool;
  is_large_pte : Z -> bool;
  is_mmio_spte : Z -> bool;
  is_dirty_spte : Z -> bool;
  spte_to_pfn : Z -> Z;
  (* u64 *spte_to_child_pt(u64 spte, int level) *)
  spte_to_child_pt : Z -> Z -> Z;
  (* make_mmio_spte(vcpu, gfn, access) *)
  make_mmio_spte : Z -> Z -> Z;
  (* make_nonleaf_spte(child_pt, ad_disabled) *)
  make_nonleaf_spte : Z -> bool -> Z;
  (* make_spte(vcpu, pte_access, level, gfn, pfn, old_spte, speculative,
               can_unsync, host_writable, ad_disabled, &new_spte):
     the returned flags and the new entry *)
  make_spte : Z -> Z -> Z -> Z -> Z -> bool -> bool -> Z -> bool -> Z * Z;
  is_noslot_pfn : Z -> bool;
  (* kvm_mmu_hugepage_adjust(vcpu, gfn, max_level, &pfn,
                             huge_page_disallowed, &req_level):
     the level, the adjusted pfn and the requested level *)
  kvm_mmu_hugepage_adjust : Z -> Z -> Z -> bool -> Z * Z * Z;
  (* disallowed_hugepage_adjust(spte, gfn, cur_level, &pfn, &level):
     the adjusted pfn and level *)
  disallowed_hugepage_adjust : Z -> Z -> Z -> Z -> Z -> Z * Z;
  is_nx_huge_page_enabled : bool;
  shadow_accessed_mask : Z;
  ACC_ALL : Z;
  SET_SPTE_WRITE_PROTECTED_PT : Z;
  PFERR_WRITE_MASK : Z;
  PFERR_FETCH_MASK : Z;
  RET_PF_RETRY : Z;
  RET_PF_EMULATE : Z;
  RET_PF_SPURIOUS : Z;
  (* boot_cpu_data.x86_phys_bits *)
  x86_phys_bits : Z
}.

(** ** Pages, roles and the state of one VM *)

(** union kvm_mmu_page_role: the bit fields tdp_mmu.c names, and the
    remaining bits of the word. Two roles have the same [word] exactly
    when all fields agree. *)
Record kvm_mmu_page_role : Type := mk_role {
  role_level : Z;
  role_direct : bool;
  role_gpte_is_8_bytes : bool;
  role_access : Z;
  role_smm : bool;
  role_rest : Z
}.

#[global] Instance kvm_mmu_page_role_eq_dec : EqDecision kvm_mmu_page_role.
Proof. solve_decision. Defined.

(** struct kvm_mmu_page *)
Record kvm_mmu_page : Type := mk_sp {
  sp_spt : Z;
  sp_role : kvm_mmu_page_role;
  sp_gfn : Z;
  sp_root_count : Z;
  sp_tdp_mmu_page : bool
}.

Inductive warn_site : Type :=
| W_level_above_max
| W_level_below_4K
| W_gfn_unaligned
| W_nonpresent_change
| W_root_count
| W_not_tdp_mmu_page
| W_invalid_root
| W_not_tdp_root
| W_level_mismatch.

(** The calls that leave tdp_mmu.c, as the trace records them.
    [spte_changed] is a ghost entry: it records that the change handler
    was entered, with its arguments, and stands for no call. *)
Inductive event : Type :=
| spte_changed (gfn old_spte new_spte level : Z)
| kvm_set_pfn_dirty (pfn : Z)
| kvm_flush_remote_tlbs_with_address (gfn pages : Z)
| kvm_flush_remote_tlbs
| free_page (pt : Z)
| kmem_cache_free (sp : Z)
| kvm_make_request_tlb_flush_current
| cond_resched_lock
| WARN_ON (site : warn_site)
| pr_err (site : warn_site).

#[global] Instance warn_site_eq_dec : EqDecision warn_site.
Proof. solve_decision. Defined.
#[global] Instance event_eq_dec : EqDecision event.
Proof. solve_decision. Defined.

(** struct kvm, as far as tdp_mmu.c reads and writes it, with the
    memory the tables live in, the page caches of the vCPU and the
    answers of the scheduler to [need_resched() || spin_needbreak()]. *)
Record kvm : Type := mk_kvm {
  mem : gmap Z Z;
  tdp_mmu_roots : list kvm_mmu_page;
  tdp_mmu_pages : list kvm_mmu_page;
  mmu_shadow_page_cache : list Z;
  resched : list bool;
  pf_fixed : Z;
  trace : list event
}.

Inductive crash : Type :=
| BUG              (* BUG() was reached *)
| cache_empty      (* a memory cache had no object left *)
| too_deep         (* the recursion left the levels of the tree *)
| out_of_fuel.     (* a loop ran longer than the bound it was given *)

Inductive outcome (A : Type) : Type :=
| Ok (a : A)
| Crash (c : crash).
Arguments Ok {A} a.
Arguments Crash {A} c.

Definition bind {A B} (m : outcome A) (k : A -> outcome B) : outcome B :=
  match m with
  | Ok a => k a
  | Crash c => Crash c
  end.

Notation "'run' x <- m 'in' k" := (bind m (fun x => k))
  (at level 10, x name, m at level 100, k at level 200).

Notation "'run' ' p <- m 'in' k" := (bind m (fun x => let 'p := x in k))
  (at level 10, p strict pattern, m at level 100, k at level 200).

(** A [for] loop over the elements of a list, stopped by a crash. *)
Fixpoint for_each {A S} (body : S -> A -> outcome S) (l : list A) (s : S)
  : outcome S :=
  match l with
  | [] => Ok s
  | x :: l' => run s' <- body s x in for_each body l' s'
  end.

(** ** Memory and the trace *)

(** READ_ONCE( *p ): memory never written reads as zero. *)
Definition READ_ONCE (st : kvm) (p : Z) : Z := default 0 (mem st !! p).

Definition WRITE_ONCE (st : kvm) (p v : Z) : kvm :=
  mk_kvm (<[p := v]> (mem st)) (tdp_mmu_roots st) (tdp_mmu_pages st)
         (mmu_shadow_page_cache st) (resched st) (pf_fixed st) (trace st).

Definition emit (e : event) (st : kvm) : kvm :=
  mk_kvm (mem st) (tdp_mmu_roots st) (tdp_mmu_pages st)
         (mmu_shadow_page_cache st) (resched st) (pf_fixed st)
         (trace st ++ [e]).

Definition warn_on (c : bool) (w : warn_site) (st : kvm) : kvm :=
  if c then emit (WARN_ON w) st else st.

(** sptep_to_sp: the page a pointer to an entry lies in. *)
Definition sptep_to_sp (sptep : Z) : Z := sptep - sptep mod PT64_ENT_PER_PAGE.

(** list_del(&sp->link): [sp] leaves the list it is on. *)
Definition list_del (sp : Z) (st : kvm) : kvm :=
  mk_kvm (mem st)
         (List.filter (fun r => negb (sp_spt r =? sp)) (tdp_mmu_roots st))
         (List.filter (fun r => negb (sp_spt r =? sp)) (tdp_mmu_pages st))
         (mmu_shadow_page_cache st) (resched st) (pf_fixed st) (trace st).

(** The numbers 0, 1, ..., n-1 of a [for (i = 0; i < n; i++)]. *)
Definition upto (n : Z) : list Z := List.map Z.of_nat (List.seq 0 (Z.to_nat n)).

(** ** The change handler *)

Section Handler.
Context {ops : spte_ops}.

(** __handle_changed_spte. [depth] bounds the recursion into child
    tables: a call at level [l] needs [depth >= l - 1] once entries of
    level 1 are leaves (see [handle_changed_spte_deep_enough]). *)
Fixpoint handle_changed_spte_rec (depth : nat) (st : kvm)
    (as_id gfn old_spte new_spte level : Z) : outcome kvm :=
  let was_present := is_shadow_present_pte old_spte in
  let is_present := is_shadow_present_pte new_spte in
  let was_leaf := was_present && is_last_spte old_spte level in
  let is_leaf := is_present && is_last_spte new_spte level in
  let pfn_changed := negb (spte_to_pfn old_spte =? spte_to_pfn new_spte) in
  let st := emit (spte_changed gfn old_spte new_spte level) st in
  let st := warn_on (level >? PT64_ROOT_MAX_LEVEL) W_level_above_max st in
  let st := warn_on (level <? PG_LEVEL_4K) W_level_below_4K st in
  let st := warn_on (negb (gfn mod KVM_PAGES_PER_HPAGE level =? 0))
                    W_gfn_unaligned st in
  if was_leaf && is_leaf && pfn_changed then Crash BUG
  else if old_spte =? new_spte then Ok st
  else if negb was_present && negb is_present then
    if negb (is_mmio_spte old_spte) && negb (is_mmio_spte new_spte)
    then Ok (emit (pr_err W_nonpresent_change)
                  (emit (WARN_ON W_nonpresent_change) st))
    else Ok st
  else
    let st :=
      if was_leaf && is_dirty_spte old_spte &&
         (negb (is_dirty_spte new_spte) || pfn_changed)
      then emit (kvm_set_pfn_dirty (spte_to_pfn old_spte)) st
      else st in
    if was_present && negb was_leaf && (pfn_changed || negb is_present) then
      match depth with
      | O => Crash too_deep
      | S depth' =>
          let pt := spte_to_child_pt old_spte level in
          let sp := sptep_to_sp pt in
          let st := list_del sp st in
          run st <- for_each
                  (fun st i =>
                     let old_child_spte := READ_ONCE st (pt + i) in
                     let st := WRITE_ONCE st (pt + i) 0 in
                     handle_changed_spte_rec depth' st as_id
                       (wrap64 (gfn + i * KVM_PAGES_PER_HPAGE (level - 1)))
                       old_child_spte 0 (level - 1))
                  (upto PT64_ENT_PER_PAGE) st in
          let st := emit (kvm_flush_remote_tlbs_with_address gfn
                            (KVM_PAGES_PER_HPAGE level)) st in
          let st := emit (free_page pt) st in
          Ok (emit (kmem_cache_free sp) st)
      end
    else Ok st.

(** The recursion bound a call at [level] is run with. *)
Definition depth_of_level (level : Z) : nat := Z.to_nat level.

Definition __handle_changed_spte (st : kvm)
    (as_id gfn old_spte new_spte level : Z) : outcome kvm :=
  handle_changed_spte_rec (depth_of_level level) st
                          as_id gfn old_spte new_spte level.

Definition handle_changed_spte (st : kvm)
    (as_id gfn old_spte new_spte level : Z) : outcome kvm :=
  __handle_changed_spte st as_id gfn old_spte new_spte level.

End Handler.

(** ** The walker

    tdp_iter.c is not among the sources; the walker is written from
    section 4.1 of the spec. *)

(** struct tdp_iter. [iter_pt_path] maps a level to the table the walk
    went through at that level. *)
Record tdp_iter : Type := mk_iter {
  iter_goal_gfn : Z;
  iter_pt_path : gmap Z Z;
  iter_sptep : Z;
  iter_gfn : Z;
  iter_root_level : Z;
  iter_min_level : Z;
  iter_level : Z;
  iter_old_spte : Z;
  iter_valid : bool
}.

(** Modelled from the spec: the first guest frame of the entry of
    [level] that maps [gfn] ("guest_frame" of a visited tuple). *)
Definition round_gfn_for_level (gfn level : Z) : Z :=
  gfn - gfn mod KVM_PAGES_PER_HPAGE level.

(** Modelled from the spec: the index, in a table of [level], of the
    entry that maps [gfn]. *)
Definition SHADOW_PT_INDEX (gfn level : Z) : Z :=
  (gfn / KVM_PAGES_PER_HPAGE level) mod PT64_ENT_PER_PAGE.

Definition pt_of (path : gmap Z Z) (level : Z) : Z := default 0 (path !! level).

(** Modelled from the spec: the entry pointer and the snapshot of its
    value, recomputed from the table of the current level and the
    current guest frame ("recomputes its current position from the
    last visited guest frame rather than trusting cached pointers"). *)
Definition tdp_iter_refresh_sptep (st : kvm) (it : tdp_iter) : tdp_iter :=
  let sptep := pt_of (iter_pt_path it) (iter_level it)
               + SHADOW_PT_INDEX (iter_gfn it) (iter_level it) in
  mk_iter (iter_goal_gfn it) (iter_pt_path it) sptep (iter_gfn it)
          (iter_root_level it) (iter_min_level it) (iter_level it)
          (READ_ONCE st sptep) true.

(** Modelled from the spec: the walk starts at the entry of the root
    table that maps [goal_gfn] ("given a root, a level, and a half-open
    guest-frame range"). *)
Definition tdp_iter_start (st : kvm) (root_pt root_level min_level goal_gfn : Z)
  : tdp_iter :=
  tdp_iter_refresh_sptep st
    (mk_iter goal_gfn {[ root_level := root_pt ]} 0
             (round_gfn_for_level goal_gfn root_level)
             root_level min_level root_level 0 true).

Section Walker.
Context {ops : spte_ops}.

(** Modelled from the spec: "visiting a parent before its children":
    when the entry, read again, points to a child table, the walk goes
    to the entry of the child that maps the goal frame. *)
Definition try_step_down (st : kvm) (it : tdp_iter) : option tdp_iter :=
  if iter_level it =? iter_min_level it then None
  else
    let spte := READ_ONCE st (iter_sptep it) in
    let child_pt := spte_to_child_pt spte (iter_level it) in
    if child_pt =? 0 then None
    else
      let level := iter_level it - 1 in
      Some (tdp_iter_refresh_sptep st
              (mk_iter (iter_goal_gfn it)
                       (<[ level := child_pt ]> (iter_pt_path it))
                       (iter_sptep it)
                       (round_gfn_for_level (iter_goal_gfn it) level)
                       (iter_root_level it) (iter_min_level it) level
                       spte true)).

(** Modelled from the spec: "in guest-frame ascending order": the next
    entry of the same table, unless the entry is the last one. *)
Definition try_step_side (st : kvm) (it : tdp_iter) : option tdp_iter :=
  if SHADOW_PT_INDEX (iter_gfn it) (iter_level it) =? PT64_ENT_PER_PAGE - 1
  then None
  else
    let gfn := wrap64 (iter_gfn it + KVM_PAGES_PER_HPAGE (iter_level it)) in
    Some (mk_iter gfn (iter_pt_path it) (iter_sptep it + 1) gfn
                  (iter_root_level it) (iter_min_level it) (iter_level it)
                  (READ_ONCE st (iter_sptep it + 1)) true).

(** Modelled from the spec: back to the entry of the parent table,
    unless the walk is in the root table. *)
Definition try_step_up (st : kvm) (it : tdp_iter) : option tdp_iter :=
  if iter_level it =? iter_root_level it then None
  else
    let level := iter_level it + 1 in
    Some (tdp_iter_refresh_sptep st
            (mk_iter (iter_goal_gfn it) (iter_pt_path it) (iter_sptep it)
                     (round_gfn_for_level (iter_gfn it) level)
                     (iter_root_level it) (iter_min_level it) level
                     (iter_old_spte it) true)).

Definition invalidate (it : tdp_iter) : tdp_iter :=
  mk_iter (iter_goal_gfn it) (iter_pt_path it) (iter_sptep it) (iter_gfn it)
          (iter_root_level it) (iter_min_level it) (iter_level it)
          (iter_old_spte it) false.

(** do { if (try_step_side(iter)) return; } while (try_step_up(iter));
    iter->valid = false; -- one round per level up to the root, so
    that [n] is never used up when it starts above their number. *)
Fixpoint step_side_or_up (n : nat) (st : kvm) (it : tdp_iter) : tdp_iter :=
  match try_step_side st it with
  | Some it' => it'
  | None =>
      match n with
      | O => invalidate it
      | S n' =>
          match try_step_up st it with
          | Some it' => step_side_or_up n' st it'
          | None => invalidate it
          end
      end
  end.

(** Modelled from the spec: the next tuple of the sequence: the first
    child, else the next sibling, else the next sibling of the nearest
    ancestor that has one; the walk ends after the last entry of the
    root table. *)
Definition tdp_iter_next (st : kvm) (it : tdp_iter) : tdp_iter :=
  match try_step_down st it with
  | Some it' => it'
  | None =>
      step_side_or_up (S (Z.to_nat (iter_root_level it - iter_level it))) st it
  end.

(** Modelled from the spec: "restartable": the walk is started again
    from the root, towards the last visited guest frame. *)
Definition tdp_iter_refresh_walk (st : kvm) (it : tdp_iter) : tdp_iter :=
  let goal_gfn := if iter_gfn it >? iter_goal_gfn it then iter_gfn it
                  else iter_goal_gfn it in
  tdp_iter_start st (pt_of (iter_pt_path it) (iter_root_level it))
                 (iter_root_level it) (iter_min_level it) goal_gfn.

Definition tdp_iter_root_pt (it : tdp_iter) : Z :=
  pt_of (iter_pt_path it) (iter_root_level it).

End Walker.

(** ** The root registry *)

(** What tdp_mmu.c reads of struct kvm_vcpu: vcpu->arch.mmu. *)
Record kvm_vcpu : Type := mk_vcpu {
  mmu_role_base : kvm_mmu_page_role;
  shadow_root_level : Z;
  root_hpa : Z
}.

Definition INVALID_PAGE : Z := 2 ^ 64 - 1.
Definition VALID_PAGE (x : Z) : bool := negb (x =? INVALID_PAGE).

(** A pointer is the index of a 64-bit word: eight bytes of a physical
    address each. *)
Definition __va (pa : Z) : Z := pa / 8.
Definition __pa (p : Z) : Z := p * 8.

Definition set_root_count (n : Z) (sp : kvm_mmu_page) : kvm_mmu_page :=
  mk_sp (sp_spt sp) (sp_role sp) (sp_gfn sp) n (sp_tdp_mmu_page sp).

Definition set_roots (l : list kvm_mmu_page) (st : kvm) : kvm :=
  mk_kvm (mem st) l (tdp_mmu_pages st) (mmu_shadow_page_cache st)
         (resched st) (pf_fixed st) (trace st).

Definition set_pages (l : list kvm_mmu_page) (st : kvm) : kvm :=
  mk_kvm (mem st) (tdp_mmu_roots st) l (mmu_shadow_page_cache st)
         (resched st) (pf_fixed st) (trace st).

(** kvm_mmu_init_tdp_mmu, with the TDP MMU enabled: both lists start
    empty. *)
Definition kvm_mmu_init_tdp_mmu (st : kvm) : kvm :=
  set_pages [] (set_roots [] st).

(** to_shadow_page / sptep_to_sp followed by a field access: the
    header of the page, found on the list it is linked in. *)
Definition page_header (st : kvm) (sp : Z) : option kvm_mmu_page :=
  List.find (fun r => sp_spt r =? sp) (tdp_mmu_roots st ++ tdp_mmu_pages st).

(** is_tdp_mmu_root *)
Definition is_tdp_mmu_root (st : kvm) (hpa : Z) : bool :=
  match page_header st (sptep_to_sp (__va hpa)) with
  | Some sp => sp_tdp_mmu_page sp && negb (sp_root_count sp =? 0)
  | None => false
  end.

(** kvm_mmu_page_as_id *)
Definition kvm_mmu_page_as_id (sp : option kvm_mmu_page) : Z :=
  match sp with
  | Some sp => if role_smm (sp_role sp) then 1 else 0
  | None => 0
  end.

(** page_role_for_level *)
Definition page_role_for_level {ops : spte_ops} (vcpu : kvm_vcpu) (level : Z)
  : kvm_mmu_page_role :=
  let role := mmu_role_base vcpu in
  mk_role level true true ACC_ALL (role_smm role) (role_rest role).

(** kvm_mmu_memory_cache_alloc(&vcpu->arch.mmu_shadow_page_cache): the
    next page of the cache. The caches are filled from the page
    allocator of the host, which the state keeps as one pool. *)
Definition kvm_mmu_memory_cache_alloc (st : kvm) : outcome (kvm * Z) :=
  match mmu_shadow_page_cache st with
  | [] => Crash cache_empty
  | p :: rest =>
      Ok (mk_kvm (mem st) (tdp_mmu_roots st) (tdp_mmu_pages st) rest
                 (resched st) (pf_fixed st) (trace st), p)
  end.

(** alloc_tdp_mmu_page *)
Definition alloc_tdp_mmu_page {ops : spte_ops} (st : kvm) (vcpu : kvm_vcpu)
    (gfn level : Z) : outcome (kvm * kvm_mmu_page) :=
  run '(st, spt) <- kvm_mmu_memory_cache_alloc st in
  Ok (st, mk_sp spt (page_role_for_level vcpu level) gfn 0 true).

(** Modelled from the spec: kvm_mmu_get_root of mmu_internal.h is not
    among the sources; "on hit, increments ref_count". *)
Definition kvm_mmu_get_root (root : kvm_mmu_page) : kvm_mmu_page :=
  set_root_count (sp_root_count root + 1) root.

(** Modelled from the spec: kvm_mmu_put_root of mmu_internal.h is not
    among the sources; "put_root decrements ref_count; the caller does
    not free". *)
Definition kvm_mmu_put_root (root : kvm_mmu_page) : kvm_mmu_page :=
  set_root_count (sp_root_count root - 1) root.

(** for_each_tdp_mmu_root ... if (root->role.word == role.word):
    the first root of the list with the role takes a reference; the
    result is that root and the list with it updated in place. *)
Fixpoint find_get_root (role : kvm_mmu_page_role) (l : list kvm_mmu_page)
  : option (kvm_mmu_page * list kvm_mmu_page) :=
  match l with
  | [] => None
  | root :: l' =>
      if decide (sp_role root = role)
      then Some (kvm_mmu_get_root root, kvm_mmu_get_root root :: l')
      else match find_get_root role l' with
           | Some (r, l'') => Some (r, root :: l'')
           | None => None
           end
  end.

(** get_tdp_mmu_vcpu_root; the body runs with kvm->mmu_lock held, one
    call is one step of the state. *)
Definition get_tdp_mmu_vcpu_root {ops : spte_ops} (st : kvm) (vcpu : kvm_vcpu)
  : outcome (kvm * kvm_mmu_page) :=
  let role := page_role_for_level vcpu (shadow_root_level vcpu) in
  match find_get_root role (tdp_mmu_roots st) with
  | Some (root, roots) => Ok (set_roots roots st, root)
  | None =>
      run '(st, root) <- alloc_tdp_mmu_page st vcpu 0 (shadow_root_level vcpu) in
      let root := set_root_count 1 root in
      Ok (set_roots (root :: tdp_mmu_roots st) st, root)
  end.

(** kvm_tdp_mmu_get_vcpu_root_hpa; the pointer returned by
    get_tdp_mmu_vcpu_root is never NULL. *)
Definition kvm_tdp_mmu_get_vcpu_root_hpa {ops : spte_ops} (st : kvm)
    (vcpu : kvm_vcpu) : outcome (kvm * Z) :=
  run '(st, root) <- get_tdp_mmu_vcpu_root st vcpu in
  Ok (st, __pa (sp_spt root)).

(** The reference of the root named [sp] is taken or dropped in place. *)
Definition update_root (f : kvm_mmu_page -> kvm_mmu_page) (sp : Z) (st : kvm)
  : kvm :=
  set_roots (List.map (fun r => if sp_spt r =? sp then f r else r)
                      (tdp_mmu_roots st)) st.

(** ** Range operations *)

Section RangeOps.
Context {ops : spte_ops}.

(** tdp_mmu_set_spte *)
Definition tdp_mmu_set_spte (st : kvm) (it : tdp_iter) (new_spte : Z)
  : outcome kvm :=
  let root_pt := tdp_iter_root_pt it in
  let root := page_header st (sptep_to_sp root_pt) in
  let as_id := kvm_mmu_page_as_id root in
  let st := WRITE_ONCE st (iter_sptep it) new_spte in
  handle_changed_spte st as_id (iter_gfn it) (iter_old_spte it) new_spte
                      (iter_level it).

(** need_resched() || spin_needbreak(&kvm->mmu_lock): the next answer
    of the scheduler; no answer left reads as "no". *)
Definition need_resched (st : kvm) : bool * kvm :=
  match resched st with
  | [] => (false, st)
  | b :: rest =>
      (b, mk_kvm (mem st) (tdp_mmu_roots st) (tdp_mmu_pages st)
                 (mmu_shadow_page_cache st) rest (pf_fixed st) (trace st))
  end.

(** tdp_mmu_iter_flush_cond_resched *)
Definition tdp_mmu_iter_flush_cond_resched (st : kvm) (it : tdp_iter)
  : kvm * tdp_iter * bool :=
  let '(b, st) := need_resched st in
  if b then
    let st := emit kvm_flush_remote_tlbs st in
    let st := emit cond_resched_lock st in
    (st, tdp_iter_refresh_walk st it, false)
  else (st, it, true).

(** The body of the loop of zap_gfn_range, for the entry the walker is
    at. *)
Definition zap_step (st : kvm) (it : tdp_iter) (start end_ : Z)
    (can_yield flush_needed : bool) : outcome (kvm * tdp_iter * bool) :=
  if negb (is_shadow_present_pte (iter_old_spte it))
  then Ok (st, it, flush_needed)
  else if ((iter_gfn it <? start) ||
           (wrap64 (iter_gfn it + KVM_PAGES_PER_HPAGE (iter_level it)) >? end_))
          && negb (is_last_spte (iter_old_spte it) (iter_level it))
  then Ok (st, it, flush_needed)
  else
    run st <- tdp_mmu_set_spte st it 0 in
    if can_yield
    then Ok (tdp_mmu_iter_flush_cond_resched st it)
    else Ok (st, it, true).

(** for (...; iter.valid && iter.gfn < end; tdp_iter_next(&iter)) *)
Fixpoint zap_loop (fuel : nat) (st : kvm) (it : tdp_iter) (start end_ : Z)
    (can_yield flush_needed : bool) : outcome (kvm * bool) :=
  if iter_valid it && (iter_gfn it <? end_) then
    match fuel with
    | O => Crash out_of_fuel
    | S fuel' =>
        run '(st, it, flush_needed) <-
            zap_step st it start end_ can_yield flush_needed in
        zap_loop fuel' st (tdp_iter_next st it) start end_
                 can_yield flush_needed
    end
  else Ok (st, flush_needed).

(** zap_gfn_range; tdp_root_for_each_pte walks from root->spt at
    root->role.level, down to level 1. *)
Definition zap_gfn_range (fuel : nat) (st : kvm) (root : kvm_mmu_page)
    (start end_ : Z) (can_yield : bool) : outcome (kvm * bool) :=
  zap_loop fuel st
           (tdp_iter_start st (sp_spt root) (role_level (sp_role root))
                           PG_LEVEL_4K start)
           start end_ can_yield false.

(** kvm_tdp_mmu_zap_gfn_range *)
Definition kvm_tdp_mmu_zap_gfn_range (fuel : nat) (st : kvm) (start end_ : Z)
  : outcome (kvm * bool) :=
  for_each
    (fun '(st, flush) root =>
       let st := update_root kvm_mmu_get_root (sp_spt root) st in
       run '(st, f) <- zap_gfn_range fuel st root start end_ true in
       let st := update_root kvm_mmu_put_root (sp_spt root) st in
       Ok (st, flush || f))
    (tdp_mmu_roots st) (st, false).

Definition max_gfn : Z := wrap64 (Z.shiftl 1 (x86_phys_bits - PAGE_SHIFT)).

(** kvm_tdp_mmu_zap_all *)
Definition kvm_tdp_mmu_zap_all (fuel : nat) (st : kvm) : outcome kvm :=
  run '(st, flush) <- kvm_tdp_mmu_zap_gfn_range fuel st 0 max_gfn in
  Ok (if flush then emit kvm_flush_remote_tlbs st else st).

(** kvm_tdp_mmu_free_root *)
Definition kvm_tdp_mmu_free_root (fuel : nat) (st : kvm) (root : kvm_mmu_page)
  : outcome kvm :=
  let st := warn_on (negb (sp_root_count root =? 0)) W_root_count st in
  let st := warn_on (negb (sp_tdp_mmu_page root)) W_not_tdp_mmu_page st in
  let st := list_del (sp_spt root) st in
  run '(st, _) <- zap_gfn_range fuel st root 0 max_gfn false in
  let st := emit (free_page (sp_spt root)) st in
  Ok (emit (kmem_cache_free (sp_spt root)) st).

End RangeOps.

(** ** The fault path *)

Section Fault.
Context {ops : spte_ops}.

Definition bump_pf_fixed (st : kvm) : kvm :=
  mk_kvm (mem st) (tdp_mmu_roots st) (tdp_mmu_pages st)
         (mmu_shadow_page_cache st) (resched st) (pf_fixed st + 1) (trace st).

Definition set_old_spte (v : Z) (it : tdp_iter) : tdp_iter :=
  mk_iter (iter_goal_gfn it) (iter_pt_path it) (iter_sptep it) (iter_gfn it)
          (iter_root_level it) (iter_min_level it) (iter_level it) v
          (iter_valid it).

(** clear_page *)
Definition clear_page (pt : Z) (st : kvm) : kvm :=
  fold_left (fun st i => WRITE_ONCE st (pt + i) 0) (upto PT64_ENT_PER_PAGE) st.

(** tdp_mmu_map_handle_target_level. [ret] starts as the literal 0 of
    the source, the value returned when the entry was installed. *)
Definition tdp_mmu_map_handle_target_level (st : kvm) (write : bool)
    (map_writable : Z) (it : tdp_iter) (pfn : Z) (prefault : bool)
  : outcome (kvm * Z) :=
  let ret := 0 in
  let '(make_spte_ret, new_spte) :=
    if is_noslot_pfn pfn
    then (0, make_mmio_spte (iter_gfn it) ACC_ALL)
    else make_spte ACC_ALL (iter_level it) (iter_gfn it) pfn
                   (iter_old_spte it) prefault true map_writable
                   (shadow_accessed_mask =? 0) in
  run '(st, ret) <-
      (if new_spte =? iter_old_spte it
       then Ok (st, RET_PF_SPURIOUS)
       else run st <- tdp_mmu_set_spte st it new_spte in Ok (st, ret)) in
  let '(st, ret) :=
    if negb (Z.land make_spte_ret SET_SPTE_WRITE_PROTECTED_PT =? 0)
    then (emit kvm_make_request_tlb_flush_current st,
          if write then RET_PF_EMULATE else ret)
    else (st, ret) in
  let ret := if is_mmio_spte new_spte then RET_PF_EMULATE else ret in
  let st := if negb prefault then bump_pf_fixed st else st in
  Ok (st, ret).

(** What one round of the loop of kvm_tdp_mmu_map leaves behind:
    whether it left the loop by [break], the walker, and the pfn and
    level the fault is now resolved with. *)
Record map_round : Type := mk_round {
  round_break : bool;
  round_iter : tdp_iter;
  round_pfn : Z;
  round_level : Z
}.

(** The body of the loop of kvm_tdp_mmu_map. *)
Definition map_step (st : kvm) (vcpu : kvm_vcpu) (it : tdp_iter)
    (gfn pfn level : Z) : outcome (kvm * map_round) :=
  let '(pfn, level) :=
    if is_nx_huge_page_enabled
    then disallowed_hugepage_adjust (iter_old_spte it) gfn (iter_level it)
                                    pfn level
    else (pfn, level) in
  if iter_level it =? level then Ok (st, mk_round true it pfn level)
  else
    run '(st, it) <-
        (if is_shadow_present_pte (iter_old_spte it)
            && is_large_pte (iter_old_spte it)
         then
           run st <- tdp_mmu_set_spte st it 0 in
           let st := emit (kvm_flush_remote_tlbs_with_address (iter_gfn it)
                             (KVM_PAGES_PER_HPAGE (iter_level it))) st in
           Ok (st, set_old_spte (READ_ONCE st (iter_sptep it)) it)
         else Ok (st, it)) in
    run st <-
        (if negb (is_shadow_present_pte (iter_old_spte it))
         then
           run '(st, sp) <- alloc_tdp_mmu_page st vcpu (iter_gfn it)
                                               (iter_level it) in
           let st := set_pages (sp :: tdp_mmu_pages st) st in
           let child_pt := sp_spt sp in
           let st := clear_page child_pt st in
           let new_spte := make_nonleaf_spte child_pt
                                             (shadow_accessed_mask =? 0) in
           tdp_mmu_set_spte st it new_spte
         else Ok st) in
    Ok (st, mk_round false it pfn level).

(** tdp_mmu_for_each_pte(iter, mmu, gfn, gfn + 1) { ... } *)
Fixpoint map_loop (fuel : nat) (st : kvm) (vcpu : kvm_vcpu) (it : tdp_iter)
    (gfn pfn level : Z) : outcome (kvm * map_round) :=
  if iter_valid it && (iter_gfn it <? wrap64 (gfn + 1)) then
    match fuel with
    | O => Crash out_of_fuel
    | S fuel' =>
        run '(st, r) <- map_step st vcpu it gfn pfn level in
        if round_break r then Ok (st, r)
        else map_loop fuel' st vcpu (tdp_iter_next st (round_iter r))
                      gfn (round_pfn r) (round_level r)
    end
  else Ok (st, mk_round false it pfn level).

(** kvm_tdp_mmu_map *)
Definition kvm_tdp_mmu_map (fuel : nat) (st : kvm) (vcpu : kvm_vcpu)
    (gpa error_code map_writable max_level pfn : Z) (prefault : bool)
  : outcome (kvm * Z) :=
  let nx_huge_page_workaround_enabled := is_nx_huge_page_enabled in
  let write := negb (Z.land error_code PFERR_WRITE_MASK =? 0) in
  let exec := negb (Z.land error_code PFERR_FETCH_MASK =? 0) in
  let huge_page_disallowed := exec && nx_huge_page_workaround_enabled in
  let gfn := Z.shiftr gpa PAGE_SHIFT in
  if negb (VALID_PAGE (root_hpa vcpu))
  then Ok (emit (WARN_ON W_invalid_root) st, RET_PF_RETRY)
  else if negb (is_tdp_mmu_root st (root_hpa vcpu))
  then Ok (emit (WARN_ON W_not_tdp_root) st, RET_PF_RETRY)
  else
    let '(level, pfn, req_level) :=
      kvm_mmu_hugepage_adjust gfn max_level pfn huge_page_disallowed in
    run '(st, r) <-
        map_loop fuel st vcpu
                 (tdp_iter_start st (__va (root_hpa vcpu))
                                 (shadow_root_level vcpu) PG_LEVEL_4K gfn)
                 gfn pfn level in
    if negb (iter_level (round_iter r) =? round_level r)
    then Ok (emit (WARN_ON W_level_mismatch) st, RET_PF_RETRY)
    else tdp_mmu_map_handle_target_level st write map_writable (round_iter r)
                                         (round_pfn r) prefault.

End Fault.

(** ** An instance of the interface

    The entries of the x86-64 long-mode layout: bit 0 present, bit 1
    writable, bit 2 user, bit 5 accessed, bit 6 dirty, bit 7 page size,
    bits 12..51 the frame; the two bits 52..53 mark an MMIO entry. The
    theorems below hold for every instance; this one is what they are
    applied to at concrete entries. *)

Module X86.

Definition PT_PRESENT_MASK : Z := 1.
Definition PT_WRITABLE_MASK : Z := 2.
Definition PT_USER_MASK : Z := 4.
Definition PT_ACCESSED_MASK : Z := 32.
Definition PT_DIRTY_MASK : Z := 64.
Definition PT_PAGE_SIZE_MASK : Z := 128.
Definition PT64_BASE_ADDR_MASK : Z := 2 ^ 52 - 2 ^ 12.
Definition SPTE_SPECIAL_MASK : Z := Z.shiftl 3 52.
Definition SPTE_MMIO_MASK : Z := Z.shiftl 3 52.
Definition KVM_PFN_NOSLOT : Z := Z.shiftl 2047 52.

Definition is_mmio_spte (spte : Z) : bool :=
  Z.land spte SPTE_SPECIAL_MASK =? SPTE_MMIO_MASK.

Definition is_shadow_present_pte (pte : Z) : bool :=
  negb (pte =? 0) && negb (is_mmio_spte pte).

Definition is_large_pte (pte : Z) : bool :=
  negb (Z.land pte PT_PAGE_SIZE_MASK =? 0).

Definition is_last_spte (pte level : Z) : bool :=
  (level =? PG_LEVEL_4K) || is_large_pte pte.

Definition is_dirty_spte (spte : Z) : bool :=
  negb (Z.land spte PT_DIRTY_MASK =? 0).

Definition spte_to_pfn (pte : Z) : Z :=
  Z.shiftr (Z.land pte PT64_BASE_ADDR_MASK) PAGE_SHIFT.

Definition spte_to_child_pt (spte level : Z) : Z :=
  if negb (is_shadow_present_pte spte) || is_last_spte spte level then 0
  else __va (Z.shiftl (spte_to_pfn spte) PAGE_SHIFT).

Definition make_mmio_spte (gfn access : Z) : Z :=
  Z.lor SPTE_MMIO_MASK
        (Z.lor (Z.land access (Z.lor PT_WRITABLE_MASK PT_USER_MASK))
               (Z.land (Z.shiftl gfn PAGE_SHIFT) PT64_BASE_ADDR_MASK)).

Definition make_nonleaf_spte (child_pt : Z) (ad_disabled : bool) : Z :=
  Z.lor (__pa child_pt)
        (Z.lor (Z.lor PT_PRESENT_MASK PT_WRITABLE_MASK)
               (Z.lor PT_USER_MASK
                      (if ad_disabled then 0 else PT_ACCESSED_MASK))).

Definition make_spte (pte_access level gfn pfn old_spte : Z)
    (speculative can_unsync : bool) (host_writable : Z) (ad_disabled : bool)
  : Z * Z :=
  let spte := PT_PRESENT_MASK in
  let spte := if speculative then spte else Z.lor spte PT_ACCESSED_MASK in
  let spte := Z.lor spte (Z.land pte_access PT_USER_MASK) in
  let spte := if level >? PG_LEVEL_4K then Z.lor spte PT_PAGE_SIZE_MASK
              else spte in
  let spte := Z.lor spte (Z.land (Z.shiftl pfn PAGE_SHIFT)
                                 PT64_BASE_ADDR_MASK) in
  let spte := if host_writable =? 0 then spte
              else Z.lor spte (Z.lor PT_WRITABLE_MASK PT_DIRTY_MASK) in
  (0, spte).

Definition is_noslot_pfn (pfn : Z) : bool := pfn =? KVM_PFN_NOSLOT.

Definition kvm_mmu_hugepage_adjust (gfn max_level pfn : Z)
    (huge_page_disallowed : bool) : Z * Z * Z :=
  if is_noslot_pfn pfn then (PG_LEVEL_4K, pfn, PG_LEVEL_4K)
  else (if huge_page_disallowed then PG_LEVEL_4K else max_level,
        pfn, max_level).

Definition disallowed_hugepage_adjust (spte gfn cur_level pfn level : Z)
  : Z * Z :=
  if (cur_level =? level) && (level >? PG_LEVEL_4K)
     && is_shadow_present_pte spte && negb (is_large_pte spte)
  then (Z.lor pfn (Z.land gfn (KVM_PAGES_PER_HPAGE level
                               - KVM_PAGES_PER_HPAGE (level - 1))),
        level - 1)
  else (pfn, level).

End X86.

#[global] Instance x86_ops : spte_ops := {|
  is_shadow_present_pte := X86.is_shadow_present_pte;
  is_last_spte := X86.is_last_spte;
  is_large_pte := X86.is_large_pte;
  is_mmio_spte := X86.is_mmio_spte;
  is_dirty_spte := X86.is_dirty_spte;
  spte_to_pfn := X86.spte_to_pfn;
  spte_to_child_pt := X86.spte_to_child_pt;
  make_mmio_spte := X86.make_mmio_spte;
  make_nonleaf_spte := X86.make_nonleaf_spte;
  make_spte := X86.make_spte;
  is_noslot_pfn := X86.is_noslot_pfn;
  kvm_mmu_hugepage_adjust := X86.kvm_mmu_hugepage_adjust;
  disallowed_hugepage_adjust := X86.disallowed_hugepage_adjust;
  is_nx_huge_page_enabled := false;
  shadow_accessed_mask := X86.PT_ACCESSED_MASK;
  ACC_ALL := 7;
  SET_SPTE_WRITE_PROTECTED_PT := 1;
  PFERR_WRITE_MASK := 2;
  PFERR_FETCH_MASK := 16;
  RET_PF_RETRY := 0;
  RET_PF_EMULATE := 1;
  RET_PF_SPURIOUS := 4;
  x86_phys_bits := 52
|}.

(** ** The handler, in parts

    Names for the tests and the pieces of [__handle_changed_spte], for
    the statements below. *)

Section HandlerParts.
Context {ops : spte_ops}.

(** The conditions the handler tests, as predicates of the change. *)
Definition was_leaf (old_spte level : Z) : bool :=
  is_shadow_present_pte old_spte && is_last_spte old_spte level.

Definition pfn_changed (old_spte new_spte : Z) : bool :=
  negb (spte_to_pfn old_spte =? spte_to_pfn new_spte).

(** A present leaf is replaced by a present leaf of another frame. *)
Definition bug_transition (old_spte new_spte level : Z) : bool :=
  was_leaf old_spte level && was_leaf new_spte level
  && pfn_changed old_spte new_spte.

(** The dirty bit of the old leaf is handed on. *)
Definition dirty_harvest (old_spte new_spte level : Z) : bool :=
  was_leaf old_spte level && is_dirty_spte old_spte
  && (negb (is_dirty_spte new_spte) || pfn_changed old_spte new_spte).

(** The subtree below [old_spte] goes away with the change: the
    condition under which the handler tears the child table down. *)
Definition removes_subtree (old_spte new_spte level : Z) : bool :=
  is_shadow_present_pte old_spte && negb (was_leaf old_spte level)
  && (pfn_changed old_spte new_spte || negb (is_shadow_present_pte new_spte)).

(** The state after the checks at the head of the handler. *)
Definition handler_enter (st : kvm) (gfn old_spte new_spte level : Z) : kvm :=
  warn_on (negb (gfn mod KVM_PAGES_PER_HPAGE level =? 0)) W_gfn_unaligned
    (warn_on (level <? PG_LEVEL_4K) W_level_below_4K
       (warn_on (level >? PT64_ROOT_MAX_LEVEL) W_level_above_max
          (emit (spte_changed gfn old_spte new_spte level) st))).

Definition handler_dirty (st : kvm) (old_spte new_spte level : Z) : kvm :=
  if dirty_harvest old_spte new_spte level
  then emit (kvm_set_pfn_dirty (spte_to_pfn old_spte)) st
  else st.

(** The loop over the entries of the child table [pt] of an entry of
    [level] that maps [gfn]. *)
Definition zap_children (depth : nat) (st : kvm) (as_id gfn pt level : Z)
  : outcome kvm :=
  for_each
    (fun st i =>
       handle_changed_spte_rec depth (WRITE_ONCE st (pt + i) 0) as_id
         (wrap64 (gfn + i * KVM_PAGES_PER_HPAGE (level - 1)))
         (READ_ONCE st (pt + i)) 0 (level - 1))
    (upto PT64_ENT_PER_PAGE) st.

Definition teardown_tail (st : kvm) (gfn pt level : Z) : kvm :=
  emit (kmem_cache_free (sptep_to_sp pt))
    (emit (free_page pt)
       (emit (kvm_flush_remote_tlbs_with_address gfn
                (KVM_PAGES_PER_HPAGE level)) st)).

End HandlerParts.

(** ** Laws of the entry codec

    What the theorems assume of an instance, one law at a time. *)

(** Entries of level 1 end the translation. *)
Definition leaf_at_4K (ops : spte_ops) : Prop :=
  forall pte, is_last_spte pte PG_LEVEL_4K = true.

(** The zero entry is not present. *)
Definition zero_not_present (ops : spte_ops) : Prop :=
  is_shadow_present_pte 0 = false.

(** ** Sample states and entries for the concrete runs *)

Definition empty_kvm : kvm := mk_kvm ∅ [] [] [] [] 0 [].

(** A state with the given words of memory and page cache. *)
Definition kvm_of (words : list (Z * Z)) (cache : list Z) : kvm :=
  mk_kvm (list_to_map words) [] [] cache [] 0 [].

Module Sample.
(** A present, writable, dirty 4K leaf of frame [pfn]. *)
Definition leaf (pfn : Z) : Z := Z.lor (Z.shiftl pfn 12) 67.
(** The same leaf with the dirty bit clear and write access removed. *)
Definition clean_leaf (pfn : Z) : Z := Z.lor (Z.shiftl pfn 12) 1.
(** A present, writable, dirty large leaf of frame [pfn]. *)
Definition large_leaf (pfn : Z) : Z := Z.lor (Z.shiftl pfn 12) 195.
(** A present entry that points to the table in frame [pfn]. *)
Definition table (pfn : Z) : Z := Z.lor (Z.shiftl pfn 12) 39.
End Sample.


(** ** Reading the trace *)

(** The calls recorded between two states of one run. *)
Definition events_since (st st' : kvm) : list event :=
  drop (length (trace st)) (trace st').

(** The warnings at the head of the handler. *)
Definition entry_warnings (gfn level : Z) : list event :=
  (if level >? PT64_ROOT_MAX_LEVEL then [WARN_ON W_level_above_max] else [])
  ++ (if level <? PG_LEVEL_4K then [WARN_ON W_level_below_4K] else [])
  ++ (if negb (gfn mod KVM_PAGES_PER_HPAGE level =? 0)
      then [WARN_ON W_gfn_unaligned] else []).

Definition is_free_page (e : event) : bool :=
  match e with free_page _ => true | _ => false end.

(** The entry of the trace records a change that takes a child table
    out of the tree. *)
Definition is_removal {ops : spte_ops} (e : event) : bool :=
  match e with
  | spte_changed _ old_spte new_spte level =>
      removes_subtree old_spte new_spte level
  | _ => false
  end.

Definition count_events (f : event -> bool) (evs : list event) : nat :=
  length (List.filter f evs).

(** A sequence of set_entry calls: tdp_mmu_set_spte for each pair of a
    walker position and a new value. *)
Definition set_entries {ops : spte_ops} (st : kvm)
    (calls : list (tdp_iter * Z)) : outcome kvm :=
  for_each (fun st c => tdp_mmu_set_spte st (fst c) (snd c)) calls st.

(** The table in frame 5 holds one entry, a dirty leaf of frame 7 at
    index 3; no other word of memory was written. *)
Definition one_leaf_table : kvm := kvm_of [(5 * 512 + 3, Sample.leaf 7)] [].

(** The notifications, flush requests and frees of a trace. *)
Definition is_side_effect (e : event) : bool :=
  match e with
  | kvm_set_pfn_dirty _ | kvm_flush_remote_tlbs_with_address _ _
  | free_page _ | kmem_cache_free _ => true
  | _ => false
  end.

Definition side_effects (evs : list event) : list event :=
  List.filter is_side_effect evs.

(** What a call of the handler did, as far as its callers can tell:
    the calls it recorded, or the way it did not return. *)
Definition handler_effects {ops : spte_ops} (st : kvm)
    (as_id gfn old_spte new_spte level : Z) : outcome (list event) :=
  run st' <- handle_changed_spte st as_id gfn old_spte new_spte level in
  Ok (events_since st st').

Definition handler_side_effects {ops : spte_ops} (st : kvm)
    (as_id gfn old_spte new_spte level : Z) : outcome (list event) :=
  run evs <- handler_effects st as_id gfn old_spte new_spte level in
  Ok (side_effects evs).

(** Two runs from states with the same memory went the same way: the
    same crash, or the same calls and the same memory again. *)
Definition same_run (st1 st2 : kvm) (o1 o2 : outcome kvm) : Prop :=
  match o1, o2 with
  | Ok s1, Ok s2 =>
      mem s1 = mem s2
      /\ exists evs, trace s1 = trace st1 ++ evs /\ trace s2 = trace st2 ++ evs
  | Crash c1, Crash c2 => c1 = c2
  | _, _ => False
  end.

(** ** Relations kept by every step

    A relation between the state before and the state after that is
    reflexive and transitive and holds across each elementary update
    of the state holds across every function of the file. *)
Record stable (R : kvm -> kvm -> Prop) : Prop := {
  stable_refl : forall s, R s s;
  stable_trans : forall s1 s2 s3, R s1 s2 -> R s2 s3 -> R s1 s3;
  stable_emit : forall e s, R s (emit e s);
  stable_write : forall p v s, R s (WRITE_ONCE s p v);
  stable_list_del : forall sp s, R s (list_del sp s);
  stable_set_pages : forall l s, R s (set_pages l s);
  stable_cache : forall s s' p,
      kvm_mmu_memory_cache_alloc s = Ok (s', p) -> R s s';
  stable_resched : forall s, R s (snd (need_resched s));
  stable_pf_fixed : forall s, R s (bump_pf_fixed s);
  stable_update_root : forall f sp s,
      (forall r, sp_role (f r) = sp_role r /\ sp_spt (f r) = sp_spt r) ->
      R s (update_root f sp s)
}.

(** "At most one root per role": no role occurs twice on the list of
    roots. *)
Definition roots_unique (st : kvm) : Prop :=
  NoDup (List.map sp_role (tdp_mmu_roots st)).

(** The calls into tdp_mmu.c that threads make, each under
    kvm->mmu_lock. *)
Inductive mmu_call : Type :=
| call_get_root (vcpu : kvm_vcpu)
| call_put_root (sp : Z)
| call_free_root (sp : Z)
| call_zap_gfn_range (start end_ : Z)
| call_zap_all
| call_map (vcpu : kvm_vcpu) (gpa error_code map_writable max_level pfn : Z)
           (prefault : bool).

Definition find_root (st : kvm) (sp : Z) : option kvm_mmu_page :=
  List.find (fun r => sp_spt r =? sp) (tdp_mmu_roots st).

Definition run_call {ops : spte_ops} (fuel : nat) (st : kvm) (c : mmu_call)
  : outcome kvm :=
  match c with
  | call_get_root vcpu =>
      run '(st, _) <- get_tdp_mmu_vcpu_root st vcpu in Ok st
  | call_put_root sp => Ok (update_root kvm_mmu_put_root sp st)
  | call_free_root sp =>
      match find_root st sp with
      | Some root => kvm_tdp_mmu_free_root fuel st root
      | None => Ok st
      end
  | call_zap_gfn_range start end_ =>
      run '(st, _) <- kvm_tdp_mmu_zap_gfn_range fuel st start end_ in Ok st
  | call_zap_all => kvm_tdp_mmu_zap_all fuel st
  | call_map vcpu gpa error_code map_writable max_level pfn prefault =>
      run '(st, _) <- kvm_tdp_mmu_map fuel st vcpu gpa error_code map_writable
                                       max_level pfn prefault in
      Ok st
  end.

(** An interleaving of the threads: their calls in the order in which
    they took the lock. *)
Definition run_calls {ops : spte_ops} (fuel : nat) (st : kvm)
    (calls : list mmu_call) : outcome kvm :=
  for_each (run_call fuel) calls st.

(** A vCPU with a four-level root in the page at word 512 * 16, and one
    in system-management mode, with another role. *)
Definition sample_vcpu : kvm_vcpu :=
  mk_vcpu (mk_role 0 false false 0 false 0) 4 (__pa (512 * 16)).

Definition sample_smm_vcpu : kvm_vcpu :=
  mk_vcpu (mk_role 0 false false 0 true 0) 4 (__pa (512 * 17)).

(** A fresh VM: empty tables, and pages 16, 17, ... in the cache. *)
Definition fresh_kvm : kvm :=
  kvm_mmu_init_tdp_mmu
    (kvm_of [] (List.map (fun i => 512 * (16 + i)) (upto 8))).

(** The range of the entry the walker is at lies inside [start, end):
    the negation of the first test of zap_gfn_range. *)
Definition inside_range (it : tdp_iter) (start end_ : Z) : bool :=
  negb ((iter_gfn it <? start)
        || (wrap64 (iter_gfn it + KVM_PAGES_PER_HPAGE (iter_level it)) >? end_)).

(** A four-level tree. The root table is page 16; its entry 0 points to
    the level-3 table in page 17, whose entry 0 points to the level-2
    table in page 18. There, entry 0 points to the level-1 table in
    page 19, which maps the guest frames 0..15 to the host frames
    100..115, and entry 1 is a large leaf for the guest frames
    512..1023. *)
Definition sample_root : kvm_mmu_page :=
  mk_sp (512 * 16) (mk_role 4 true true 7 false 0) 0 1 true.

Definition sample_tree : kvm :=
  mk_kvm
    (list_to_map
       ([(512 * 16, Sample.table 17);
         (512 * 17, Sample.table 18);
         (512 * 18, Sample.table 19);
         (512 * 18 + 1, Sample.large_leaf 1024)]
        ++ List.map (fun i => (512 * 19 + i, Sample.leaf (100 + i))) (upto 16)))
    [sample_root]
    [mk_sp (512 * 19) (mk_role 2 true true 7 false 0) 0 0 true;
     mk_sp (512 * 18) (mk_role 3 true true 7 false 0) 0 0 true;
     mk_sp (512 * 17) (mk_role 4 true true 7 false 0) 0 0 true]
    (List.map (fun i => 512 * (32 + i)) (upto 8)) [] 0 [].

(** The walker of [sample_tree] at entry 0 of the level-2 table. *)
Definition sample_level2_iter : tdp_iter :=
  tdp_iter_next sample_tree
    (tdp_iter_next sample_tree
       (tdp_iter_start sample_tree (512 * 16) 4 PG_LEVEL_4K 0)).

(** The pages freed in a trace. *)
Definition pages_freed (evs : list event) : list Z :=
  omap (fun e => match e with free_page pt => Some pt | _ => None end) evs.

(** An entry of the trace that is not the record of a change, or
    records a change towards the zero entry. *)
Definition to_zero (e : event) : Prop :=
  match e with
  | spte_changed _ _ new_spte _ => new_spte = 0
  | _ => True
  end.

(** An entry of the trace that is not the record of a change, or
    records a change that either clears the entry or writes over a
    value that was not present: no present entry is overwritten with
    another value directly. *)
Definition clears_or_fills {ops : spte_ops} (e : event) : Prop :=
  match e with
  | spte_changed _ old_spte new_spte _ =>
      new_spte = 0 \/ is_shadow_present_pte old_spte = false
  | _ => True
  end.

(** The snapshot of the walker is the value in memory. *)
Definition snapshot_current (st : kvm) (it : tdp_iter) : Prop :=
  iter_old_spte it = READ_ONCE st (iter_sptep it).

(** The trace of the second state continues the trace of the first. *)
Definition extends (st st' : kvm) : Prop :=
  exists evs, trace st' = trace st ++ evs.

(** The walker of [sample_tree] at entry 1 of the level-2 table, the
    large leaf, on the way to guest frame 600. *)
Definition sample_large_iter : tdp_iter :=
  tdp_iter_next sample_tree
    (tdp_iter_next sample_tree
       (tdp_iter_start sample_tree (512 * 16) 4 PG_LEVEL_4K 600)).

(** ** The path of a fault

    The walk of kvm_tdp_mmu_map for the guest frame [gfn] and the
    target level [target], read off a state. *)

Section WalkDefs.
Context {ops : spte_ops}.
Variables (gfn target : Z).

(** The entry of the table [pt] of level [k] that the walk visits. *)
Definition entry_addr (pt k : Z) : Z :=
  pt + SHADOW_PT_INDEX (round_gfn_for_level gfn k) k.

(** A present entry that is no large leaf: above level 1, an entry
    that points to a child table. *)
Definition is_table_entry (e : Z) : bool :=
  is_shadow_present_pte e && negb (is_large_pte e).

(** The tables the walk goes through without writing, from the table
    [pt] of level [k], at most [n] levels down. *)
Fixpoint walk_tables (n : nat) (st : kvm) (pt k : Z) : list Z :=
  pt :: match n with
        | O => []
        | S n' =>
            let e := READ_ONCE st (entry_addr pt k) in
            if is_table_entry e
            then walk_tables n' st (spte_to_child_pt e k) (k - 1)
            else []
        end.

(** The value the walk finds in the entry of the target level, [n]
    levels down: the value in memory when all the tables on the way
    are there, and zero, the content of a new table, when not. *)
Fixpoint walk_entry (n : nat) (st : kvm) (pt k : Z) : Z :=
  match n with
  | O => READ_ONCE st (entry_addr pt k)
  | S n' =>
      let e := READ_ONCE st (entry_addr pt k) in
      if is_table_entry e
      then walk_entry n' st (spte_to_child_pt e k) (k - 1)
      else 0
  end.

(** The tables [tabs], the first of level [k], are linked one to the
    next by the entries the walk visits, and [p] is the entry it
    visits in the last. *)
Fixpoint path_in (st : kvm) (tabs : list Z) (k p : Z) : Prop :=
  match tabs with
  | [] => False
  | t :: rest =>
      match rest with
      | [] => p = entry_addr t k
      | t' :: _ =>
          is_table_entry (READ_ONCE st (entry_addr t k)) = true
          /\ spte_to_child_pt (READ_ONCE st (entry_addr t k)) k = t'
          /\ t' <> 0
          /\ path_in st rest (k - 1) p
      end
  end.

(** The walker is at the entry of the table [pt] of level [k]. *)
Definition iter_at (it : tdp_iter) (pt k : Z) : Prop :=
  iter_valid it = true
  /\ iter_level it = k
  /\ iter_goal_gfn it = gfn
  /\ iter_gfn it = round_gfn_for_level gfn k
  /\ iter_sptep it = entry_addr pt k
  /\ iter_min_level it = PG_LEVEL_4K.

(** The workaround for NX huge pages leaves the pfn and the level of
    this fault alone. *)
Definition nx_inert (pfn : Z) : Prop :=
  is_nx_huge_page_enabled = false
  \/ forall spte cur_level,
      disallowed_hugepage_adjust spte gfn cur_level pfn target = (pfn, target).

End WalkDefs.

(** The pages that start at the words of [l] do not overlap. *)
Fixpoint separated (l : list Z) : Prop :=
  match l with
  | [] => True
  | t :: l' => Forall (fun u => 512 <= Z.abs (t - u)) l' /\ separated l'
  end.

(** The word [a] lies in the page that starts at [t]. *)
Definition in_page (t a : Z) : Prop := t <= a < t + PT64_ENT_PER_PAGE.

(** A page of the cache can be linked into the tree: the entry made
    for it is a table entry and leads back to the page. *)
Definition table_pointer {ops : spte_ops} (c : Z) : Prop :=
  c <> 0
  /\ is_table_entry (make_nonleaf_spte c (shadow_accessed_mask =? 0)) = true
  /\ forall k, PG_LEVEL_4K < k ->
       spte_to_child_pt (make_nonleaf_spte c (shadow_accessed_mask =? 0)) k = c.

(** A large leaf is a leaf at every level. *)
Definition large_is_last (ops : spte_ops) : Prop :=
  forall pte level, is_large_pte pte = true -> is_last_spte pte level = true.

(** An MMIO entry is not present. *)
Definition mmio_not_present (ops : spte_ops) : Prop :=
  forall pte, is_mmio_spte pte = true -> is_shadow_present_pte pte = false.

(** The old value has no child table at the level. *)
Definition no_child_table {ops : spte_ops} (old_spte level : Z) : bool :=
  negb (is_shadow_present_pte old_spte && negb (is_last_spte old_spte level)).

(** Everything of the state but the trace, the lists of pages and the
    counters is the same. *)
Definition heap_eq (st st' : kvm) : Prop :=
  mem st' = mem st
  /\ tdp_mmu_roots st' = tdp_mmu_roots st
  /\ mmu_shadow_page_cache st' = mmu_shadow_page_cache st.

(** ** The state a fault is resolved in

    What kvm_tdp_mmu_map relies on when it is called for the guest
    frame [gfn] at [level]: the root of the vCPU is a root of the
    registry; the level lies in the tree; the cache of the vCPU holds a
    page for every table the walk has to build (the caller tops it up
    before the fault is resolved); and the tables of the walk and the
    pages of the cache are pages of their own. *)
Definition fault_tables {ops : spte_ops} (st : kvm) (vcpu : kvm_vcpu)
    (gfn level : Z) : list Z :=
  walk_tables gfn (Z.to_nat (shadow_root_level vcpu - level)) st
              (__va (root_hpa vcpu)) (shadow_root_level vcpu).

Definition fault_pages {ops : spte_ops} (st : kvm) (vcpu : kvm_vcpu)
    (gfn level : Z) : list Z :=
  take (S (Z.to_nat (shadow_root_level vcpu - level))
        - length (fault_tables st vcpu gfn level))
       (mmu_shadow_page_cache st).

Definition fault_walk_ready {ops : spte_ops} (st : kvm) (vcpu : kvm_vcpu)
    (gfn level : Z) : Prop :=
  VALID_PAGE (root_hpa vcpu) = true
  /\ (exists root,
        find_root st (sptep_to_sp (__va (root_hpa vcpu))) = Some root
        /\ sp_tdp_mmu_page root = true
        /\ (sp_root_count root =? 0) = false)
  /\ 1 <= level <= shadow_root_level vcpu
  /\ length (fault_pages st vcpu gfn level)
     = (S (Z.to_nat (shadow_root_level vcpu - level))
        - length (fault_tables st vcpu gfn level))%nat
  /\ Forall table_pointer (fault_pages st vcpu gfn level)
  /\ Forall (fun t => t <> 0) (fault_tables st vcpu gfn level)
  /\ separated (fault_tables st vcpu gfn level
                ++ fault_pages st vcpu gfn level).

(** The entry the walk finds at the level of the fault: the entry of
    the tree, or 0 in a table the walk has built. *)
Definition fault_target_entry {ops : spte_ops} (st : kvm) (vcpu : kvm_vcpu)
    (gfn level : Z) : Z :=
  walk_entry gfn (Z.to_nat (shadow_root_level vcpu - level)) st
             (__va (root_hpa vcpu)) (shadow_root_level vcpu).

(** ** Ranges of host virtual addresses *)

(** What tdp_mmu.c reads of struct kvm_memory_slot. *)
Record kvm_memory_slot : Type := mk_slot {
  base_gfn : Z;
  npages : Z;
  userspace_addr : Z
}.

Section HvaRange.
Context {ops : spte_ops}.

(** hva_to_gfn_memslot of kvm_host.h and the memory slots of the
    address spaces of the VM (__kvm_memslots, kvm_for_each_memslot),
    neither among the sources; tdp_mmu.c does not change the slots. *)
Variable hva_to_gfn_memslot : Z -> kvm_memory_slot -> Z.
Variable __kvm_memslots : Z -> list kvm_memory_slot.

(** The body of kvm_for_each_memslot in kvm_tdp_mmu_handle_hva_range. *)
Definition hva_range_slot
    (handler : kvm -> kvm_memory_slot -> kvm_mmu_page -> Z -> Z -> Z
               -> outcome (kvm * Z))
    (root : kvm_mmu_page) (start end_ data : Z)
    (acc : kvm * Z) (memslot : kvm_memory_slot) : outcome (kvm * Z) :=
  let '(st, ret) := acc in
  let hva_start := Z.max start (userspace_addr memslot) in
  let hva_end :=
    Z.min end_ (wrap64 (userspace_addr memslot
                        + wrap64 (Z.shiftl (npages memslot) PAGE_SHIFT))) in
  if hva_start >=? hva_end then Ok (st, ret)
  else
    let gfn_start := hva_to_gfn_memslot hva_start memslot in
    let gfn_end :=
      hva_to_gfn_memslot (wrap64 (hva_end + PAGE_SIZE - 1)) memslot in
    run '(st, r) <- handler st memslot root gfn_start gfn_end data in
    Ok (st, Z.lor ret r).

(** kvm_tdp_mmu_handle_hva_range *)
Definition kvm_tdp_mmu_handle_hva_range (st : kvm) (start end_ data : Z)
    (handler : kvm -> kvm_memory_slot -> kvm_mmu_page -> Z -> Z -> Z
               -> outcome (kvm * Z))
  : outcome (kvm * Z) :=
  for_each
    (fun '(st, ret) root =>
       let st := update_root kvm_mmu_get_root (sp_spt root) st in
       let as_id := kvm_mmu_page_as_id (Some root) in
       let slots := __kvm_memslots as_id in
       run '(st, ret) <-
           for_each (hva_range_slot handler root start end_ data) slots
                    (st, ret) in
       let st := update_root kvm_mmu_put_root (sp_spt root) st in
       Ok (st, ret))
    (tdp_mmu_roots st) (st, 0).

(** zap_gfn_range_hva_wrapper; the bool of zap_gfn_range is returned
    as an int. *)
Definition zap_gfn_range_hva_wrapper (fuel : nat) (st : kvm)
    (slot : kvm_memory_slot) (root : kvm_mmu_page) (start end_ unused : Z)
  : outcome (kvm * Z) :=
  run '(st, flush) <- zap_gfn_range fuel st root start end_ false in
  Ok (st, if flush then 1 else 0).

(** kvm_tdp_mmu_zap_hva_range *)
Definition kvm_tdp_mmu_zap_hva_range (fuel : nat) (st : kvm) (start end_ : Z)
  : outcome (kvm * Z) :=
  kvm_tdp_mmu_handle_hva_range st start end_ 0
                               (zap_gfn_range_hva_wrapper fuel).

End HvaRange.

(** ** Reading the trace of the range operations *)

(** The calls the change handler makes. *)
Definition handler_event (e : event) : bool :=
  match e with
  | spte_changed _ _ _ _ | kvm_set_pfn_dirty _
  | kvm_flush_remote_tlbs_with_address _ _ | free_page _ | kmem_cache_free _
  | WARN_ON _ | pr_err _ => true
  | _ => false
  end.

(** A remote TLB flush is pending after the calls [evs], given whether
    one was pending before them: a write to an entry (each is followed
    by a call of the handler) leaves one pending, kvm_flush_remote_tlbs
    settles it. *)
Definition flush_pending (p : bool) (evs : list event) : bool :=
  fold_left (fun p e => match e with
                        | spte_changed _ _ _ _ => true
                        | kvm_flush_remote_tlbs => false
                        | _ => p
                        end) evs p.

(** Whenever the lock is dropped, the call just before was the remote
    TLB flush. *)
Definition yields_after_flush (evs : list event) : Prop :=
  forall l1 l2, evs = l1 ++ cond_resched_lock :: l2 ->
    exists l0, l1 = l0 ++ [kvm_flush_remote_tlbs].

(** The roots of the second state are roots of the first, in their
    order and with their reference counts; roots whose page was
    unlinked are missing. *)
Definition roots_kept (st st' : kvm) : Prop :=
  exists q : Z -> bool,
    tdp_mmu_roots st' = List.filter (fun r => q (sp_spt r)) (tdp_mmu_roots st).

(** The roots of the registry are what get_tdp_mmu_vcpu_root leaves
    there: pages of their own, page-aligned, marked as pages of the TDP
    MMU, with a reference held. *)
Definition registry_ok (st : kvm) : Prop :=
  NoDup (List.map sp_spt (tdp_mmu_roots st))
  /\ Forall (fun r => sp_tdp_mmu_page r = true
                      /\ 0 < sp_root_count r
                      /\ sp_spt r mod PT64_ENT_PER_PAGE = 0)
            (tdp_mmu_roots st).

(** Every word of memory holds what it held or zero. *)
Definition only_cleared (st st' : kvm) : Prop :=
  forall p, READ_ONCE st' p = READ_ONCE st p \/ READ_ONCE st' p = 0.

(** The entry of the trace records that a present entry was set to
    zero. *)
Definition zapped {ops : spte_ops} (e : event) : bool :=
  match e with
  | spte_changed _ old_spte new_spte _ =>
      is_shadow_present_pte old_spte && (new_spte =? 0)
  | _ => false
  end.

(** [sample_tree] with a scheduler that asks for the lock at the first
    and the third opportunity. *)
Definition sample_busy_tree : kvm :=
  mk_kvm (mem sample_tree) (tdp_mmu_roots sample_tree)
         (tdp_mmu_pages sample_tree) (mmu_shadow_page_cache sample_tree)
         [true; false; true] 0 [].

(** The computation returns, with a result that passes the test. *)
Definition returns {A} (test : A -> bool) (m : outcome A) : bool :=
  match m with
  | Ok a => test a
  | Crash _ => false
  end.

(** One memory slot for both address spaces: the guest frames 0..1023
    at the host virtual addresses from 2^30 on, and the translation of
    an address of a slot to its guest frame. *)
Definition sample_slots (as_id : Z) : list kvm_memory_slot :=
  [mk_slot 0 1024 (2 ^ 30)].

Definition sample_hva_to_gfn (hva : Z) (slot : kvm_memory_slot) : Z :=
  base_gfn slot + Z.shiftr (hva - userspace_addr slot) PAGE_SHIFT.

(** What one slot, and then one root, adds to a run of
    kvm_tdp_mmu_zap_hva_range that has returned 0 or 1 so far. *)
Definition zap_hva_progress {ops : spte_ops} (a b : kvm * Z) : Prop :=
  snd a = 0 \/ snd a = 1 ->
  extends (fst a) (fst b)
  /\ Forall (fun e => handler_event e = true) (events_since (fst a) (fst b))
  /\ (snd b = 0 \/ snd b = 1)
  /\ (snd b = 0 -> fst b = fst a /\ snd a = 0)
  /\ (snd b = 1 ->
      snd a = 1
      \/ exists e, In e (events_since (fst a) (fst b)) /\ zapped e = true).

(** The walker of [sample_tree] at the entry of the guest frame 3 in
    the level-1 table, a leaf of the host frame 103. *)
Definition sample_leaf_iter : tdp_iter :=
  mk_iter 3 {[ 4 := 512 * 16 ]} (512 * 19 + 3) 3 4 PG_LEVEL_4K 1
          (Sample.leaf 103) true.

(** The pages and the cache of the second state, given those of the
    first: [k] pages were taken from the head of the cache, and each
    is on the list of pages of the TDP MMU, the last taken first. *)
Definition took_pages (k : nat) (st st' : kvm) : Prop :=
  mmu_shadow_page_cache st' = drop k (mmu_shadow_page_cache st)
  /\ List.map sp_spt (tdp_mmu_pages st')
     = rev (take k (mmu_shadow_page_cache st))
       ++ List.map sp_spt (tdp_mmu_pages st).

(** Above level 1, an entry that is no large leaf does not end the
    translation. *)
Definition table_not_last (ops : spte_ops) : Prop :=
  forall pte level,
    PG_LEVEL_4K < level -> is_large_pte pte = false ->
    is_last_spte pte level = false.

(** An entry that is not present points to no child table. *)
Definition absent_no_child (ops : spte_ops) : Prop :=
  forall pte level,
    is_shadow_present_pte pte = false -> spte_to_child_pt pte level = 0.
(** * Properties *)

(** ** Memory, trace and the loops *)

Lemma READ_ONCE_emit e st p : READ_ONCE (emit e st) p = READ_ONCE st p.
Proof. reflexivity. Qed.

Lemma READ_ONCE_warn_on c w st p : READ_ONCE (warn_on c w st) p = READ_ONCE st p.
Proof. destruct c; reflexivity. Qed.

Lemma READ_ONCE_list_del sp st p : READ_ONCE (list_del sp st) p = READ_ONCE st p.
Proof. reflexivity. Qed.

Lemma READ_ONCE_WRITE_ONCE st p v : READ_ONCE (WRITE_ONCE st p v) p = v.
Proof. unfold READ_ONCE, WRITE_ONCE; simpl. by rewrite lookup_insert_eq. Qed.

Lemma READ_ONCE_WRITE_ONCE_ne st p q v :
  p <> q -> READ_ONCE (WRITE_ONCE st p v) q = READ_ONCE st q.
Proof.
  intros Hne. unfold READ_ONCE, WRITE_ONCE; simpl.
  by rewrite lookup_insert_ne.
Qed.

Lemma trace_warn_on c w st :
  trace (warn_on c w st) = trace st ++ (if c then [WARN_ON w] else []).
Proof. destruct c; simpl; [reflexivity | by rewrite app_nil_r]. Qed.

Lemma bind_Ok {A B} (m : outcome A) (k : A -> outcome B) (b : B) :
  bind m k = Ok b -> exists a, m = Ok a /\ k a = Ok b.
Proof. destruct m as [a|c]; simpl; [eauto | discriminate]. Qed.

Lemma for_each_app {A S} (body : S -> A -> outcome S) l1 l2 s :
  for_each body (l1 ++ l2) s = bind (for_each body l1 s) (for_each body l2).
Proof.
  revert s. induction l1 as [|x l1 IH]; intros s; simpl; [reflexivity|].
  destruct (body s x); simpl; auto.
Qed.

(** A relation that holds across every round of a loop holds across
    the loop. *)
Lemma for_each_rel {A S} (R : S -> S -> Prop) (body : S -> A -> outcome S) l :
  (forall s, R s s) ->
  (forall s1 s2 s3, R s1 s2 -> R s2 s3 -> R s1 s3) ->
  (forall s x s', In x l -> body s x = Ok s' -> R s s') ->
  forall s s', for_each body l s = Ok s' -> R s s'.
Proof.
  intros Hrefl Htrans. induction l as [|x l IH]; intros Hbody s s' Hrun.
  - simpl in Hrun. injection Hrun as <-. apply Hrefl.
  - simpl in Hrun. apply bind_Ok in Hrun as (s1 & H1 & H2).
    eapply Htrans.
    + eapply Hbody; [left; reflexivity | exact H1].
    + apply IH; [|exact H2]. intros; eapply Hbody; [right|]; eassumption.
Qed.

Lemma upto_spec n i : In i (upto n) <-> 0 <= i < n.
Proof.
  unfold upto. rewrite in_map_iff. split.
  - intros (k & <- & Hk). apply in_seq in Hk. lia.
  - intros Hi. exists (Z.to_nat i). split; [lia|]. apply in_seq. lia.
Qed.

Lemma PT64_ENT_PER_PAGE_eq : PT64_ENT_PER_PAGE = 512.
Proof. reflexivity. Qed.

Lemma KVM_PAGES_PER_HPAGE_eq level :
  1 <= level <= 5 -> KVM_PAGES_PER_HPAGE level = 2 ^ (9 * (level - 1)).
Proof.
  intros H.
  assert (level = 1 \/ level = 2 \/ level = 3 \/ level = 4 \/ level = 5)
    as [-> | [-> | [-> | [-> | ->]]]] by lia; reflexivity.
Qed.


Section HandlerFacts.
Context {ops : spte_ops}.

(** The handler, case by case. *)
Lemma handle_changed_spte_rec_eq depth st as_id gfn old_spte new_spte level :
  handle_changed_spte_rec depth st as_id gfn old_spte new_spte level =
  let st1 := handler_enter st gfn old_spte new_spte level in
  if bug_transition old_spte new_spte level then Crash BUG
  else if old_spte =? new_spte then Ok st1
  else if negb (is_shadow_present_pte old_spte)
          && negb (is_shadow_present_pte new_spte)
  then
    if negb (is_mmio_spte old_spte) && negb (is_mmio_spte new_spte)
    then Ok (emit (pr_err W_nonpresent_change)
                  (emit (WARN_ON W_nonpresent_change) st1))
    else Ok st1
  else
    let st2 := handler_dirty st1 old_spte new_spte level in
    if removes_subtree old_spte new_spte level then
      match depth with
      | O => Crash too_deep
      | S depth' =>
          let pt := spte_to_child_pt old_spte level in
          run st3 <- zap_children depth' (list_del (sptep_to_sp pt) st2)
                                  as_id gfn pt level in
          Ok (teardown_tail st3 gfn pt level)
      end
    else Ok st2.
Proof. destruct depth; reflexivity. Qed.

(** Across a call of the handler, every relation that the steps it is
    made of satisfy. *)
Lemma handle_changed_spte_rel (R : kvm -> kvm -> Prop) :
  (forall s, R s s) ->
  (forall s1 s2 s3, R s1 s2 -> R s2 s3 -> R s1 s3) ->
  (forall e s, R s (emit e s)) ->
  (forall p s, R s (WRITE_ONCE s p 0)) ->
  (forall sp s, R s (list_del sp s)) ->
  forall depth st as_id gfn old_spte new_spte level st',
    handle_changed_spte_rec depth st as_id gfn old_spte new_spte level = Ok st' ->
    R st st'.
Proof.
  intros Hrefl Htrans Hemit Hwrite Hdel.
  assert (Hwarn : forall c w s, R s (warn_on c w s)).
  { intros [] w s; simpl; auto. }
  assert (Henter : forall s g o n l, R s (handler_enter s g o n l)).
  { intros. unfold handler_enter.
    repeat (eapply Htrans; [|apply Hwarn]). apply Hemit. }
  assert (Hdirty : forall s o n l, R s (handler_dirty s o n l)).
  { intros. unfold handler_dirty. destruct dirty_harvest; auto. }
  induction depth as [|depth IH]; intros st as_id gfn old new level st';
    rewrite handle_changed_spte_rec_eq; cbv zeta; intros Hrun;
    repeat match type of Hrun with
           | (if ?c then _ else _) = _ => destruct c
           end; try discriminate;
    try (injection Hrun as <-; eauto 6; fail).
  apply bind_Ok in Hrun as (s1 & Hloop & Hend). injection Hend as <-.
  unfold teardown_tail. do 3 (eapply Htrans; [|apply Hemit]).
  eapply Htrans; [eapply Htrans; [apply Henter|]|].
  - eapply Htrans; [apply Hdirty | apply Hdel].
  - eapply (for_each_rel R); [exact Hrefl | exact Htrans | | exact Hloop].
    intros s x s' _ Hb. simpl in Hb.
    eapply Htrans; [apply Hwrite|]. eapply IH. exact Hb.
Qed.

End HandlerFacts.

(** ** The instance satisfies the laws *)

Lemma x86_leaf_at_4K : leaf_at_4K x86_ops.
Proof. intros pte. reflexivity. Qed.

Lemma x86_zero_not_present : zero_not_present x86_ops.
Proof. reflexivity. Qed.

Section MutationEngine.
Context {ops : spte_ops}.

(** *** C1 *)

(** C1. A call of the change handler whose old and new values are both
    present leaves of the level and map different host frames ends in
    BUG(): the handler itself, and so tdp_mmu_set_spte for an entry
    whose old value is such a leaf. *)
Theorem C1_leaf_replaced_by_other_leaf_is_fatal
    (st : kvm) (as_id gfn old_spte new_spte level : Z) :
  is_shadow_present_pte old_spte = true ->
  is_last_spte old_spte level = true ->
  is_shadow_present_pte new_spte = true ->
  is_last_spte new_spte level = true ->
  (spte_to_pfn old_spte =? spte_to_pfn new_spte) = false ->
  handle_changed_spte st as_id gfn old_spte new_spte level = Crash BUG
  /\ forall it, iter_old_spte it = old_spte -> iter_level it = level ->
       tdp_mmu_set_spte st it new_spte = Crash BUG.
Proof.
  intros Hop Hol Hnp Hnl Hpfn.
  assert (Hbug : forall s a g d,
             handle_changed_spte_rec d s a g old_spte new_spte level
             = Crash BUG).
  { intros. rewrite handle_changed_spte_rec_eq. cbv zeta.
    unfold bug_transition, was_leaf, pfn_changed.
    rewrite Hop, Hol, Hnp, Hnl, Hpfn. reflexivity. }
  split; [apply Hbug|].
  intros it <- <-. unfold tdp_mmu_set_spte, handle_changed_spte,
                     __handle_changed_spte. apply Hbug.
Qed.

End MutationEngine.

Lemma C1_witness :
  is_shadow_present_pte (Sample.leaf 5) = true /\
  is_last_spte (Sample.leaf 5) 1 = true /\
  is_shadow_present_pte (Sample.leaf 6) = true /\
  is_last_spte (Sample.leaf 6) 1 = true /\
  (spte_to_pfn (Sample.leaf 5) =? spte_to_pfn (Sample.leaf 6)) = false /\
  handle_changed_spte empty_kvm 0 0 (Sample.leaf 5) (Sample.leaf 6) 1
  = Crash BUG.
Proof.
  repeat (split; [reflexivity|]).
  apply (C1_leaf_replaced_by_other_leaf_is_fatal
           empty_kvm 0 0 (Sample.leaf 5) (Sample.leaf 6) 1);
    reflexivity.
Defined.

(** ** The trace of the handler *)

Lemma events_since_app st st' evs :
  trace st' = trace st ++ evs -> events_since st st' = evs.
Proof. intros H. unfold events_since. rewrite H. apply drop_app_length. Qed.

Lemma count_events_app f l1 l2 :
  count_events f (l1 ++ l2) = (count_events f l1 + count_events f l2)%nat.
Proof. unfold count_events. by rewrite List.filter_app, length_app. Qed.

Lemma for_each_each {A S} (body : S -> A -> outcome S) (Q : A -> S -> Prop) l :
  (forall s x s', body s x = Ok s' -> Q x s') ->
  (forall s y s' x, body s y = Ok s' -> Q x s -> Q x s') ->
  forall s s', for_each body l s = Ok s' -> forall x, In x l -> Q x s'.
Proof.
  intros Hest Hkeep. induction l as [|y l IH]; intros s s' Hrun x Hx.
  - destruct Hx.
  - simpl in Hrun. apply bind_Ok in Hrun as (s1 & H1 & H2).
    destruct Hx as [<- | Hx].
    + assert (Hq : Q y s1) by (eapply Hest; eauto).
      clear IH H1. revert s1 H2 Hq.
      induction l as [|z l IHl]; intros s1 H2 Hq; simpl in H2.
      * by injection H2 as <-.
      * apply bind_Ok in H2 as (s2 & H3 & H4).
        eapply IHl; [exact H4|]. eapply Hkeep; eauto.
    + eapply IH; eauto.
Qed.

Section HandlerTrace.
Context {ops : spte_ops}.

Lemma trace_handler_enter st gfn old_spte new_spte level :
  trace (handler_enter st gfn old_spte new_spte level)
  = trace st ++ spte_changed gfn old_spte new_spte level
                :: entry_warnings gfn level.
Proof.
  unfold handler_enter, entry_warnings.
  rewrite !trace_warn_on. simpl. rewrite <- !app_assoc. reflexivity.
Qed.

Lemma READ_ONCE_handler_enter st gfn old_spte new_spte level p :
  READ_ONCE (handler_enter st gfn old_spte new_spte level) p = READ_ONCE st p.
Proof. unfold handler_enter. by rewrite !READ_ONCE_warn_on. Qed.

(** The trace only grows. *)
Lemma handle_changed_spte_extends depth st as_id gfn old_spte new_spte level st' :
  handle_changed_spte_rec depth st as_id gfn old_spte new_spte level = Ok st' ->
  exists evs, trace st' = trace st ++ evs.
Proof.
  apply (handle_changed_spte_rel
           (fun s s' => exists evs, trace s' = trace s ++ evs)).
  - intros s. exists []. by rewrite app_nil_r.
  - intros s1 s2 s3 [e1 H1] [e2 H2]. exists (e1 ++ e2).
    by rewrite H2, H1, app_assoc.
  - intros e s. by exists [e].
  - intros p s. exists []. by rewrite app_nil_r.
  - intros sp s. exists []. by rewrite app_nil_r.
Qed.

(** The handler writes nothing but zeros. *)
Lemma handle_changed_spte_writes_zero depth st as_id gfn old_spte new_spte level st' :
  handle_changed_spte_rec depth st as_id gfn old_spte new_spte level = Ok st' ->
  forall p, READ_ONCE st' p = READ_ONCE st p \/ READ_ONCE st' p = 0.
Proof.
  apply (handle_changed_spte_rel
           (fun s s' => forall p, READ_ONCE s' p = READ_ONCE s p
                                  \/ READ_ONCE s' p = 0)).
  - intros s p. by left.
  - intros s1 s2 s3 H1 H2 p.
    destruct (H2 p) as [->|]; [apply H1 | by right].
  - intros e s p. by left.
  - intros q s p. destruct (decide (q = p)) as [->|Hne].
    + right. apply READ_ONCE_WRITE_ONCE.
    + left. by apply READ_ONCE_WRITE_ONCE_ne.
  - intros sp s p. by left.
Qed.

(** Frees and removals balance in the trace of one call. *)
Lemma handle_changed_spte_balanced depth :
  forall st as_id gfn old_spte new_spte level st',
  handle_changed_spte_rec depth st as_id gfn old_spte new_spte level = Ok st' ->
  exists evs, trace st' = trace st ++ evs
              /\ count_events is_free_page evs = count_events is_removal evs.
Proof.
  induction depth as [|depth IH]; intros st as_id gfn old new level st';
    rewrite handle_changed_spte_rec_eq; cbv zeta;
    destruct (bug_transition old new level); try discriminate;
    (destruct (old =? new) eqn:Heq;
     [ intros [= <-]; rewrite trace_handler_enter; eexists; split;
       [reflexivity|];
       apply Z.eqb_eq in Heq as ->;
       change (?a :: ?l) with ([a] ++ l); rewrite !count_events_app;
       unfold entry_warnings;
       repeat match goal with |- context [if ?c then _ else _] =>
                                destruct c end;
       cbn -[removes_subtree];
       unfold removes_subtree, pfn_changed; rewrite Z.eqb_refl;
       destruct (is_shadow_present_pte new); simpl;
       rewrite ?andb_false_r; reflexivity |]).
  all: destruct (negb (is_shadow_present_pte old)
                 && negb (is_shadow_present_pte new)) eqn:Hnp.
  all: try (apply andb_prop in Hnp as [Ho Hn];
            apply negb_true_iff in Ho;
            assert (Hrm : removes_subtree old new level = false)
              by (unfold removes_subtree; rewrite Ho; reflexivity);
            destruct (negb (is_mmio_spte old) && negb (is_mmio_spte new));
            intros [= <-]; simpl; rewrite trace_handler_enter;
            rewrite <- ?app_assoc; eexists; (split; [reflexivity|]);
            change (?a :: ?l) with ([a] ++ l); rewrite !count_events_app;
            unfold entry_warnings;
            repeat match goal with |- context [if ?c then _ else _] =>
                                     destruct c end;
            cbn -[removes_subtree]; rewrite Hrm; reflexivity).
  all: destruct (removes_subtree old new level) eqn:Hrm.
  all: try discriminate.
  all: try (intros [= <-]; unfold handler_dirty;
            destruct (dirty_harvest old new level); simpl;
            rewrite trace_handler_enter;
            rewrite <- ?app_assoc; eexists; (split; [reflexivity|]);
            change (?a :: ?l) with ([a] ++ l); rewrite !count_events_app;
            unfold entry_warnings;
            repeat match goal with |- context [if ?c then _ else _] =>
                                     destruct c end;
            cbn -[removes_subtree]; rewrite Hrm; reflexivity).
  intros Hrun. apply bind_Ok in Hrun as (s3 & Hloop & [= <-]).
  assert (Hd : dirty_harvest old new level = false).
  { unfold removes_subtree in Hrm. unfold dirty_harvest.
    destruct (was_leaf old level); [|reflexivity].
    by rewrite andb_false_r in Hrm. }
  unfold handler_dirty in Hloop. rewrite Hd in Hloop.
  apply (for_each_rel
           (fun s s' => exists evs, trace s' = trace s ++ evs
              /\ count_events is_free_page evs = count_events is_removal evs))
    in Hloop.
  - destruct Hloop as (evs & Htr & Hbal). simpl in Htr.
    rewrite trace_handler_enter in Htr. simpl. rewrite Htr.
    rewrite <- !app_assoc. eexists; split; [reflexivity|].
    change (?a :: ?l) with ([a] ++ l). rewrite !count_events_app.
    rewrite Hbal. unfold entry_warnings.
    repeat match goal with |- context [if ?c then _ else _] =>
                             destruct c end;
      cbn -[removes_subtree]; rewrite Hrm; simpl; lia.
  - intros s. exists []. by rewrite app_nil_r.
  - intros s1 s2 s3' (e1 & H1 & B1) (e2 & H2 & B2). exists (e1 ++ e2).
    rewrite H2, H1, app_assoc, !count_events_app. split; [reflexivity|lia].
  - intros s x s' _ Hb. apply IH in Hb. exact Hb.
Qed.

End HandlerTrace.

Lemma for_each_total {A S} (body : S -> A -> outcome S) l :
  (forall s x, In x l -> exists s', body s x = Ok s') ->
  forall s, exists s', for_each body l s = Ok s'.
Proof.
  induction l as [|x l IH]; intros Hbody s; simpl; [eauto|].
  destruct (Hbody s x) as [s1 ->]; [by left|]. simpl.
  apply IH. intros; apply Hbody; by right.
Qed.

Section HandlerTotal.
Context {ops : spte_ops}.
Hypothesis Hleaf : leaf_at_4K ops.
Hypothesis Hzero : zero_not_present ops.

Lemma removes_subtree_level_1 old_spte new_spte :
  removes_subtree old_spte new_spte 1 = false.
Proof.
  unfold removes_subtree, was_leaf.
  pose proof (Hleaf old_spte) as H. unfold PG_LEVEL_4K in H.
  rewrite H, andb_true_r.
  by destruct (is_shadow_present_pte old_spte).
Qed.

Lemma bug_transition_zero old_spte level :
  bug_transition old_spte 0 level = false.
Proof.
  unfold bug_transition, was_leaf. rewrite Hzero. simpl.
  by rewrite andb_false_r.
Qed.

(** With levels counted down to 1, where every entry is a leaf, a
    recursion bound of the level is never used up; the only way of not
    returning is BUG(). *)
Lemma handle_changed_spte_rec_total depth :
  forall level, 1 <= level -> (Z.to_nat level <= S depth)%nat ->
  forall st as_id gfn old_spte new_spte,
    bug_transition old_spte new_spte level = false ->
    exists st',
      handle_changed_spte_rec depth st as_id gfn old_spte new_spte level
      = Ok st'.
Proof.
  induction depth as [|depth IH]; intros level Hl Hd st as_id gfn old new Hbug;
    rewrite handle_changed_spte_rec_eq; cbv zeta; rewrite Hbug;
    repeat match goal with
           | |- exists _, (if ?c then _ else _) = _ => destruct c eqn:?
           end; eauto.
  - assert (level = 1) as -> by lia.
    by rewrite removes_subtree_level_1 in *.
  - assert (level <> 1).
    { intros ->. by rewrite removes_subtree_level_1 in *. }
    match goal with
    | |- exists _, bind ?m _ = _ => assert (exists s, m = Ok s) as [s ->]
    end; [|simpl; eauto].
    apply for_each_total. intros s x _.
    apply IH; [lia|lia|apply bug_transition_zero].
Qed.

Lemma handle_changed_spte_total st as_id gfn old_spte new_spte level :
  1 <= level ->
  bug_transition old_spte new_spte level = false ->
  exists st', handle_changed_spte st as_id gfn old_spte new_spte level = Ok st'.
Proof.
  intros Hl Hbug. unfold handle_changed_spte, __handle_changed_spte.
  apply handle_changed_spte_rec_total; auto; unfold depth_of_level; lia.
Qed.

End HandlerTotal.

Section Teardown.
Context {ops : spte_ops}.

(** The ghost entry of a call is the first thing it records. *)
Lemma handle_changed_spte_head depth st as_id gfn old_spte new_spte level st' :
  handle_changed_spte_rec depth st as_id gfn old_spte new_spte level = Ok st' ->
  exists evs,
    trace st' = trace st ++ spte_changed gfn old_spte new_spte level :: evs.
Proof.
  assert (Hext : forall s' : kvm, (exists e, trace s' = trace
            (handler_enter st gfn old_spte new_spte level) ++ e) ->
            exists evs, trace s'
              = trace st ++ spte_changed gfn old_spte new_spte level :: evs).
  { intros s' [e He]. rewrite He, trace_handler_enter, <- app_assoc.
    simpl. eauto. }
  rewrite handle_changed_spte_rec_eq; cbv zeta. intros Hrun.
  repeat match type of Hrun with
         | (if ?c then _ else _) = _ => destruct c
         | match ?d with O => _ | S _ => _ end = _ => destruct d
         end; try discriminate.
  all: try (injection Hrun as <-; apply Hext; unfold handler_dirty;
            try destruct (dirty_harvest old_spte new_spte level); simpl;
            eexists; rewrite <- ?app_assoc; try reflexivity;
            by rewrite app_nil_r).
  apply bind_Ok in Hrun as (s3 & Hloop & [= <-]). apply Hext.
  apply (for_each_rel (fun s s' => exists e, trace s' = trace s ++ e))
    in Hloop.
  - destruct Hloop as [e He]. simpl. rewrite He. unfold handler_dirty.
    destruct (dirty_harvest old_spte new_spte level); simpl;
      rewrite <- !app_assoc; eauto.
  - intros s. exists []. by rewrite app_nil_r.
  - intros s1 s2 s3' [e1 H1] [e2 H2]. exists (e1 ++ e2).
    by rewrite H2, H1, app_assoc.
  - intros s x s' _ Hb. apply handle_changed_spte_extends in Hb. exact Hb.
Qed.

(** The loop over the child table enters the handler once for each
    entry, one level down, towards the zero entry. *)
Lemma zap_children_events depth as_id gfn pt level l :
  forall s s',
    for_each
      (fun st i =>
         handle_changed_spte_rec depth (WRITE_ONCE st (pt + i) 0) as_id
           (wrap64 (gfn + i * KVM_PAGES_PER_HPAGE (level - 1)))
           (READ_ONCE st (pt + i)) 0 (level - 1)) l s = Ok s' ->
    exists evs, trace s' = trace s ++ evs /\
      forall i, In i l -> exists v,
        In (spte_changed (wrap64 (gfn + i * KVM_PAGES_PER_HPAGE (level - 1)))
                         v 0 (level - 1)) evs.
Proof.
  induction l as [|x l IH]; intros s s' Hrun; simpl in Hrun.
  - injection Hrun as <-. exists []. rewrite app_nil_r. split; [done|].
    intros i [].
  - apply bind_Ok in Hrun as (s1 & H1 & H2).
    apply handle_changed_spte_head in H1 as [e1 He1]. simpl in He1.
    apply IH in H2 as (e2 & He2 & Hin).
    exists ((spte_changed (wrap64 (gfn + x * KVM_PAGES_PER_HPAGE (level - 1)))
               (READ_ONCE s (pt + x)) 0 (level - 1) :: e1) ++ e2).
    split; [by rewrite He2, He1, <- app_assoc|].
    intros i [<- | Hi].
    + eexists. apply in_or_app. left. left. reflexivity.
    + destruct (Hin i Hi) as [v Hv]. exists v. apply in_or_app. by right.
Qed.

(** After the loop every entry of the child table reads zero. *)
Lemma zap_children_zero depth as_id gfn pt level l :
  forall s s',
    for_each
      (fun st i =>
         handle_changed_spte_rec depth (WRITE_ONCE st (pt + i) 0) as_id
           (wrap64 (gfn + i * KVM_PAGES_PER_HPAGE (level - 1)))
           (READ_ONCE st (pt + i)) 0 (level - 1)) l s = Ok s' ->
    forall i, In i l -> READ_ONCE s' (pt + i) = 0.
Proof.
  intros s s' Hrun.
  eapply (for_each_each _ (fun i s => READ_ONCE s (pt + i) = 0)); [| |exact Hrun].
  - intros s0 x s1 Hb.
    destruct (handle_changed_spte_writes_zero _ _ _ _ _ _ _ _ Hb (pt + x))
      as [-> | ->]; [apply READ_ONCE_WRITE_ONCE | reflexivity].
  - intros s0 y s1 x Hb Hq.
    destruct (handle_changed_spte_writes_zero _ _ _ _ _ _ _ _ Hb (pt + x))
      as [-> | ->]; [|reflexivity].
    destruct (decide (pt + y = pt + x)) as [-> | Hne].
    + apply READ_ONCE_WRITE_ONCE.
    + by rewrite READ_ONCE_WRITE_ONCE_ne.
Qed.

Lemma removes_subtree_facts old_spte new_spte level :
  removes_subtree old_spte new_spte level = true ->
  bug_transition old_spte new_spte level = false
  /\ (old_spte =? new_spte) = false
  /\ is_shadow_present_pte old_spte = true
  /\ dirty_harvest old_spte new_spte level = false.
Proof.
  unfold removes_subtree, bug_transition, dirty_harvest, pfn_changed.
  intros H. apply andb_prop in H as [H Hc]. apply andb_prop in H as [Hp Hl].
  apply negb_true_iff in Hl. rewrite Hl, Hp. simpl. repeat split.
  destruct (old_spte =? new_spte) eqn:Heq; [|reflexivity].
  apply Z.eqb_eq in Heq as <-. rewrite Z.eqb_refl, Hp in Hc. discriminate.
Qed.

(** Frees and removals balance across any sequence of set_entry calls. *)
Lemma set_entries_balanced calls :
  forall st st', set_entries st calls = Ok st' ->
  count_events is_free_page (events_since st st')
  = count_events is_removal (events_since st st').
Proof.
  intros st st' Hrun.
  apply (for_each_rel
           (fun s s' => exists evs, trace s' = trace s ++ evs
              /\ count_events is_free_page evs = count_events is_removal evs))
    in Hrun.
  - destruct Hrun as (evs & Htr & Hbal).
    by rewrite (events_since_app _ _ _ Htr).
  - intros s. exists []. by rewrite app_nil_r.
  - intros s1 s2 s3 (e1 & H1 & B1) (e2 & H2 & B2). exists (e1 ++ e2).
    rewrite H2, H1, app_assoc, !count_events_app. split; [reflexivity|lia].
  - intros s c s' _ Hb.
    apply handle_changed_spte_balanced in Hb. exact Hb.
Qed.

(** The teardown of a child table, in the order of the calls. *)
Lemma handle_changed_spte_teardown :
  leaf_at_4K ops -> zero_not_present ops ->
  forall st as_id gfn old_spte new_spte level,
    1 <= level ->
    is_shadow_present_pte old_spte = true ->
    is_last_spte old_spte level = false ->
    (negb (spte_to_pfn old_spte =? spte_to_pfn new_spte)
     || negb (is_shadow_present_pte new_spte)) = true ->
    let pt := spte_to_child_pt old_spte level in
    exists st' child_events,
      handle_changed_spte st as_id gfn old_spte new_spte level = Ok st'
      /\ events_since st st'
         = spte_changed gfn old_spte new_spte level
           :: entry_warnings gfn level ++ child_events
           ++ [kvm_flush_remote_tlbs_with_address gfn
                 (KVM_PAGES_PER_HPAGE level);
               free_page pt; kmem_cache_free (sptep_to_sp pt)]
      /\ (forall i, 0 <= i < PT64_ENT_PER_PAGE -> exists v,
            In (spte_changed
                  (wrap64 (gfn + i * KVM_PAGES_PER_HPAGE (level - 1)))
                  v 0 (level - 1)) child_events)
      /\ (forall i, 0 <= i < PT64_ENT_PER_PAGE ->
            READ_ONCE st' (pt + i) = 0).
Proof.
  intros Hleaf Hzero st as_id gfn old new level Hl Hp Hnl Hc pt.
  assert (Hrm : removes_subtree old new level = true).
  { unfold removes_subtree, was_leaf, pfn_changed. by rewrite Hp, Hnl, Hc. }
  destruct (removes_subtree_facts _ _ _ Hrm) as (Hbug & Hne & _ & Hd).
  destruct (handle_changed_spte_total Hleaf Hzero st as_id gfn old new level
              Hl Hbug) as [st' Hrun].
  exists st'. unfold handle_changed_spte, __handle_changed_spte in *.
  pose proof Hrun as Hrun'. rewrite handle_changed_spte_rec_eq in Hrun'.
  cbv zeta in Hrun'. rewrite Hbug, Hne, Hp, Hrm in Hrun'. simpl in Hrun'.
  destruct (depth_of_level level) as [|d]; [discriminate|].
  apply bind_Ok in Hrun' as (s3 & Hloop & [= <-]).
  unfold handler_dirty in Hloop. rewrite Hd in Hloop.
  unfold zap_children in Hloop.
  pose proof (zap_children_zero _ _ _ _ _ _ _ _ Hloop) as Hz.
  apply zap_children_events in Hloop as (evs & Htr & Hin).
  exists evs. split; [exact Hrun|]. split; [|split].
  - apply events_since_app. simpl. rewrite Htr. simpl.
    rewrite trace_handler_enter, <- !app_assoc. reflexivity.
  - intros i Hi. apply Hin. by apply upto_spec.
  - intros i Hi. simpl. apply Hz. by apply upto_spec.
Qed.

(** *** C3 *)


End Teardown.



Section DirtyHarvest.
Context {ops : spte_ops}.

Lemma In_entry_warnings gfn level e :
  In e (entry_warnings gfn level) -> exists w, e = WARN_ON w.
Proof.
  unfold entry_warnings.
  repeat match goal with |- context [if ?c then _ else _] => destruct c end;
    simpl; intros H; repeat (destruct H as [<- | H]; eauto); destruct H.
Qed.

(** The calls of a handler whose old value has no child table. *)
Lemma handle_changed_spte_flat depth st as_id gfn old_spte new_spte level st' :
  is_shadow_present_pte old_spte && negb (is_last_spte old_spte level) = false ->
  handle_changed_spte_rec depth st as_id gfn old_spte new_spte level = Ok st' ->
  mem st' = mem st /\
  exists rest,
    events_since st st'
    = spte_changed gfn old_spte new_spte level :: entry_warnings gfn level
      ++ rest
    /\ (rest = [kvm_set_pfn_dirty (spte_to_pfn old_spte)]
          /\ dirty_harvest old_spte new_spte level = true
        \/ side_effects rest = []
          /\ (dirty_harvest old_spte new_spte level = false
              \/ old_spte = new_spte)).
Proof.
  intros Hflat. rewrite handle_changed_spte_rec_eq; cbv zeta.
  assert (Hrm : removes_subtree old_spte new_spte level = false).
  { unfold removes_subtree, was_leaf.
    destruct (is_shadow_present_pte old_spte); [|reflexivity].
    simpl in *. apply negb_false_iff in Hflat. by rewrite Hflat. }
  rewrite Hrm. intros Hrun.
  assert (Hmem : forall s g o n l, mem (handler_enter s g o n l) = mem s).
  { intros. unfold handler_enter, warn_on.
    repeat match goal with |- context [if ?c then _ else _] => destruct c end;
      reflexivity. }
  destruct (bug_transition old_spte new_spte level); [discriminate|].
  destruct (old_spte =? new_spte) eqn:Heq.
  { injection Hrun as <-. split; [apply Hmem|]. exists []. split.
    - apply events_since_app. by rewrite trace_handler_enter, app_nil_r.
    - right. split; [reflexivity|]. right. by apply Z.eqb_eq. }
  destruct (negb (is_shadow_present_pte old_spte)
            && negb (is_shadow_present_pte new_spte)) eqn:Hnp.
  { apply andb_prop in Hnp as [Ho _]. apply negb_true_iff in Ho.
    assert (Hd : dirty_harvest old_spte new_spte level = false).
    { unfold dirty_harvest, was_leaf. by rewrite Ho. }
    destruct (negb (is_mmio_spte old_spte) && negb (is_mmio_spte new_spte));
      injection Hrun as <-; (split; [apply Hmem|]).
    - exists [WARN_ON W_nonpresent_change; pr_err W_nonpresent_change].
      split; [|right; split; [reflexivity|by left]].
      apply events_since_app. simpl.
      by rewrite trace_handler_enter, <- !app_assoc.
    - exists []. split; [|right; split; [reflexivity|by left]].
      apply events_since_app. by rewrite trace_handler_enter, app_nil_r. }
  injection Hrun as <-. unfold handler_dirty.
  destruct (dirty_harvest old_spte new_spte level) eqn:Hd;
    (split; [apply Hmem|]).
  - exists [kvm_set_pfn_dirty (spte_to_pfn old_spte)]. split; [|by left].
    apply events_since_app. simpl.
    by rewrite trace_handler_enter, <- !app_assoc.
  - exists []. split; [|right; split; [reflexivity|by left]].
    apply events_since_app. by rewrite trace_handler_enter, app_nil_r.
Qed.

Lemma dirty_harvest_same old_spte level :
  dirty_harvest old_spte old_spte level = false.
Proof.
  unfold dirty_harvest, pfn_changed. rewrite Z.eqb_refl. simpl.
  destruct (is_dirty_spte old_spte); simpl;
    by rewrite ?andb_false_r.
Qed.

(** *** C6 *)


End DirtyHarvest.



Section CallSite.
Context {ops : spte_ops}.

Lemma same_run_trans st1 st2 s1 s2 o1 o2 e :
  mem s1 = mem s2 ->
  trace s1 = trace st1 ++ e -> trace s2 = trace st2 ++ e ->
  same_run s1 s2 o1 o2 -> same_run st1 st2 o1 o2.
Proof.
  intros Hm H1 H2. unfold same_run.
  destruct o1 as [a|c1], o2 as [b|c2]; auto.
  intros (Hmem & evs & Ha & Hb). split; [exact Hmem|].
  exists (e ++ evs). by rewrite Ha, Hb, H1, H2, !app_assoc.
Qed.

Lemma for_each_lockstep {A} (body1 body2 : kvm -> A -> outcome kvm) l :
  (forall s1 s2 x, mem s1 = mem s2 ->
                   same_run s1 s2 (body1 s1 x) (body2 s2 x)) ->
  forall s1 s2, mem s1 = mem s2 ->
    same_run s1 s2 (for_each body1 l s1) (for_each body2 l s2).
Proof.
  intros Hbody. induction l as [|x l IH]; intros s1 s2 Hm; simpl.
  - split; [exact Hm|]. exists []. by rewrite !app_nil_r.
  - specialize (Hbody s1 s2 x Hm).
    destruct (body1 s1 x) as [a|c1], (body2 s2 x) as [b|c2]; simpl in *;
      try contradiction; [|exact Hbody].
    destruct Hbody as (Hm' & e & Ha & Hb).
    eapply same_run_trans; [exact Hm' | exact Ha | exact Hb|].
    by apply IH.
Qed.

Lemma mem_handler_enter s g o n l : mem (handler_enter s g o n l) = mem s.
Proof.
  unfold handler_enter, warn_on.
  repeat match goal with |- context [if ?c then _ else _] => destruct c end;
    reflexivity.
Qed.

Ltac same_run_flat Hm :=
  split;
  [ cbn [mem emit]; rewrite !mem_handler_enter; exact Hm
  | eexists; split; cbn [trace emit];
    rewrite trace_handler_enter, <- ?app_assoc; reflexivity ].

Lemma READ_ONCE_mem s1 s2 p : mem s1 = mem s2 -> READ_ONCE s1 p = READ_ONCE s2 p.
Proof. unfold READ_ONCE. by intros ->. Qed.

(** The handler reads nothing of the state but its memory, and nothing
    of its arguments but the guest frame, the two values and the level. *)
Lemma handle_changed_spte_rec_mem_only depth :
  forall st1 st2 as1 as2 gfn old_spte new_spte level,
    mem st1 = mem st2 ->
    same_run st1 st2
      (handle_changed_spte_rec depth st1 as1 gfn old_spte new_spte level)
      (handle_changed_spte_rec depth st2 as2 gfn old_spte new_spte level).
Proof.
  induction depth as [|depth IH];
    intros st1 st2 as1 as2 gfn old new level Hm;
    rewrite !handle_changed_spte_rec_eq; cbv zeta;
    (destruct (bug_transition old new level); [reflexivity|]);
    (destruct (old =? new); [same_run_flat Hm|]);
    (destruct (negb (is_shadow_present_pte old)
               && negb (is_shadow_present_pte new));
     [destruct (negb (is_mmio_spte old) && negb (is_mmio_spte new));
      same_run_flat Hm|]);
    unfold handler_dirty;
    (destruct (removes_subtree old new level) eqn:Hrm;
     [|destruct (dirty_harvest old new level); same_run_flat Hm]);
    [reflexivity|].
  destruct (removes_subtree_facts _ _ _ Hrm) as (_ & _ & _ & Hd).
  rewrite Hd.
  set (pt := spte_to_child_pt old level).
  set (e0 := spte_changed gfn old new level :: entry_warnings gfn level).
  set (s1 := list_del (sptep_to_sp pt) (handler_enter st1 gfn old new level)).
  set (s2 := list_del (sptep_to_sp pt) (handler_enter st2 gfn old new level)).
  assert (Hm12 : mem s1 = mem s2).
  { subst s1 s2. simpl. by rewrite !mem_handler_enter. }
  assert (Ht1 : trace s1 = trace st1 ++ e0).
  { subst s1 e0. simpl. by rewrite trace_handler_enter. }
  assert (Ht2 : trace s2 = trace st2 ++ e0).
  { subst s2 e0. simpl. by rewrite trace_handler_enter. }
  pose proof (for_each_lockstep
    (fun st i =>
       handle_changed_spte_rec depth (WRITE_ONCE st (pt + i) 0) as1
         (wrap64 (gfn + i * KVM_PAGES_PER_HPAGE (level - 1)))
         (READ_ONCE st (pt + i)) 0 (level - 1))
    (fun st i =>
       handle_changed_spte_rec depth (WRITE_ONCE st (pt + i) 0) as2
         (wrap64 (gfn + i * KVM_PAGES_PER_HPAGE (level - 1)))
         (READ_ONCE st (pt + i)) 0 (level - 1))
    (upto PT64_ENT_PER_PAGE)) as Hloop.
  eapply same_run_trans; [exact Hm12 | exact Ht1 | exact Ht2 |].
  unfold zap_children.
  match goal with
  | |- same_run _ _ (bind ?m1 _) (bind ?m2 _) =>
      assert (Hr : same_run s1 s2 m1 m2)
  end.
  { apply Hloop; [|exact Hm12]. intros a b x Hab.
    rewrite (READ_ONCE_mem a b _ Hab).
    assert (Hw : mem (WRITE_ONCE a (pt + x) 0) = mem (WRITE_ONCE b (pt + x) 0))
      by (simpl; by rewrite Hab).
    exact (IH (WRITE_ONCE a (pt + x) 0) (WRITE_ONCE b (pt + x) 0)
              as1 as2 _ _ _ _ Hw). }
  match type of Hr with
  | same_run _ _ ?m1 ?m2 => destruct m1 as [a|c1], m2 as [b|c2]
  end; simpl in *; try contradiction; [|exact Hr].
  destruct Hr as (Hmab & evs & Ha & Hb). split; [exact Hmab|].
  eexists. rewrite Ha, Hb, <- !app_assoc. split; reflexivity.
Qed.

Lemma handler_effects_mem_only st1 st2 as1 as2 gfn old_spte new_spte level :
  mem st1 = mem st2 ->
  handler_effects st1 as1 gfn old_spte new_spte level
  = handler_effects st2 as2 gfn old_spte new_spte level.
Proof.
  intros Hm. unfold handler_effects, handle_changed_spte, __handle_changed_spte.
  pose proof (handle_changed_spte_rec_mem_only (depth_of_level level)
                st1 st2 as1 as2 gfn old_spte new_spte level Hm) as H.
  destruct (handle_changed_spte_rec _ st1 _ _ _ _ _) as [a|c1],
           (handle_changed_spte_rec _ st2 _ _ _ _ _) as [b|c2];
    simpl in *; try contradiction; [|congruence].
  destruct H as (_ & evs & Ha & Hb).
  by rewrite (events_since_app _ _ _ Ha), (events_since_app _ _ _ Hb).
Qed.

Lemma side_effects_head gfn old_spte new_spte level rest :
  side_effects (spte_changed gfn old_spte new_spte level
                :: entry_warnings gfn level ++ rest)
  = side_effects rest.
Proof.
  unfold side_effects. simpl. rewrite List.filter_app.
  replace (List.filter is_side_effect (entry_warnings gfn level))
    with (@nil event); [reflexivity|].
  unfold entry_warnings.
  repeat match goal with |- context [if ?c then _ else _] => destruct c end;
    reflexivity.
Qed.

(** Without a child table the notifications, flushes and frees are
    decided by the two values and the level. *)
Lemma handler_side_effects_flat st1 st2 as1 as2 gfn1 gfn2 old_spte new_spte level :
  is_shadow_present_pte old_spte && negb (is_last_spte old_spte level) = false ->
  handler_side_effects st1 as1 gfn1 old_spte new_spte level
  = handler_side_effects st2 as2 gfn2 old_spte new_spte level.
Proof.
  intros Hflat.
  assert (Hone : forall st a g,
             handler_side_effects st a g old_spte new_spte level
             = if bug_transition old_spte new_spte level then Crash BUG
               else Ok (if negb (old_spte =? new_spte)
                           && dirty_harvest old_spte new_spte level
                        then [kvm_set_pfn_dirty (spte_to_pfn old_spte)]
                        else [])).
  { intros st a g.
    unfold handler_side_effects, handler_effects, handle_changed_spte,
      __handle_changed_spte.
    destruct (handle_changed_spte_rec (depth_of_level level) st a g
                old_spte new_spte level) as [s'|c] eqn:Hrun.
    - destruct (handle_changed_spte_flat _ _ _ _ _ _ _ _ Hflat Hrun)
        as (_ & rest & Hev & Hrest).
      rewrite handle_changed_spte_rec_eq in Hrun; cbv zeta in Hrun.
      destruct (bug_transition old_spte new_spte level); [discriminate|].
      simpl. rewrite Hev, side_effects_head. f_equal.
      destruct Hrest as [[-> Hd] | [-> [Hd | ->]]].
      + rewrite Hd.
        destruct (old_spte =? new_spte) eqn:Heq; [|reflexivity].
        apply Z.eqb_eq in Heq as <-.
        by rewrite dirty_harvest_same in Hd.
      + by rewrite Hd, andb_false_r.
      + by rewrite Z.eqb_refl.
    - rewrite handle_changed_spte_rec_eq in Hrun; cbv zeta in Hrun.
      assert (Hrm : removes_subtree old_spte new_spte level = false).
      { unfold removes_subtree, was_leaf.
        destruct (is_shadow_present_pte old_spte); [|reflexivity].
        simpl in *. apply negb_false_iff in Hflat. by rewrite Hflat. }
      rewrite Hrm in Hrun.
      repeat match type of Hrun with
             | (if ?c then _ else _) = _ => destruct c
             end; try discriminate. by injection Hrun as <-. }
  by rewrite !Hone.
Qed.

(** *** C8 *)

(** C8, as amended. What a call of the handler does is decided by the
    old value, the new value, the level, the guest frame and the
    memory the tables lie in, and by nothing else of the state or the
    call: two calls with the same five go the same way and record the
    same calls. When the old value has no child table, the
    notifications, flush requests and frees are decided by the old
    value, the new value and the level alone. *)
Theorem C8_effects_decided_by_change_frame_and_memory :
  (forall st1 st2 as1 as2 gfn old_spte new_spte level,
      mem st1 = mem st2 ->
      handler_effects st1 as1 gfn old_spte new_spte level
      = handler_effects st2 as2 gfn old_spte new_spte level)
  /\ (forall st1 st2 as1 as2 gfn1 gfn2 old_spte new_spte level,
        is_shadow_present_pte old_spte && negb (is_last_spte old_spte level)
        = false ->
        handler_side_effects st1 as1 gfn1 old_spte new_spte level
        = handler_side_effects st2 as2 gfn2 old_spte new_spte level).
Proof.
  split.
  - intros; by apply handler_effects_mem_only.
  - intros; by apply handler_side_effects_flat.
Qed.

End CallSite.

Lemma C8_witness :
  handler_effects one_leaf_table 0 0 (Sample.table 5) 0 2
  = handler_effects (emit kvm_flush_remote_tlbs one_leaf_table) 1 0
                    (Sample.table 5) 0 2
  /\ handler_side_effects empty_kvm 0 5 (Sample.leaf 5) 0 1
     = handler_side_effects one_leaf_table 1 9 (Sample.leaf 5) 0 1.
Proof.
  destruct (C8_effects_decided_by_change_frame_and_memory (ops := x86_ops))
    as [H1 H2].
  split.
  - apply H1. reflexivity.
  - apply H2. reflexivity.
Defined.

(** C8 as the spec words it fails: the same old value, new value and
    level, and even the same guest frame, with two contents of the
    child table: one run forwards a dirty notification for frame 7,
    the other does not. And with one memory and two guest frames, the
    flushes asked for differ. *)
Lemma C8_counterexample :
  handler_side_effects one_leaf_table 0 0 (Sample.table 5) 0 2
  <> handler_side_effects empty_kvm 0 0 (Sample.table 5) 0 2
  /\ handler_side_effects empty_kvm 0 0 (Sample.table 5) 0 2
     <> handler_side_effects empty_kvm 0 512 (Sample.table 5) 0 2.
Proof. split; vm_compute; discriminate. Qed.

(** ** Relations kept by every function of the file *)

Create HintDb stable.

Section Stable.
Context {ops : spte_ops}.
Variable R : kvm -> kvm -> Prop.
Hypothesis HR : stable R.

Lemma stable_id s : R s s.
Proof. apply (stable_refl R HR). Qed.
Lemma stable_emit_step e s : R s (emit e s).
Proof. apply (stable_emit R HR). Qed.
Lemma stable_write_step p v s : R s (WRITE_ONCE s p v).
Proof. apply (stable_write R HR). Qed.
Lemma stable_list_del_step sp s : R s (list_del sp s).
Proof. apply (stable_list_del R HR). Qed.
Lemma stable_set_pages_step l s : R s (set_pages l s).
Proof. apply (stable_set_pages R HR). Qed.
Lemma stable_pf_fixed_step s : R s (bump_pf_fixed s).
Proof. apply (stable_pf_fixed R HR). Qed.

Local Hint Resolve stable_id stable_emit_step stable_write_step
  stable_list_del_step stable_set_pages_step stable_pf_fixed_step : stable.

Lemma stable_step s1 s2 s3 : R s1 s2 -> R s2 s3 -> R s1 s3.
Proof. apply (stable_trans R HR). Qed.

Lemma stable_warn_on c w s : R s (warn_on c w s).
Proof. destruct c; simpl; auto with stable. Qed.

Lemma stable_handler depth st as_id gfn old_spte new_spte level st' :
  handle_changed_spte_rec depth st as_id gfn old_spte new_spte level = Ok st' ->
  R st st'.
Proof.
  apply handle_changed_spte_rel; auto with stable. apply stable_step.
Qed.

Lemma stable_set_spte st it new_spte st' :
  tdp_mmu_set_spte st it new_spte = Ok st' -> R st st'.
Proof.
  unfold tdp_mmu_set_spte, handle_changed_spte, __handle_changed_spte.
  intros H. apply stable_handler in H.
  eapply stable_step; [|exact H]. auto with stable.
Qed.

Lemma stable_flush_cond_resched st it st' it' b :
  tdp_mmu_iter_flush_cond_resched st it = (st', it', b) -> R st st'.
Proof.
  unfold tdp_mmu_iter_flush_cond_resched.
  pose proof (stable_resched R HR st) as Hr.
  destruct (need_resched st) as [c s1]. simpl in Hr.
  destruct c; intros [= <- <- <-]; [|exact Hr].
  eapply stable_step; [exact Hr|].
  eapply stable_step; apply stable_emit_step.
Qed.

Lemma stable_zap_step st it start end_ can_yield f st' it' f' :
  zap_step st it start end_ can_yield f = Ok (st', it', f') -> R st st'.
Proof.
  unfold zap_step.
  destruct (negb (is_shadow_present_pte (iter_old_spte it)));
    [intros [= <- <- <-]; auto with stable|].
  match goal with |- (if ?c then _ else _) = _ -> _ => destruct c end;
    [intros [= <- <- <-]; auto with stable|].
  intros H. apply bind_Ok in H as (s1 & Hset & H).
  apply stable_set_spte in Hset.
  destruct can_yield.
  - injection H as H. apply stable_flush_cond_resched in H.
    eapply stable_step; eauto.
  - by injection H as <- <- <-.
Qed.

Lemma stable_zap_loop fuel :
  forall st it start end_ can_yield f st' f',
    zap_loop fuel st it start end_ can_yield f = Ok (st', f') -> R st st'.
Proof.
  induction fuel as [|fuel IH]; intros st it start end_ cy f st' f'; simpl;
    destruct (iter_valid it && (iter_gfn it <? end_)); try discriminate;
    try (intros [= <- <-]; auto with stable; fail).
  intros H. apply bind_Ok in H as ([[s1 it1] f1] & Hstep & Hrest).
  apply stable_zap_step in Hstep. apply IH in Hrest.
  eapply stable_step; eauto.
Qed.

Lemma stable_zap_gfn_range fuel st root start end_ can_yield st' f' :
  zap_gfn_range fuel st root start end_ can_yield = Ok (st', f') -> R st st'.
Proof. apply stable_zap_loop. Qed.

Lemma stable_kvm_tdp_mmu_zap_gfn_range fuel st start end_ st' f' :
  kvm_tdp_mmu_zap_gfn_range fuel st start end_ = Ok (st', f') -> R st st'.
Proof.
  unfold kvm_tdp_mmu_zap_gfn_range. intros H.
  apply (for_each_rel (fun a b : kvm * bool => R (fst a) (fst b))) in H;
    [exact H | intros; auto with stable |
     intros ? ? ?; apply stable_step |].
  intros [s f] root [s1 f1] _ Hb. simpl.
  apply bind_Ok in Hb as ([s2 f2] & Hz & [= <- <-]).
  apply stable_zap_gfn_range in Hz.
  eapply stable_step; [|eapply stable_step; [exact Hz|]];
    apply (stable_update_root R HR); intros r; split; reflexivity.
Qed.

Lemma stable_kvm_tdp_mmu_zap_all fuel st st' :
  kvm_tdp_mmu_zap_all fuel st = Ok st' -> R st st'.
Proof.
  unfold kvm_tdp_mmu_zap_all. intros H.
  apply bind_Ok in H as ([s1 f1] & Hz & [= <-]).
  apply stable_kvm_tdp_mmu_zap_gfn_range in Hz.
  destruct f1; [eapply stable_step; eauto with stable | exact Hz].
Qed.

Lemma stable_kvm_tdp_mmu_free_root fuel st root st' :
  kvm_tdp_mmu_free_root fuel st root = Ok st' -> R st st'.
Proof.
  unfold kvm_tdp_mmu_free_root. intros H.
  apply bind_Ok in H as ([s1 f1] & Hz & [= <-]).
  apply stable_zap_gfn_range in Hz.
  do 2 (eapply stable_step; [|apply (stable_emit R HR)]).
  eapply stable_step; [|exact Hz].
  eapply stable_step; [|apply (stable_list_del R HR)].
  eapply stable_step; apply stable_warn_on.
Qed.

Lemma stable_clear_page pt st : R st (clear_page pt st).
Proof.
  unfold clear_page. generalize (upto PT64_ENT_PER_PAGE). intros l.
  revert st. induction l as [|x l IH]; intros st; simpl; auto with stable.
  eapply stable_step; [|apply IH]. auto with stable.
Qed.

Lemma stable_alloc st vcpu gfn level st' sp :
  alloc_tdp_mmu_page st vcpu gfn level = Ok (st', sp) -> R st st'.
Proof.
  unfold alloc_tdp_mmu_page. intros H.
  apply bind_Ok in H as ([s1 p] & Ha & [= <- <-]).
  by apply (stable_cache R HR) in Ha.
Qed.

Lemma stable_map_step st vcpu it gfn pfn level st' r :
  map_step st vcpu it gfn pfn level = Ok (st', r) -> R st st'.
Proof.
  unfold map_step.
  destruct (if is_nx_huge_page_enabled then _ else _) as [pfn' level'].
  destruct (iter_level it =? level'); [intros [= <- <-]; auto with stable|].
  intros H. apply bind_Ok in H as ([s1 it1] & Hzap & H).
  apply bind_Ok in H as (s2 & Hinst & [= <- <-]).
  assert (R st s1) as H1.
  { destruct (is_shadow_present_pte (iter_old_spte it)
              && is_large_pte (iter_old_spte it)).
    - apply bind_Ok in Hzap as (s0 & Hset & [= <- <-]).
      apply stable_set_spte in Hset.
      eapply stable_step; eauto with stable.
    - injection Hzap as <- <-. auto with stable. }
  eapply stable_step; [exact H1|].
  destruct (negb (is_shadow_present_pte (iter_old_spte it1)));
    [|injection Hinst as <-; auto with stable].
  apply bind_Ok in Hinst as ([s3 sp] & Ha & Hset).
  apply stable_alloc in Ha. apply stable_set_spte in Hset.
  eapply stable_step; [exact Ha|].
  eapply stable_step; [|exact Hset].
  eapply stable_step; [|apply stable_clear_page]. auto with stable.
Qed.

Lemma stable_map_loop fuel :
  forall st vcpu it gfn pfn level st' r,
    map_loop fuel st vcpu it gfn pfn level = Ok (st', r) -> R st st'.
Proof.
  induction fuel as [|fuel IH]; intros st vcpu it gfn pfn level st' r; simpl;
    destruct (iter_valid it && (iter_gfn it <? wrap64 (gfn + 1)));
    try discriminate; try (intros [= <- <-]; auto with stable; fail).
  intros H. apply bind_Ok in H as ([s1 r1] & Hstep & Hrest).
  apply stable_map_step in Hstep.
  destruct (round_break r1).
  - by injection Hrest as <- <-.
  - apply IH in Hrest. eapply stable_step; eauto.
Qed.

Lemma stable_target_level st write map_writable it pfn prefault st' ret :
  tdp_mmu_map_handle_target_level st write map_writable it pfn prefault
  = Ok (st', ret) -> R st st'.
Proof.
  unfold tdp_mmu_map_handle_target_level.
  destruct (if is_noslot_pfn pfn then _ else _) as [flags new_spte].
  intros H. apply bind_Ok in H as ([s1 r1] & Hset & H).
  assert (R st s1) as H1.
  { destruct (new_spte =? iter_old_spte it).
    - injection Hset as <- <-. auto with stable.
    - apply bind_Ok in Hset as (s0 & Hset & [= <- <-]).
      by apply stable_set_spte in Hset. }
  eapply stable_step; [exact H1|].
  destruct (negb (Z.land flags SET_SPTE_WRITE_PROTECTED_PT =? 0));
    destruct prefault; simpl in H; injection H as <- <-;
    repeat (eapply stable_step; [|first [apply (stable_pf_fixed R HR)
                                        | apply (stable_emit R HR)]]);
    auto with stable.
Qed.

Lemma stable_kvm_tdp_mmu_map fuel st vcpu gpa error_code map_writable
    max_level pfn prefault st' ret :
  kvm_tdp_mmu_map fuel st vcpu gpa error_code map_writable max_level pfn
                  prefault = Ok (st', ret) -> R st st'.
Proof.
  unfold kvm_tdp_mmu_map.
  destruct (negb (VALID_PAGE (root_hpa vcpu)));
    [intros [= <- <-]; auto with stable|].
  destruct (negb (is_tdp_mmu_root st (root_hpa vcpu)));
    [intros [= <- <-]; auto with stable|].
  destruct (kvm_mmu_hugepage_adjust _ _ _ _) as [[level pfn'] req].
  intros H. apply bind_Ok in H as ([s1 r1] & Hloop & H).
  apply stable_map_loop in Hloop.
  destruct (negb (iter_level (round_iter r1) =? round_level r1)).
  - injection H as <- <-. eapply stable_step; eauto with stable.
  - apply stable_target_level in H. eapply stable_step; eauto.
Qed.

End Stable.

(** ** The root registry *)

Lemma NoDup_map_filter {A B} (f : A -> B) (p : A -> bool) l :
  NoDup (List.map f l) -> NoDup (List.map f (List.filter p l)).
Proof.
  induction l as [|x l IH]; simpl; intros H; [exact H|].
  apply NoDup_cons in H as [Hx Hl].
  destruct (p x); simpl; [|auto].
  apply NoDup_cons. split; [|auto].
  intros Hin. apply Hx. apply list_elem_of_In in Hin. apply list_elem_of_In.
  apply in_map_iff in Hin as (y & <- & Hy). apply filter_In in Hy as [Hy _].
  apply in_map_iff. eauto.
Qed.

Lemma roots_unique_stable :
  stable (fun s s' => roots_unique s -> roots_unique s').
Proof.
  split; try (intros; assumption); auto.
  - intros sp s. unfold roots_unique. simpl. apply NoDup_map_filter.
  - intros s s' p. unfold kvm_mmu_memory_cache_alloc.
    destruct (mmu_shadow_page_cache s); [discriminate|].
    by intros [= <- <-].
  - intros s. unfold need_resched. by destruct (resched s).
  - intros f sp s Hf. unfold roots_unique, update_root. simpl.
    rewrite List.map_map.
    assert (Heq : List.map (fun x => sp_role (if sp_spt x =? sp then f x
                                               else x)) (tdp_mmu_roots s)
                  = List.map sp_role (tdp_mmu_roots s)).
    { apply List.map_ext. intros r.
      destruct (sp_spt r =? sp); [apply Hf | reflexivity]. }
    by rewrite Heq.
Qed.

Lemma find_get_root_None role l :
  find_get_root role l = None <-> forall r, In r l -> sp_role r <> role.
Proof.
  induction l as [|x l IH]; simpl.
  - split; [intros _ r [] | reflexivity].
  - destruct (decide (sp_role x = role)) as [He | Hne].
    + split; [discriminate|]. intros H. exfalso. by apply (H x); [left|].
    + destruct (find_get_root role l) as [[r l']|].
      * split; [discriminate|]. intros H.
        assert (Some (r, l') = None) as Hn
            by (apply IH; intros; apply H; by right).
        discriminate.
      * split; [|reflexivity]. intros _ r [<- | Hr]; [exact Hne|].
        by apply (proj1 IH).
Qed.

Lemma find_get_root_Some role l root l' :
  find_get_root role l = Some (root, l') ->
  exists l1 r l2,
    l = l1 ++ r :: l2 /\ sp_role r = role
    /\ (forall x, In x l1 -> sp_role x <> role)
    /\ root = kvm_mmu_get_root r /\ l' = l1 ++ root :: l2.
Proof.
  revert root l'. induction l as [|x l IH]; simpl; intros root l';
    [discriminate|].
  destruct (decide (sp_role x = role)) as [He | Hne].
  - intros [= <- <-]. exists [], x, l. simpl. repeat split; auto.
  - destruct (find_get_root role l) as [[r0 l0]|]; [|discriminate].
    intros [= <- <-].
    destruct (IH r0 l0 eq_refl) as (l1 & r & l2 & -> & Hr & Hl1 & -> & ->).
    exists (x :: l1), r, l2. simpl. repeat split; auto.
    intros y [<- | Hy]; auto.
Qed.

Section Registry.
Context {ops : spte_ops}.

Lemma get_root_unique st vcpu st' root :
  get_tdp_mmu_vcpu_root st vcpu = Ok (st', root) ->
  roots_unique st -> roots_unique st'.
Proof.
  unfold get_tdp_mmu_vcpu_root, roots_unique.
  destruct (find_get_root _ (tdp_mmu_roots st)) as [[r l']|] eqn:Hfind.
  - intros [= <- <-]. simpl.
    apply find_get_root_Some in Hfind
      as (l1 & r0 & l2 & -> & _ & _ & -> & ->).
    by rewrite !List.map_app.
  - intros H Hu. apply bind_Ok in H as ([s1 r1] & Ha & [= <- <-]).
    unfold alloc_tdp_mmu_page in Ha.
    apply bind_Ok in Ha as ([s0 p] & Ha & [= <- <-]).
    unfold kvm_mmu_memory_cache_alloc in Ha.
    destruct (mmu_shadow_page_cache st); [discriminate|].
    injection Ha as <- <-. simpl.
    apply NoDup_cons. split; [|exact Hu].
    intros Hin. apply list_elem_of_In, in_map_iff in Hin as (r & Hr & Hin).
    by apply (proj1 (find_get_root_None _ _) Hfind r Hin).
Qed.

Lemma run_call_unique fuel st c st' :
  run_call fuel st c = Ok st' -> roots_unique st -> roots_unique st'.
Proof.
  destruct c; simpl; intros H.
  - apply bind_Ok in H as ([s r] & Hg & [= <-]).
    by eapply get_root_unique.
  - injection H as <-.
    apply (stable_update_root _ roots_unique_stable).
    intros r; split; reflexivity.
  - destruct (find_root st sp); [|by injection H as <-].
    exact (stable_kvm_tdp_mmu_free_root _ roots_unique_stable _ _ _ _ H).
  - apply bind_Ok in H as ([s f] & Hz & [= <-]).
    exact (stable_kvm_tdp_mmu_zap_gfn_range _ roots_unique_stable
             _ _ _ _ _ _ Hz).
  - exact (stable_kvm_tdp_mmu_zap_all _ roots_unique_stable _ _ _ H).
  - apply bind_Ok in H as ([s r] & Hm & [= <-]).
    exact (stable_kvm_tdp_mmu_map _ roots_unique_stable
             _ _ _ _ _ _ _ _ _ _ _ Hm).
Qed.

(** *** C2 *)


End Registry.


(** ** Range operations *)

Section Zap.
Context {ops : spte_ops}.

Lemma tdp_mmu_set_spte_zero_total st it :
  leaf_at_4K ops -> zero_not_present ops -> 1 <= iter_level it ->
  exists st', tdp_mmu_set_spte st it 0 = Ok st'.
Proof.
  intros Hleaf Hzero Hl. unfold tdp_mmu_set_spte.
  apply handle_changed_spte_total; auto. by apply bug_transition_zero.
Qed.

Lemma tdp_mmu_set_spte_zero_reads_zero st it st' :
  tdp_mmu_set_spte st it 0 = Ok st' -> READ_ONCE st' (iter_sptep it) = 0.
Proof.
  unfold tdp_mmu_set_spte, handle_changed_spte, __handle_changed_spte.
  intros H.
  destruct (handle_changed_spte_writes_zero _ _ _ _ _ _ _ _ H (iter_sptep it))
    as [-> | ->]; [apply READ_ONCE_WRITE_ONCE | reflexivity].
Qed.

Lemma tdp_mmu_set_spte_head st it new_spte st' :
  tdp_mmu_set_spte st it new_spte = Ok st' ->
  exists evs,
    events_since st st'
    = spte_changed (iter_gfn it) (iter_old_spte it) new_spte (iter_level it)
      :: evs.
Proof.
  unfold tdp_mmu_set_spte, handle_changed_spte, __handle_changed_spte.
  intros H. apply handle_changed_spte_head in H as [evs Hevs].
  exists evs. by apply events_since_app.
Qed.

Lemma flush_cond_resched_mem st it :
  mem (fst (fst (tdp_mmu_iter_flush_cond_resched st it))) = mem st.
Proof.
  unfold tdp_mmu_iter_flush_cond_resched, need_resched.
  destruct (resched st) as [|[] rest]; reflexivity.
Qed.

Lemma flush_cond_resched_extends st it :
  exists e,
    trace (fst (fst (tdp_mmu_iter_flush_cond_resched st it))) = trace st ++ e.
Proof.
  unfold tdp_mmu_iter_flush_cond_resched, need_resched.
  destruct (resched st) as [|[] rest]; simpl.
  - exists []. by rewrite app_nil_r.
  - exists [kvm_flush_remote_tlbs; cond_resched_lock].
    by rewrite <- app_assoc.
  - exists []. by rewrite app_nil_r.
Qed.

(** The step of the walker from an entry that points to a child table. *)
Lemma tdp_iter_next_descends st it :
  iter_level it <> iter_min_level it ->
  spte_to_child_pt (READ_ONCE st (iter_sptep it)) (iter_level it) <> 0 ->
  let child_pt := spte_to_child_pt (READ_ONCE st (iter_sptep it))
                                   (iter_level it) in
  let gfn := round_gfn_for_level (iter_goal_gfn it) (iter_level it - 1) in
  let it' := tdp_iter_next st it in
  iter_valid it' = true
  /\ iter_level it' = iter_level it - 1
  /\ iter_gfn it' = gfn
  /\ iter_sptep it' = child_pt + SHADOW_PT_INDEX gfn (iter_level it - 1)
  /\ iter_old_spte it' = READ_ONCE st (iter_sptep it')
  /\ iter_goal_gfn it' = iter_goal_gfn it
  /\ iter_root_level it' = iter_root_level it
  /\ iter_min_level it' = iter_min_level it
  /\ iter_pt_path it' = <[iter_level it - 1 := child_pt]> (iter_pt_path it).
Proof.
  intros Hmin Hchild. cbv zeta. unfold tdp_iter_next, try_step_down.
  apply Z.eqb_neq in Hmin, Hchild. rewrite Hmin, Hchild.
  unfold tdp_iter_refresh_sptep, pt_of. simpl.
  rewrite lookup_insert_eq. simpl. repeat split.
Qed.

(** *** C5 *)


End Zap.


(** The whole of zap_gfn_range over [0, 512), the range of the level-1
    table of [sample_tree]: that table, page 19, is freed and no other;
    the entry that pointed to it reads zero; the entries above and the
    large leaf beside it are as before; a flush is owed. *)
Example zap_exact_child_range :
  exists st',
    zap_gfn_range 16 sample_tree sample_root 0 512 false = Ok (st', true)
    /\ pages_freed (events_since sample_tree st') = [512 * 19]
    /\ READ_ONCE st' (512 * 18) = 0
    /\ READ_ONCE st' (512 * 17) = Sample.table 18
    /\ READ_ONCE st' (512 * 18 + 1) = Sample.large_leaf 1024.
Proof.
  eexists. split; [vm_compute; reflexivity|]. repeat split.
Qed.

Section ZapRange.
Context {ops : spte_ops}.

(** *** C9 *)

(** C9, as amended. zap_gfn_range has no test of its range and no way
    of rejecting it. The walk starts at [start] rounded down to the
    granularity of the root level and goes on while the first frame of
    the entry is below [end]: when [end] is at or below that rounded
    start, no entry is visited, the state is as before and "nothing
    cleared" is returned. For every other pair of bounds, in order or
    not, aligned or not, the walk runs, and a present leaf it visits
    is cleared whole through tdp_mmu_set_spte. *)
Theorem C9_zap_range_unchecked_empty_when_end_below_start :
  (forall fuel st root start end_ can_yield,
      end_ <= round_gfn_for_level start (role_level (sp_role root)) ->
      zap_gfn_range fuel st root start end_ can_yield = Ok (st, false))
  /\ (forall st it start end_ can_yield f,
        is_shadow_present_pte (iter_old_spte it) = true ->
        is_last_spte (iter_old_spte it) (iter_level it) = true ->
        zap_step st it start end_ can_yield f
        = run st1 <- tdp_mmu_set_spte st it 0 in
          Ok (if can_yield then tdp_mmu_iter_flush_cond_resched st1 it
              else (st1, it, true))).
Proof.
  split.
  - intros fuel st root start end_ cy Hle.
    unfold zap_gfn_range, tdp_iter_start, tdp_iter_refresh_sptep.
    cbn [iter_gfn iter_level iter_pt_path iter_goal_gfn iter_root_level
         iter_min_level].
    assert (Hc : (round_gfn_for_level start (role_level (sp_role root))
                  <? end_) = false) by (apply Z.ltb_ge; lia).
    destruct fuel; simpl; by rewrite Hc.
  - intros st it start end_ cy f Hp Hl. unfold zap_step.
    rewrite Hp, Hl. simpl. rewrite andb_false_r.
    destruct (tdp_mmu_set_spte st it 0); simpl; [|reflexivity].
    by destruct cy.
Qed.

End ZapRange.

Lemma C9_witness :
  zap_gfn_range 0 sample_tree sample_root 517 0 true = Ok (sample_tree, false).
Proof.
  destruct (C9_zap_range_unchecked_empty_when_end_below_start
              (ops := x86_ops)) as [H _].
  apply H. vm_compute. discriminate.
Defined.

(** C9 as the spec words it fails: [end <= start] (517, 515), and
    bounds that are not aligned to the 512 frames of the large leaf
    they fall into (513, 514): neither call is rejected; each clears
    the large leaf of the frames 512..1023 and returns "cleared". *)
Lemma C9_counterexample :
  READ_ONCE sample_tree (512 * 18 + 1) = Sample.large_leaf 1024
  /\ (exists st',
        zap_gfn_range 16 sample_tree sample_root 517 515 false = Ok (st', true)
        /\ READ_ONCE st' (512 * 18 + 1) = 0)
  /\ (exists st',
        zap_gfn_range 16 sample_tree sample_root 513 514 false = Ok (st', true)
        /\ READ_ONCE st' (512 * 18 + 1) = 0).
Proof.
  split; [reflexivity|].
  split; eexists; (split; [vm_compute; reflexivity | reflexivity]).
Qed.

(** ** The fault path *)

Section FaultSteps.
Context {ops : spte_ops}.

(** After its own entry, a call of the handler records changes towards
    the zero entry only. *)
Lemma handle_changed_spte_children depth :
  forall st as_id gfn old_spte new_spte level st',
    handle_changed_spte_rec depth st as_id gfn old_spte new_spte level = Ok st' ->
    exists evs,
      trace st' = trace st ++ spte_changed gfn old_spte new_spte level :: evs
      /\ Forall to_zero evs.
Proof.
  induction depth as [|depth IH]; intros st as_id gfn old new level st';
    rewrite handle_changed_spte_rec_eq; cbv zeta; intros Hrun.
  all: assert (Hw : Forall to_zero (entry_warnings gfn level))
    by (unfold entry_warnings;
        repeat match goal with |- context [if ?c then _ else _] =>
                                 destruct c end;
        simpl; repeat constructor).
  all: repeat match type of Hrun with
              | (if ?c then _ else _) = _ => destruct c
              end; try discriminate.
  all: try (injection Hrun as <-; unfold handler_dirty;
            try destruct (dirty_harvest old new level); simpl;
            rewrite trace_handler_enter, <- ?app_assoc; simpl;
            eexists; (split; [reflexivity|]);
            rewrite ?Forall_app; repeat split; auto;
            repeat constructor).
  apply bind_Ok in Hrun as (s3 & Hloop & [= <-]).
  apply (for_each_rel (fun s s' => exists e, trace s' = trace s ++ e
                                             /\ Forall to_zero e))
    in Hloop.
  - destruct Hloop as (e & He & Hz). simpl. rewrite He. unfold handler_dirty.
    destruct (dirty_harvest old new level); simpl;
      rewrite trace_handler_enter, <- ?app_assoc; simpl;
      rewrite <- ?app_assoc; simpl;
      (eexists; split; [reflexivity|]);
      repeat first [ exact Hw | exact Hz | apply Forall_nil_2
                   | (apply Forall_cons_2; [exact I|])
                   | (apply Forall_app; split) ].
  - intros s. exists []. by rewrite app_nil_r.
  - intros s1 s2 s3' (e1 & H1 & Z1) (e2 & H2 & Z2). exists (e1 ++ e2).
    rewrite H2, H1, app_assoc. split; [reflexivity|].
    apply Forall_app; auto.
  - intros s x s' _ Hb. apply IH in Hb as (e & He & Hz). simpl in He.
    eexists. split; [exact He|]. constructor; [reflexivity | exact Hz].
Qed.

Lemma tdp_mmu_set_spte_events st it new_spte st' :
  tdp_mmu_set_spte st it new_spte = Ok st' ->
  exists evs,
    trace st' = trace st
                ++ spte_changed (iter_gfn it) (iter_old_spte it) new_spte
                                (iter_level it) :: evs
    /\ Forall to_zero evs.
Proof.
  unfold tdp_mmu_set_spte, handle_changed_spte, __handle_changed_spte.
  intros H. apply handle_changed_spte_children in H as (evs & He & Hz).
  simpl in He. eauto.
Qed.

Lemma to_zero_clears_or_fills evs :
  Forall to_zero evs -> Forall clears_or_fills evs.
Proof.
  intros H. eapply Forall_impl; [exact H|].
  intros [] He; simpl in *; auto.
Qed.

Lemma trace_clear_page pt st : trace (clear_page pt st) = trace st.
Proof.
  unfold clear_page. generalize (upto PT64_ENT_PER_PAGE). intros l.
  revert st. induction l as [|x l IH]; intros st; simpl; [reflexivity|].
  by rewrite IH.
Qed.

Lemma trace_alloc st vcpu gfn level st' sp :
  alloc_tdp_mmu_page st vcpu gfn level = Ok (st', sp) -> trace st' = trace st.
Proof.
  unfold alloc_tdp_mmu_page, kvm_mmu_memory_cache_alloc.
  destruct (mmu_shadow_page_cache st); [discriminate|].
  by intros [= <- <-].
Qed.

(** The snapshot of a walker that was just moved is current. *)
Lemma snapshot_refresh st it :
  snapshot_current st (tdp_iter_refresh_sptep st it).
Proof. reflexivity. Qed.

Lemma snapshot_start st root_pt root_level min_level goal_gfn :
  snapshot_current st (tdp_iter_start st root_pt root_level min_level goal_gfn).
Proof. reflexivity. Qed.

Lemma snapshot_side_or_up n :
  forall st it,
    iter_valid (step_side_or_up n st it) = true ->
    snapshot_current st (step_side_or_up n st it).
Proof.
  induction n as [|n IH]; intros st it; simpl.
  - unfold try_step_side.
    destruct (SHADOW_PT_INDEX _ _ =? _); [discriminate | reflexivity].
  - unfold try_step_side.
    destruct (SHADOW_PT_INDEX _ _ =? _); [|reflexivity].
    unfold try_step_up. destruct (iter_level it =? iter_root_level it);
      [discriminate|]. apply IH.
Qed.

Lemma snapshot_next st it :
  iter_valid (tdp_iter_next st it) = true ->
  snapshot_current st (tdp_iter_next st it).
Proof.
  unfold tdp_iter_next, try_step_down.
  destruct (iter_level it =? iter_min_level it);
    [apply snapshot_side_or_up|].
  destruct (spte_to_child_pt _ _ =? 0); [apply snapshot_side_or_up|].
  reflexivity.
Qed.

(** One round of the walk of kvm_tdp_mmu_map that goes on: the calls
    it records, in order. *)
Lemma map_step_events st vcpu it gfn pfn level st' r :
  snapshot_current st it ->
  map_step st vcpu it gfn pfn level = Ok (st', r) ->
  round_break r = false ->
  let old_spte := iter_old_spte it in
  let flush := kvm_flush_remote_tlbs_with_address
                 (iter_gfn it) (KVM_PAGES_PER_HPAGE (iter_level it)) in
  exists zapped st1 installed,
    (if is_shadow_present_pte old_spte && is_large_pte old_spte
     then exists zap_events,
         tdp_mmu_set_spte st it 0 = Ok st1
         /\ zapped = spte_changed (iter_gfn it) old_spte 0 (iter_level it)
                     :: zap_events ++ [flush]
         /\ Forall to_zero zap_events
     else st1 = st /\ zapped = [])
    /\ (installed = []
        \/ exists new_spte more,
            installed = spte_changed (iter_gfn it)
                          (READ_ONCE st1 (iter_sptep it)) new_spte
                          (iter_level it) :: more
            /\ is_shadow_present_pte (READ_ONCE st1 (iter_sptep it)) = false
            /\ Forall to_zero more)
    /\ events_since st st' = zapped ++ installed.
Proof.
  intros Hsnap. unfold map_step.
  destruct (if is_nx_huge_page_enabled then _ else _) as [pfn' level'].
  destruct (iter_level it =? level'); [by intros [= <- <-]|].
  intros H _. cbv zeta.
  apply bind_Ok in H as ([s1 it1] & Hzap & H).
  apply bind_Ok in H as (s2 & Hinst & [= <- <-]).
  destruct (is_shadow_present_pte (iter_old_spte it)
            && is_large_pte (iter_old_spte it)) eqn:Hlarge.
  - apply bind_Ok in Hzap as (s0 & Hset & [= <- <-]).
    destruct (tdp_mmu_set_spte_events _ _ _ _ Hset) as (ze & Hze & Hzz).
    simpl in Hinst.
    set (fl := kvm_flush_remote_tlbs_with_address (iter_gfn it)
                 (KVM_PAGES_PER_HPAGE (iter_level it))) in *.
    change (READ_ONCE (emit fl s0) (iter_sptep it))
      with (READ_ONCE s0 (iter_sptep it)) in Hinst.
    destruct (negb (is_shadow_present_pte (READ_ONCE s0 (iter_sptep it))))
      eqn:Hnp.
    + apply bind_Ok in Hinst as ([s3 sp] & Ha & Hset2).
      apply trace_alloc in Ha.
      destruct (tdp_mmu_set_spte_events _ _ _ _ Hset2) as (ie & Hie & Hiz).
      rewrite trace_clear_page in Hie. simpl in Hie.
      rewrite Ha in Hie. simpl in Hie.
      eexists _, s0, _. split; [|split].
      * exists ze. repeat split; eauto.
      * right. eexists _, ie. split; [reflexivity|].
        split; [by apply negb_true_iff|exact Hiz].
      * apply events_since_app. rewrite Hie, Hze.
        rewrite <- !app_assoc. simpl. rewrite <- !app_assoc. reflexivity.
    + injection Hinst as <-.
      eexists _, s0, []. split; [|split].
      * exists ze. repeat split; eauto.
      * by left.
      * apply events_since_app. rewrite app_nil_r. simpl. rewrite Hze.
        rewrite <- !app_assoc. reflexivity.
  - injection Hzap as <- <-.
    destruct (negb (is_shadow_present_pte (iter_old_spte it))) eqn:Hnp.
    + apply bind_Ok in Hinst as ([s3 sp] & Ha & Hset2).
      apply trace_alloc in Ha.
      destruct (tdp_mmu_set_spte_events _ _ _ _ Hset2) as (ie & Hie & Hiz).
      rewrite trace_clear_page in Hie. simpl in Hie.
      rewrite Ha in Hie. rewrite Hsnap in Hie, Hnp.
      eexists [], st, _. split; [|split].
      * split; reflexivity.
      * right. eexists _, ie. split; [reflexivity|].
        split; [by apply negb_true_iff|exact Hiz].
      * apply events_since_app. exact Hie.
    + injection Hinst as <-.
      exists [], st, []. split; [|split].
      * split; reflexivity.
      * by left.
      * apply events_since_app. by rewrite app_nil_r.
Qed.

End FaultSteps.

Lemma extends_stable : stable extends.
Proof.
  split.
  - intros s. exists []. by rewrite app_nil_r.
  - intros s1 s2 s3 [e1 H1] [e2 H2]. exists (e1 ++ e2).
    by rewrite H2, H1, app_assoc.
  - intros e s. by exists [e].
  - intros p v s. exists []. by rewrite app_nil_r.
  - intros sp s. exists []. by rewrite app_nil_r.
  - intros l s. exists []. by rewrite app_nil_r.
  - intros s s' p. unfold kvm_mmu_memory_cache_alloc.
    destruct (mmu_shadow_page_cache s); [discriminate|].
    intros [= <- <-]. exists []. by rewrite app_nil_r.
  - intros s. unfold need_resched. destruct (resched s); simpl;
      exists []; by rewrite app_nil_r.
  - intros s. exists []. by rewrite app_nil_r.
  - intros f sp s _. exists []. by rewrite app_nil_r.
Qed.

Lemma events_since_trans st st' st'' :
  extends st st' -> extends st' st'' ->
  events_since st st'' = events_since st st' ++ events_since st' st''.
Proof.
  intros [e1 H1] [e2 H2].
  rewrite (events_since_app st st' e1 H1), (events_since_app st' st'' e2 H2).
  apply events_since_app. by rewrite H2, H1, app_assoc.
Qed.

Lemma events_since_refl st : events_since st st = [].
Proof. unfold events_since. apply drop_all. Qed.

Section FaultWalk.
Context {ops : spte_ops}.

Lemma map_step_clears_or_fills st vcpu it gfn pfn level st' r :
  snapshot_current st it ->
  map_step st vcpu it gfn pfn level = Ok (st', r) ->
  Forall clears_or_fills (events_since st st').
Proof.
  intros Hsnap Hstep. destruct (round_break r) eqn:Hbrk.
  - assert (st' = st) as ->; [|rewrite events_since_refl; constructor].
    unfold map_step in Hstep.
    destruct (if is_nx_huge_page_enabled then _ else _) as [pfn' level'].
    destruct (iter_level it =? level'); [by injection Hstep as <- <-|].
    apply bind_Ok in Hstep as ([s1 it1] & _ & H).
    apply bind_Ok in H as (s2 & _ & [= <- <-]). discriminate.
  - destruct (map_step_events _ _ _ _ _ _ _ _ Hsnap Hstep Hbrk)
      as (zapped & st1 & installed & Hz & Hi & ->).
    apply Forall_app. split.
    + destruct (is_shadow_present_pte (iter_old_spte it)
                && is_large_pte (iter_old_spte it)).
      * destruct Hz as (ze & _ & -> & Hze).
        constructor; [by left|]. apply Forall_app. split.
        -- by apply to_zero_clears_or_fills.
        -- by repeat constructor.
      * destruct Hz as [_ ->]. constructor.
    + destruct Hi as [-> | (new & more & -> & Hnp & Hmore)]; [constructor|].
      constructor; [by right|]. by apply to_zero_clears_or_fills.
Qed.

Lemma map_loop_clears_or_fills fuel :
  forall st vcpu it gfn pfn level st' r,
    snapshot_current st it ->
    map_loop fuel st vcpu it gfn pfn level = Ok (st', r) ->
    Forall clears_or_fills (events_since st st').
Proof.
  induction fuel as [|fuel IH]; intros st vcpu it gfn pfn level st' r Hsnap;
    simpl;
    destruct (iter_valid it && (iter_gfn it <? wrap64 (gfn + 1)));
    try discriminate;
    try (intros [= <- <-]; rewrite events_since_refl; constructor).
  intros H. apply bind_Ok in H as ([s1 r1] & Hstep & Hrest).
  pose proof (map_step_clears_or_fills _ _ _ _ _ _ _ _ Hsnap Hstep) as H1.
  destruct (round_break r1).
  - by injection Hrest as <- <-.
  - destruct (iter_valid (tdp_iter_next s1 (round_iter r1))) eqn:Hv.
    + pose proof (stable_map_step _ extends_stable _ _ _ _ _ _ _ _ Hstep).
      pose proof (stable_map_loop _ extends_stable _ _ _ _ _ _ _ _ _ Hrest).
      rewrite (events_since_trans st s1 st') by assumption.
      apply Forall_app. split; [exact H1|].
      eapply IH; [|exact Hrest]. by apply snapshot_next.
    + destruct fuel; simpl in Hrest; rewrite Hv in Hrest; simpl in Hrest;
        injection Hrest as <- <-; exact H1.
Qed.

(** *** C4 *)

(** C4. A round of the walk of kvm_tdp_mmu_map at an entry above the
    target level that is a present large leaf: the entry is set to
    zero through tdp_mmu_set_spte, then a flush of the whole range of
    the entry is asked for, and only then, if at all, a child table
    is installed, over the value read back from the entry, which is
    not present. And in the whole walk, from the root, every recorded
    change either clears an entry or writes over a value that was not
    present: no present leaf is overwritten directly. *)
Theorem C4_large_leaf_cleared_and_flushed_before_child_table :
  (forall st vcpu it gfn pfn level st' r,
      snapshot_current st it ->
      map_step st vcpu it gfn pfn level = Ok (st', r) ->
      round_break r = false ->
      is_shadow_present_pte (iter_old_spte it) = true ->
      is_large_pte (iter_old_spte it) = true ->
      exists st1 zap_events installed,
        tdp_mmu_set_spte st it 0 = Ok st1
        /\ READ_ONCE st1 (iter_sptep it) = 0
        /\ Forall to_zero zap_events
        /\ events_since st st'
           = spte_changed (iter_gfn it) (iter_old_spte it) 0 (iter_level it)
             :: zap_events
             ++ [kvm_flush_remote_tlbs_with_address (iter_gfn it)
                   (KVM_PAGES_PER_HPAGE (iter_level it))]
             ++ installed
        /\ (installed = []
            \/ exists new_spte more,
                installed = spte_changed (iter_gfn it) 0 new_spte
                              (iter_level it) :: more
                /\ is_shadow_present_pte 0 = false
                /\ Forall to_zero more))
  /\ (forall fuel st vcpu root_pt root_level gfn pfn level st' r,
        map_loop fuel st vcpu
                 (tdp_iter_start st root_pt root_level PG_LEVEL_4K gfn)
                 gfn pfn level = Ok (st', r) ->
        Forall clears_or_fills (events_since st st')).
Proof.
  split.
  - intros st vcpu it gfn pfn level st' r Hsnap Hstep Hbrk Hp Hlg.
    destruct (map_step_events _ _ _ _ _ _ _ _ Hsnap Hstep Hbrk)
      as (zapped & st1 & installed & Hz & Hi & Hev).
    rewrite Hp, Hlg in Hz. simpl in Hz.
    destruct Hz as (ze & Hset & -> & Hze).
    pose proof (tdp_mmu_set_spte_zero_reads_zero _ _ _ Hset) as Hread.
    exists st1, ze, installed. rewrite Hread in Hi.
    repeat (split; [assumption|]). split; [|exact Hi].
    rewrite Hev. simpl. by rewrite <- app_assoc.
  - intros fuel st vcpu root_pt root_level gfn pfn level st' r.
    apply map_loop_clears_or_fills. apply snapshot_start.
Qed.

End FaultWalk.

Lemma C4_witness :
  exists st' r st1 zap_events installed,
    map_step sample_tree sample_vcpu sample_large_iter 600 77 1 = Ok (st', r)
    /\ tdp_mmu_set_spte sample_tree sample_large_iter 0 = Ok st1
    /\ events_since sample_tree st'
       = spte_changed 512 (Sample.large_leaf 1024) 0 2
         :: zap_events
         ++ [kvm_flush_remote_tlbs_with_address 512 (KVM_PAGES_PER_HPAGE 2)]
         ++ installed.
Proof.
  destruct (map_step sample_tree sample_vcpu sample_large_iter 600 77 1)
    as [[st' r]|c] eqn:Hstep; [|vm_compute in Hstep; discriminate].
  assert (Hbrk : round_break r = false).
  { pose proof Hstep as Hc. vm_compute in Hc. injection Hc as _ <-.
    reflexivity. }
  destruct (C4_large_leaf_cleared_and_flushed_before_child_table
              (ops := x86_ops)) as [H _].
  destruct (H sample_tree sample_vcpu sample_large_iter 600 77 1 st' r)
    as (st1 & ze & inst & Hset & _ & _ & Hev & _);
    [reflexivity | exact Hstep | exact Hbrk | reflexivity | reflexivity |].
  exists st', r, st1, ze, inst. split; [reflexivity|]. split; [exact Hset|].
  exact Hev.
Defined.

(** The whole of kvm_tdp_mmu_map for a write fault on guest frame 600
    of [sample_tree], which lies in the large leaf: the large leaf is
    cleared, its 512 frames are flushed, the level-1 table is
    installed from the cache, then the 4K leaf. *)
Example map_into_large_leaf :
  exists st',
    kvm_tdp_mmu_map 8 sample_tree sample_vcpu (4096 * 600) 2 1 1 77 false
    = Ok (st', 0)
    /\ events_since sample_tree st'
       = [spte_changed 512 (Sample.large_leaf 1024) 0 2;
          kvm_set_pfn_dirty 1024;
          kvm_flush_remote_tlbs_with_address 512 512;
          spte_changed 512 0 (Sample.table 32) 2;
          spte_changed 600 0 (Sample.leaf 77 + 36) 1]
    /\ READ_ONCE st' (512 * 18 + 1) = Sample.table 32
    /\ READ_ONCE st' (512 * 32 + 88) = Sample.leaf 77 + 36.
Proof.
  eexists. split; [vm_compute; reflexivity|]. repeat split.
Qed.

(** ** The walk of a fault, level by level *)

Lemma heap_eq_refl st : heap_eq st st.
Proof. by repeat split. Qed.

Lemma heap_eq_trans s1 s2 s3 : heap_eq s1 s2 -> heap_eq s2 s3 -> heap_eq s1 s3.
Proof.
  intros (A & B & C) (A' & B' & C'). repeat split; congruence.
Qed.

Lemma heap_eq_emit e st : heap_eq st (emit e st).
Proof. by repeat split. Qed.

Lemma heap_eq_warn_on c w st : heap_eq st (warn_on c w st).
Proof. destruct c; [apply heap_eq_emit | apply heap_eq_refl]. Qed.

Lemma heap_eq_READ st st' a : heap_eq st st' -> READ_ONCE st' a = READ_ONCE st a.
Proof. intros (H & _). unfold READ_ONCE. by rewrite H. Qed.

Lemma READ_clear_page c st a :
  READ_ONCE (clear_page c st) a
  = if (c <=? a) && (a <? c + PT64_ENT_PER_PAGE) then 0 else READ_ONCE st a.
Proof.
  unfold clear_page.
  assert (Hgen : forall l s,
             READ_ONCE (fold_left (fun st i => WRITE_ONCE st (c + i) 0) l s) a
             = if decide (a - c ∈ l) then 0 else READ_ONCE s a).
  { induction l as [|x l IH]; intros s; simpl.
    - destruct (decide (a - c ∈ [])) as [Hin|]; [|reflexivity].
      by apply elem_of_nil in Hin.
    - rewrite IH. destruct (decide (a - c ∈ l)) as [Hin | Hnin].
      + destruct (decide (a - c ∈ x :: l)) as [|Hn]; [reflexivity|].
        exfalso. apply Hn. apply elem_of_cons. by right.
      + destruct (decide (a - c ∈ x :: l)) as [Hin | Hn].
        * apply elem_of_cons in Hin as [Heq | Hin]; [|contradiction].
          replace (c + x) with a by lia. apply READ_ONCE_WRITE_ONCE.
        * apply READ_ONCE_WRITE_ONCE_ne. intros Heq. apply Hn.
          apply elem_of_cons. left. lia. }
  rewrite Hgen.
  destruct (decide (a - c ∈ upto PT64_ENT_PER_PAGE)) as [Hin | Hnin].
  - apply list_elem_of_In, upto_spec in Hin.
    replace ((c <=? a) && (a <? c + PT64_ENT_PER_PAGE)) with true;
      [reflexivity|]. symmetry. apply andb_true_iff. split; lia.
  - destruct ((c <=? a) && (a <? c + PT64_ENT_PER_PAGE)) eqn:Hc;
      [|reflexivity].
    exfalso. apply Hnin. apply list_elem_of_In, upto_spec.
    apply andb_true_iff in Hc. lia.
Qed.

Lemma clear_page_fields c st :
  tdp_mmu_roots (clear_page c st) = tdp_mmu_roots st
  /\ mmu_shadow_page_cache (clear_page c st) = mmu_shadow_page_cache st
  /\ tdp_mmu_pages (clear_page c st) = tdp_mmu_pages st.
Proof.
  unfold clear_page. generalize (upto PT64_ENT_PER_PAGE). intros l.
  revert st. induction l as [|x l IH]; intros st; simpl; [by repeat split|].
  destruct (IH (WRITE_ONCE st (c + x) 0)) as (A & B & C).
  by rewrite A, B, C.
Qed.

Section FlatHandler.
Context {ops : spte_ops}.

Lemma no_child_table_removes old_spte new_spte level :
  no_child_table old_spte level = true ->
  removes_subtree old_spte new_spte level = false.
Proof.
  unfold no_child_table, removes_subtree, was_leaf. intros H.
  apply negb_true_iff in H.
  destruct (is_shadow_present_pte old_spte); [|reflexivity].
  simpl in *. by rewrite H.
Qed.

(** A handler call for an old value without a child table returns,
    unless it is the fatal transition, and leaves the memory, the
    roots and the cache alone. *)
Lemma handle_changed_spte_no_child st as_id gfn old_spte new_spte level :
  no_child_table old_spte level = true ->
  bug_transition old_spte new_spte level = false ->
  exists st',
    handle_changed_spte st as_id gfn old_spte new_spte level = Ok st'
    /\ heap_eq st st'.
Proof.
  intros Hflat Hbug. unfold handle_changed_spte, __handle_changed_spte.
  rewrite handle_changed_spte_rec_eq. cbv zeta.
  rewrite Hbug, (no_child_table_removes _ _ _ Hflat).
  assert (He : heap_eq st (handler_enter st gfn old_spte new_spte level)).
  { unfold handler_enter.
    repeat (eapply heap_eq_trans; [|apply heap_eq_warn_on]).
    apply heap_eq_emit. }
  repeat match goal with
         | |- exists _, (if ?c then _ else _) = _ /\ _ => destruct c
         end; eexists; (split; [reflexivity|]);
    unfold handler_dirty;
    try destruct (dirty_harvest old_spte new_spte level);
    repeat (eapply heap_eq_trans; [|apply heap_eq_emit]); exact He.
Qed.

Lemma tdp_mmu_set_spte_no_child st it new_spte :
  no_child_table (iter_old_spte it) (iter_level it) = true ->
  bug_transition (iter_old_spte it) new_spte (iter_level it) = false ->
  exists st',
    tdp_mmu_set_spte st it new_spte = Ok st'
    /\ heap_eq (WRITE_ONCE st (iter_sptep it) new_spte) st'.
Proof.
  intros Hflat Hbug. unfold tdp_mmu_set_spte.
  by apply handle_changed_spte_no_child.
Qed.

End FlatHandler.

Section WalkSteps.
Context {ops : spte_ops}.
Variables (gfn target pfn : Z) (vcpu : kvm_vcpu).
Hypothesis Hzero : zero_not_present ops.
Hypothesis Hlarge : large_is_last ops.
Hypothesis Hnx : nx_inert gfn target pfn.

Lemma nx_adjust spte cur_level :
  (if is_nx_huge_page_enabled
   then disallowed_hugepage_adjust spte gfn cur_level pfn target
   else (pfn, target)) = (pfn, target).
Proof.
  destruct Hnx as [-> | H]; [reflexivity|]. rewrite H.
  by destruct is_nx_huge_page_enabled.
Qed.

Lemma map_step_at_target st it :
  iter_level it = target ->
  map_step st vcpu it gfn pfn target = Ok (st, mk_round true it pfn target).
Proof.
  intros Hl. unfold map_step. rewrite nx_adjust, Hl, Z.eqb_refl. reflexivity.
Qed.

Lemma map_step_through st it :
  iter_level it <> target ->
  is_table_entry (iter_old_spte it) = true ->
  map_step st vcpu it gfn pfn target = Ok (st, mk_round false it pfn target).
Proof.
  intros Hl He. unfold map_step. rewrite nx_adjust.
  apply Z.eqb_neq in Hl. rewrite Hl.
  unfold is_table_entry in He. apply andb_prop in He as [Hp Hnl].
  apply negb_true_iff in Hnl. rewrite Hp, Hnl. cbn [andb bind].
  rewrite Hp. reflexivity.
Qed.

(** The second half of a round: a child table is taken from the cache,
    cleared and linked in over a value that is not present. *)
Lemma install_child st it c rest :
  is_shadow_present_pte (iter_old_spte it) = false ->
  mmu_shadow_page_cache st = c :: rest ->
  let new_spte := make_nonleaf_spte c (shadow_accessed_mask =? 0) in
  exists st',
    (run '(st, sp) <- alloc_tdp_mmu_page st vcpu (iter_gfn it) (iter_level it) in
     let st := set_pages (sp :: tdp_mmu_pages st) st in
     let child_pt := sp_spt sp in
     let st := clear_page child_pt st in
     tdp_mmu_set_spte st it
       (make_nonleaf_spte child_pt (shadow_accessed_mask =? 0))) = Ok st'
    /\ READ_ONCE st' (iter_sptep it) = new_spte
    /\ (forall a, a <> iter_sptep it ->
          READ_ONCE st' a
          = if (c <=? a) && (a <? c + PT64_ENT_PER_PAGE) then 0
            else READ_ONCE st a)
    /\ tdp_mmu_roots st' = tdp_mmu_roots st
    /\ mmu_shadow_page_cache st' = rest.
Proof.
  intros Hnp Hcache new_spte.
  unfold alloc_tdp_mmu_page, kvm_mmu_memory_cache_alloc. rewrite Hcache.
  cbn [bind sp_spt].
  match goal with
  | |- exists _, tdp_mmu_set_spte ?s _ _ = _ /\ _ => set (sc := s)
  end.
  destruct (tdp_mmu_set_spte_no_child sc it new_spte) as (st' & Hset & Heq).
  { unfold no_child_table. by rewrite Hnp. }
  { unfold bug_transition, was_leaf. by rewrite Hnp. }
  exists st'. split; [exact Hset|].
  destruct (clear_page_fields c
              (set_pages
                 (mk_sp c (page_role_for_level vcpu (iter_level it))
                        (iter_gfn it) 0 true :: tdp_mmu_pages st)
                 (mk_kvm (mem st) (tdp_mmu_roots st) (tdp_mmu_pages st) rest
                         (resched st) (pf_fixed st) (trace st))))
    as (Hr & Hc & _).
  destruct Heq as (Hm & Hroots & Hcch). split; [|split; [|split]].
  - rewrite (heap_eq_READ _ _ _ (conj Hm (conj Hroots Hcch))).
    apply READ_ONCE_WRITE_ONCE.
  - intros a Ha.
    rewrite (heap_eq_READ _ _ _ (conj Hm (conj Hroots Hcch))).
    rewrite READ_ONCE_WRITE_ONCE_ne by congruence.
    subst sc. rewrite READ_clear_page. reflexivity.
  - rewrite Hroots. simpl. exact Hr.
  - rewrite Hcch. simpl. exact Hc.
Qed.

Lemma set_old_spte_fields v it :
  iter_sptep (set_old_spte v it) = iter_sptep it
  /\ iter_level (set_old_spte v it) = iter_level it
  /\ iter_gfn (set_old_spte v it) = iter_gfn it
  /\ iter_old_spte (set_old_spte v it) = v.
Proof. by repeat split. Qed.

(** A round at an entry above the target level that does not point to
    a child table: after it the entry points to the page that was
    first in the cache, and that page is clear. *)
Lemma map_step_fill st it c rest :
  iter_level it <> target ->
  snapshot_current st it ->
  is_table_entry (iter_old_spte it) = false ->
  mmu_shadow_page_cache st = c :: rest ->
  exists st' v,
    map_step st vcpu it gfn pfn target
    = Ok (st', mk_round false (set_old_spte v it) pfn target)
    /\ READ_ONCE st' (iter_sptep it)
       = make_nonleaf_spte c (shadow_accessed_mask =? 0)
    /\ (forall a, a <> iter_sptep it ->
          READ_ONCE st' a
          = if (c <=? a) && (a <? c + PT64_ENT_PER_PAGE) then 0
            else READ_ONCE st a)
    /\ tdp_mmu_roots st' = tdp_mmu_roots st
    /\ mmu_shadow_page_cache st' = rest.
Proof.
  intros Hl Hsnap He Hcache. unfold map_step. rewrite nx_adjust.
  apply Z.eqb_neq in Hl. rewrite Hl.
  unfold is_table_entry in He.
  destruct (is_shadow_present_pte (iter_old_spte it)) eqn:Hp; simpl in He.
  - apply negb_false_iff in He. rewrite He. cbn [andb].
    destruct (tdp_mmu_set_spte_no_child st it 0) as (s0 & Hset & Heq).
    { unfold no_child_table. by rewrite (Hlarge _ _ He), andb_false_r. }
    { unfold bug_transition, was_leaf. rewrite Hzero. simpl.
      by rewrite andb_false_r. }
    rewrite Hset. cbn [bind].
    set (s1 := emit _ s0).
    assert (Heq1 : heap_eq (WRITE_ONCE st (iter_sptep it) 0) s1).
    { eapply heap_eq_trans; [exact Heq | apply heap_eq_emit]. }
    assert (Hr0 : READ_ONCE s1 (iter_sptep it) = 0).
    { rewrite (heap_eq_READ _ _ _ Heq1). apply READ_ONCE_WRITE_ONCE. }
    rewrite Hr0.
    set (it1 := set_old_spte 0 it).
    change (iter_old_spte it1) with 0. rewrite Hzero. cbn [negb].
    destruct (install_child s1 it1 c rest) as (st' & Hrun & Hread & Hfr & Hro & Hca).
    { exact Hzero. }
    { destruct Heq1 as (_ & _ & ->). exact Hcache. }
    exists st', 0. split.
    { lazymatch goal with
      | |- bind ?m _ = _ =>
          assert (Hm : m = Ok st') by exact Hrun; rewrite Hm
      end. reflexivity. }
    change (iter_sptep it1) with (iter_sptep it) in *.
    split; [exact Hread|]. split; [|split].
    + intros a Ha. rewrite (Hfr a Ha).
      rewrite (heap_eq_READ _ _ _ Heq1).
      by rewrite READ_ONCE_WRITE_ONCE_ne by congruence.
    + rewrite Hro. by destruct Heq1 as (_ & -> & _).
    + exact Hca.
  - cbn [andb bind]. rewrite Hp. cbn [negb].
    destruct (install_child st it c rest Hp Hcache)
      as (st' & Hrun & Hread & Hfr & Hro & Hca).
    exists st', (iter_old_spte it). split; [|auto].
    lazymatch goal with
    | |- bind ?m _ = _ =>
        assert (Hm : m = Ok st') by exact Hrun; rewrite Hm
    end. cbn [bind]. by destruct it.
Qed.

End WalkSteps.

Lemma KVM_PAGES_PER_HPAGE_nonneg level : 0 <= KVM_PAGES_PER_HPAGE level.
Proof.
  unfold KVM_PAGES_PER_HPAGE. apply Z.div_pos; [|reflexivity].
  unfold KVM_HPAGE_SIZE, wrap64. apply Z.mod_pos_bound. lia.
Qed.

Lemma round_gfn_for_level_bounds gfn level :
  0 <= gfn -> 0 <= round_gfn_for_level gfn level <= gfn.
Proof.
  intros Hg. unfold round_gfn_for_level.
  pose proof (KVM_PAGES_PER_HPAGE_nonneg level) as Hp.
  destruct (decide (KVM_PAGES_PER_HPAGE level = 0)) as [-> | Hne].
  - rewrite Z.mod_0_r. lia.
  - pose proof (Z.mod_pos_bound gfn (KVM_PAGES_PER_HPAGE level)).
    pose proof (Z.mod_le gfn (KVM_PAGES_PER_HPAGE level)). lia.
Qed.

Lemma entry_addr_in_page gfn pt k : in_page pt (entry_addr gfn pt k).
Proof.
  unfold in_page, entry_addr, SHADOW_PT_INDEX.
  change PT64_ENT_PER_PAGE with 512.
  pose proof (Z.mod_pos_bound
                (round_gfn_for_level gfn k / KVM_PAGES_PER_HPAGE k) 512).
  lia.
Qed.

Lemma in_page_separate t u a :
  512 <= Z.abs (t - u) -> in_page t a -> ~ in_page u a.
Proof. unfold in_page. change PT64_ENT_PER_PAGE with 512. lia. Qed.

Lemma separated_app_r l1 l2 : separated (l1 ++ l2) -> separated l2.
Proof.
  induction l1 as [|x l1 IH]; simpl; [auto|]. intros [_ H]. auto.
Qed.

Lemma separated_head t l a :
  separated (t :: l) -> in_page t a -> forall u, In u l -> ~ in_page u a.
Proof.
  intros [Hf _] Ha u Hu. rewrite Forall_forall in Hf.
  apply in_page_separate with t; [|exact Ha].
  apply Hf. by apply list_elem_of_In.
Qed.

Section WalkLoop.
Context {ops : spte_ops}.
Variables (gfn target pfn : Z) (vcpu : kvm_vcpu).
Hypothesis Hzero : zero_not_present ops.
Hypothesis Hlarge : large_is_last ops.
Hypothesis Hnx : nx_inert gfn target pfn.
Hypothesis Htarget : 1 <= target.
Hypothesis Hgfn : 0 <= gfn < 2 ^ 64 - 1.

Lemma iter_at_in_range it pt k :
  iter_at gfn it pt k ->
  iter_valid it && (iter_gfn it <? wrap64 (gfn + 1)) = true.
Proof.
  intros (Hv & _ & _ & Hg & _). rewrite Hv, Hg. simpl.
  unfold wrap64. rewrite Z.mod_small by lia.
  pose proof (round_gfn_for_level_bounds gfn k). apply Z.ltb_lt. lia.
Qed.

Lemma iter_at_set_old_spte v it pt k :
  iter_at gfn it pt k -> iter_at gfn (set_old_spte v it) pt k.
Proof. intros (A & B & C & D & E & F). by repeat split. Qed.

(** From an entry that points to the table [c], the walker goes to the
    entry of [c] for the guest frame. *)
Lemma next_at st it pt k c :
  iter_at gfn it pt k ->
  PG_LEVEL_4K < k ->
  spte_to_child_pt (READ_ONCE st (entry_addr gfn pt k)) k = c ->
  c <> 0 ->
  iter_at gfn (tdp_iter_next st it) c (k - 1)
  /\ snapshot_current st (tdp_iter_next st it).
Proof.
  intros (Hv & Hl & Hgoal & Hg & Hs & Hmin) Hk Hc Hne.
  assert (Hm : iter_level it <> iter_min_level it) by (rewrite Hl, Hmin; lia).
  assert (Hch : spte_to_child_pt (READ_ONCE st (iter_sptep it)) (iter_level it)
                <> 0) by (rewrite Hs, Hl, Hc; exact Hne).
  destruct (tdp_iter_next_descends st it Hm Hch)
    as (A & B & C & D & E & F & G & H & I).
  rewrite Hs, Hl, Hc, Hgoal in *. split; [|exact E].
  repeat split; auto. congruence.
Qed.

Lemma walk_entry_fresh n st c k :
  READ_ONCE st (entry_addr gfn c k) = 0 -> walk_entry gfn n st c k = 0.
Proof.
  intros H. destruct n; simpl; rewrite H; [reflexivity|].
  unfold is_table_entry. by rewrite Hzero.
Qed.

Lemma walk_tables_fresh n st c k :
  READ_ONCE st (entry_addr gfn c k) = 0 -> walk_tables gfn n st c k = [c].
Proof.
  intros H. destruct n; simpl; [reflexivity|]. rewrite H.
  unfold is_table_entry. by rewrite Hzero.
Qed.

(** The walk of kvm_tdp_mmu_map gets to the target level: through the
    tables that are there, and from the first entry that does not point
    to a table on through new tables taken from the cache. When the
    pages involved do not overlap, the tables are then linked from the
    table the walk started in to the target entry, and nothing outside
    those pages was written. *)
Lemma map_loop_reaches n :
  forall fuel st it pt,
    (n < fuel)%nat ->
    iter_at gfn it pt (target + Z.of_nat n) ->
    snapshot_current st it ->
    let tabs := walk_tables gfn n st pt (target + Z.of_nat n) in
    let fresh := take (S n - length tabs) (mmu_shadow_page_cache st) in
    length fresh = (S n - length tabs)%nat ->
    Forall table_pointer fresh ->
    Forall (fun t => t <> 0) tabs ->
    separated (tabs ++ fresh) ->
    exists st' it' p,
      map_loop fuel st vcpu it gfn pfn target
      = Ok (st', mk_round true it' pfn target)
      /\ iter_level it' = target
      /\ iter_gfn it' = round_gfn_for_level gfn target
      /\ iter_sptep it' = p
      /\ iter_old_spte it' = walk_entry gfn n st pt (target + Z.of_nat n)
      /\ snapshot_current st' it'
      /\ path_in gfn st' (tabs ++ fresh) (target + Z.of_nat n) p
      /\ (forall a, (forall t, In t (tabs ++ fresh) -> ~ in_page t a) ->
            READ_ONCE st' a = READ_ONCE st a)
      /\ tdp_mmu_roots st' = tdp_mmu_roots st.
Proof.
  induction n as [|n IH]; intros fuel st it pt Hfuel Hat Hsnap tabs fresh
                                 Hlen Hptr Hnz Hsep.
  - destruct fuel as [|fuel]; [lia|]. simpl.
    rewrite (iter_at_in_range _ _ _ Hat).
    destruct Hat as (Hv & Hl & Hgoal & Hg & Hs & Hmin).
    rewrite Z.add_0_r in *.
    rewrite (map_step_at_target gfn target pfn vcpu Hnx st it Hl).
    simpl. exists st, it, (entry_addr gfn pt target).
    repeat split; auto.
    + rewrite Hsnap, Hs. reflexivity.
  - destruct fuel as [|fuel]; [lia|].
    set (k := target + Z.of_nat (S n)) in *.
    assert (Hk1 : k - 1 = target + Z.of_nat n) by (subst k; lia).
    assert (Hk : PG_LEVEL_4K < k) by (unfold PG_LEVEL_4K; subst k; lia).
    assert (Hkt : k <> target) by (subst k; lia).
    pose proof Hat as (Hv & Hl & Hgoal & Hg & Hs & Hmin).
    assert (Hold : iter_old_spte it = READ_ONCE st (entry_addr gfn pt k))
      by (rewrite Hsnap, Hs; reflexivity).
    cbn [map_loop]. rewrite (iter_at_in_range _ _ _ Hat).
    subst tabs fresh. cbn [walk_tables walk_entry] in *.
    destruct (is_table_entry (READ_ONCE st (entry_addr gfn pt k))) eqn:He.
    + (* the entry points to a table *)
      set (c := spte_to_child_pt (READ_ONCE st (entry_addr gfn pt k)) k) in *.
      rewrite (map_step_through gfn target pfn vcpu Hnx st it)
        by (rewrite ?Hl, ?Hold; auto).
      cbn [bind round_break round_iter round_pfn round_level].
      rewrite Hk1 in *.
      assert (Hc0 : c <> 0).
      { apply Forall_cons in Hnz as [_ Hnz].
        destruct n; simpl in Hnz; by apply Forall_cons in Hnz as [? _]. }
      destruct (next_at st it pt k c Hat Hk eq_refl Hc0) as [Hat' Hsnap'].
      rewrite Hk1 in Hat'.
      cbn [length Nat.sub] in *.
      apply Forall_cons in Hnz as [_ Hnz].
      destruct (IH fuel st (tdp_iter_next st it) c) as
        (st' & it' & p & Hrun & A & B & C & D & E & F & G & H); auto.
      { lia. }
      { simpl in Hsep. apply Hsep. }
      exists st', it', p. split; [exact Hrun|].
      do 5 (split; [assumption|]). split; [|split; [|exact H]].
      * assert (Hrd : READ_ONCE st' (entry_addr gfn pt k)
                      = READ_ONCE st (entry_addr gfn pt k)).
        { apply G. intros t Ht.
          eapply separated_head; [exact Hsep| |exact Ht].
          apply entry_addr_in_page. }
        cbn [app path_in].
        destruct (walk_tables gfn n st c (target + Z.of_nat n) ++ _)
          as [|t' rest'] eqn:Hts.
        { destruct n; discriminate. }
        rewrite Hrd, He. fold c.
        assert (t' = c) as ->
            by (destruct n; simpl in Hts; by injection Hts as <-).
        rewrite Hk1. auto.
      * intros a Ha. apply G. intros t Ht. apply Ha. by right.
    + (* the entry does not point to a table *)
      cbn [length Nat.sub] in *.
      destruct (mmu_shadow_page_cache st) as [|c rest] eqn:Hcache;
        [discriminate|].
      cbn [take length] in *.
      apply Forall_cons in Hptr as [(Hc0 & Hte & Hchild) Hptr].
      destruct (map_step_fill gfn target pfn vcpu Hzero Hlarge Hnx
                  st it c rest) as (st2 & v & Hstep & Hrd & Hfr & Hro & Hca);
        auto; [by rewrite Hl | by rewrite Hold|].
      rewrite Hstep.
      cbn [bind round_break round_iter round_pfn round_level].
      rewrite Hs in Hrd, Hfr.
      assert (Hat1 : iter_at gfn (set_old_spte v it) pt k)
        by by apply iter_at_set_old_spte.
      destruct (next_at st2 (set_old_spte v it) pt k c Hat1 Hk) as [Hat' Hsnap'];
        [rewrite Hrd; by apply Hchild | exact Hc0 |].
      rewrite Hk1 in Hat'.
      assert (Hpc : forall a, in_page c a -> READ_ONCE st2 a = 0).
      { intros a Ha. rewrite Hfr.
        - unfold in_page in Ha.
          replace ((c <=? a) && (a <? c + PT64_ENT_PER_PAGE)) with true;
            [reflexivity|]. symmetry. apply andb_true_iff. split; lia.
        - intros ->. revert Ha. eapply separated_head; [exact Hsep | |by left].
          apply entry_addr_in_page. }
      assert (Hfresh : READ_ONCE st2 (entry_addr gfn c (target + Z.of_nat n))
                       = 0) by (apply Hpc, entry_addr_in_page).
      assert (Htab2 : walk_tables gfn n st2 c (target + Z.of_nat n) = [c])
        by (by apply walk_tables_fresh).
      assert (Hm2 : (S n - length [c])%nat = n) by (simpl; lia).
      destruct (IH fuel st2 (tdp_iter_next st2 (set_old_spte v it)) c) as
        (st' & it' & p & Hrun & A & B & C & D & E & F & G & H); auto.
      { lia. }
      { rewrite Htab2, Hm2, Hca. simpl in Hlen. lia. }
      { by rewrite Htab2, Hm2, Hca. }
      { rewrite Htab2. by repeat constructor. }
      { rewrite Htab2, Hm2, Hca. simpl in Hsep. apply Hsep. }
      rewrite Htab2, Hm2, Hca in F, G.
      rewrite (walk_entry_fresh _ _ _ _ Hfresh) in D.
      exists st', it', p. split; [exact Hrun|].
      do 5 (split; [assumption|]). split; [|split; [|congruence]].
      * assert (Hrd' : READ_ONCE st' (entry_addr gfn pt k)
                       = make_nonleaf_spte c (shadow_accessed_mask =? 0)).
        { rewrite G; [exact Hrd|]. intros t Ht.
          eapply separated_head; [exact Hsep| |exact Ht].
          apply entry_addr_in_page. }
        cbn [app path_in]. rewrite Hrd', Hte, Hk1.
        repeat split; auto.
      * intros a Ha. rewrite G.
        -- rewrite Hfr.
           ++ destruct ((c <=? a) && (a <? c + PT64_ENT_PER_PAGE)) eqn:Hin;
                [|reflexivity].
              exfalso. apply (Ha c); [right; by left|].
              apply andb_true_iff in Hin. unfold in_page. lia.
           ++ intros ->. apply (Ha pt); [by left|apply entry_addr_in_page].
        -- intros t Ht. apply Ha. by right.
Qed.

End WalkLoop.

Section WalkAgain.
Context {ops : spte_ops}.
Variables (gfn target pfn : Z) (vcpu : kvm_vcpu).
Hypothesis Hzero : zero_not_present ops.
Hypothesis Hlarge : large_is_last ops.
Hypothesis Hnx : nx_inert gfn target pfn.
Hypothesis Htarget : 1 <= target.
Hypothesis Hgfn : 0 <= gfn < 2 ^ 64 - 1.

(** Where the tables are linked, the walk follows them to the target
    entry and writes nothing. *)
Lemma map_loop_follows ts :
  forall fuel st it k p,
    (length ts <= fuel)%nat ->
    path_in gfn st ts k p ->
    k = target + (Z.of_nat (length ts) - 1) ->
    iter_at gfn it (hd 0 ts) k ->
    snapshot_current st it ->
    exists it',
      map_loop fuel st vcpu it gfn pfn target
      = Ok (st, mk_round true it' pfn target)
      /\ iter_level it' = target
      /\ iter_gfn it' = round_gfn_for_level gfn target
      /\ iter_sptep it' = p
      /\ iter_old_spte it' = READ_ONCE st p.
Proof.
  induction ts as [|t ts IH]; intros fuel st it k p Hfuel Hpath Hk Hat Hsnap;
    [destruct Hpath|].
  destruct fuel as [|fuel]; [simpl in Hfuel; lia|].
  cbn [map_loop]. rewrite (iter_at_in_range gfn Hgfn _ _ _ Hat).
  pose proof Hat as (Hv & Hl & Hgoal & Hg & Hs & Hmin).
  cbn [hd] in *. destruct ts as [|t' rest].
  - simpl in Hpath, Hk. assert (k = target) as -> by lia.
    rewrite (map_step_at_target gfn target pfn vcpu Hnx st it Hl). simpl.
    exists it. subst p. repeat split; auto. by rewrite Hsnap, Hs.
  - cbn [path_in] in Hpath. destruct Hpath as (He & Hc & Hne & Hpath).
    cbn [length] in Hk, Hfuel.
    assert (Hkt : k <> target) by lia.
    assert (Hk4 : PG_LEVEL_4K < k) by (unfold PG_LEVEL_4K; lia).
    rewrite (map_step_through gfn target pfn vcpu Hnx st it)
      by (rewrite ?Hl, ?Hsnap, ?Hs; auto).
    cbn [bind round_break round_iter round_pfn round_level].
    destruct (next_at gfn st it t k t' Hat Hk4 Hc Hne) as [Hat' Hsnap'].
    apply (IH fuel st (tdp_iter_next st it) (k - 1) p); auto.
    + simpl. lia.
    + cbn [length]. lia.
Qed.

Lemma path_in_last st ts k p :
  path_in gfn st ts k p -> exists t, In t ts /\ in_page t p.
Proof.
  revert k. induction ts as [|t ts IH]; intros k; [intros []|].
  cbn [path_in]. destruct ts as [|t' rest].
  - intros ->. exists t. split; [by left | apply entry_addr_in_page].
  - intros (_ & _ & _ & H). destruct (IH _ H) as (u & Hu & Hp).
    exists u. split; [by right | exact Hp].
Qed.

(** The links of a path are untouched by a write to its last entry. *)
Lemma path_in_frame st st' ts k p :
  separated ts ->
  path_in gfn st ts k p ->
  (forall a, a <> p -> READ_ONCE st' a = READ_ONCE st a) ->
  path_in gfn st' ts k p.
Proof.
  intros Hsep Hpath Hfr. revert k Hsep Hpath.
  induction ts as [|t ts IH]; intros k Hsep Hpath; [destruct Hpath|].
  cbn [path_in] in *. destruct ts as [|t' rest]; [exact Hpath|].
  destruct Hpath as (He & Hc & Hne & Hpath).
  assert (Hrd : READ_ONCE st' (entry_addr gfn t k)
                = READ_ONCE st (entry_addr gfn t k)).
  { apply Hfr. intros Heq.
    destruct (path_in_last _ _ _ _ Hpath) as (u & Hu & Hp).
    rewrite <- Heq in Hp. revert Hp.
    eapply separated_head; [exact Hsep | apply entry_addr_in_page | exact Hu]. }
  rewrite Hrd. repeat split; auto. apply IH; [apply Hsep | exact Hpath].
Qed.

Lemma walk_tables_length n st pt k :
  (1 <= length (walk_tables gfn n st pt k) <= S n)%nat.
Proof.
  revert pt k. induction n as [|n IH]; intros pt k; simpl; [lia|].
  destruct (is_table_entry _); simpl; [|lia].
  specialize (IH (spte_to_child_pt (READ_ONCE st (entry_addr gfn pt k)) k)
                 (k - 1)). lia.
Qed.

Lemma walk_tables_hd n st pt k : hd 0 (walk_tables gfn n st pt k) = pt.
Proof. by destruct n. Qed.

Lemma iter_at_start st root_pt root_level :
  iter_at gfn (tdp_iter_start st root_pt root_level PG_LEVEL_4K gfn)
          root_pt root_level.
Proof.
  unfold iter_at, tdp_iter_start, tdp_iter_refresh_sptep, entry_addr, pt_of.
  simpl. rewrite lookup_singleton_eq. by repeat split.
Qed.

End WalkAgain.

Lemma find_app_Some {A} (f : A -> bool) l l' x :
  List.find f l = Some x -> List.find f (l ++ l') = Some x.
Proof.
  induction l as [|y l IH]; simpl; [discriminate|].
  destruct (f y); auto.
Qed.

Section Target.
Context {ops : spte_ops}.

Lemma is_tdp_mmu_root_of_roots st hpa root :
  find_root st (sptep_to_sp (__va hpa)) = Some root ->
  sp_tdp_mmu_page root = true ->
  (sp_root_count root =? 0) = false ->
  is_tdp_mmu_root st hpa = true.
Proof.
  intros Hf Ht Hc. unfold is_tdp_mmu_root, page_header.
  unfold find_root in Hf. rewrite (find_app_Some _ _ _ _ Hf).
  by rewrite Ht, Hc.
Qed.

(** The target entry is written when the entry built differs from the
    one found there, and 0 is returned. *)
Lemma target_level_installs st write map_writable it pfn prefault flags new_spte :
  is_noslot_pfn pfn = false ->
  make_spte ACC_ALL (iter_level it) (iter_gfn it) pfn (iter_old_spte it)
            prefault true map_writable (shadow_accessed_mask =? 0)
  = (flags, new_spte) ->
  (new_spte =? iter_old_spte it) = false ->
  no_child_table (iter_old_spte it) (iter_level it) = true ->
  bug_transition (iter_old_spte it) new_spte (iter_level it) = false ->
  Z.land flags SET_SPTE_WRITE_PROTECTED_PT = 0 ->
  is_mmio_spte new_spte = false ->
  exists st',
    tdp_mmu_map_handle_target_level st write map_writable it pfn prefault
    = Ok (st', 0)
    /\ READ_ONCE st' (iter_sptep it) = new_spte
    /\ (forall a, a <> iter_sptep it -> READ_ONCE st' a = READ_ONCE st a)
    /\ tdp_mmu_roots st' = tdp_mmu_roots st.
Proof.
  intros Hslot Hmk Hne Hflat Hbug Hwp Hmmio.
  unfold tdp_mmu_map_handle_target_level. rewrite Hslot, Hmk, Hne.
  destruct (tdp_mmu_set_spte_no_child st it new_spte Hflat Hbug)
    as (s1 & Hset & Heq).
  rewrite Hset. cbn [bind]. rewrite Hwp, Hmmio. cbn [Z.eqb negb].
  assert (Hb : heap_eq s1 (if negb prefault then bump_pf_fixed s1 else s1))
    by (destruct prefault; by repeat split).
  eexists. split; [reflexivity|].
  pose proof (heap_eq_trans _ _ _ Heq Hb) as Heq'.
  split; [|split].
  - rewrite (heap_eq_READ _ _ _ Heq'). apply READ_ONCE_WRITE_ONCE.
  - intros a Ha. rewrite (heap_eq_READ _ _ _ Heq').
    apply READ_ONCE_WRITE_ONCE_ne. congruence.
  - by destruct Heq' as (_ & -> & _).
Qed.

(** Nothing is written when the entry built is the one found, and
    "spurious" is returned. *)
Lemma target_level_spurious st write map_writable it pfn prefault flags new_spte :
  is_noslot_pfn pfn = false ->
  make_spte ACC_ALL (iter_level it) (iter_gfn it) pfn (iter_old_spte it)
            prefault true map_writable (shadow_accessed_mask =? 0)
  = (flags, new_spte) ->
  new_spte = iter_old_spte it ->
  Z.land flags SET_SPTE_WRITE_PROTECTED_PT = 0 ->
  is_mmio_spte new_spte = false ->
  exists st',
    tdp_mmu_map_handle_target_level st write map_writable it pfn prefault
    = Ok (st', RET_PF_SPURIOUS)
    /\ mem st' = mem st /\ trace st' = trace st.
Proof.
  intros Hslot Hmk Heq Hwp Hmmio.
  unfold tdp_mmu_map_handle_target_level. rewrite Hslot, Hmk.
  rewrite <- Heq, Z.eqb_refl. cbn [bind]. rewrite Hwp, Hmmio.
  cbn [Z.eqb negb]. eexists. split; [reflexivity|].
  by destruct prefault.
Qed.

End Target.

(** ** The fault path as a whole *)

Section FaultPath.
Context {ops : spte_ops}.
Hypothesis Hzero : zero_not_present ops.
Hypothesis Hlarge : large_is_last ops.

Lemma gfn_of_gpa gpa :
  0 <= gpa < 2 ^ 64 -> 0 <= Z.shiftr gpa PAGE_SHIFT < 2 ^ 64 - 1.
Proof.
  intros H. unfold PAGE_SHIFT. rewrite Z.shiftr_div_pow2 by lia.
  split; [apply Z.div_pos; lia|].
  apply Z.lt_le_trans with (2 ^ 52); [|lia].
  apply Z.div_lt_upper_bound; lia.
Qed.

(** kvm_tdp_mmu_map up to the last level: the guards pass, the loop
    builds what is missing of the path and leaves at the entry of the
    level; what is left to run is the handler of that entry. *)
Lemma kvm_tdp_mmu_map_walk fuel st vcpu gpa error_code map_writable max_level
      pfn prefault level pfn' req_level :
  let gfn := Z.shiftr gpa PAGE_SHIFT in
  0 <= gpa < 2 ^ 64 ->
  fault_walk_ready st vcpu gfn level ->
  (Z.to_nat (shadow_root_level vcpu - level) < fuel)%nat ->
  kvm_mmu_hugepage_adjust gfn max_level pfn
    (negb (Z.land error_code PFERR_FETCH_MASK =? 0) && is_nx_huge_page_enabled)
  = (level, pfn', req_level) ->
  nx_inert gfn level pfn' ->
  exists st' it,
    kvm_tdp_mmu_map fuel st vcpu gpa error_code map_writable max_level pfn
                    prefault
    = tdp_mmu_map_handle_target_level st'
        (negb (Z.land error_code PFERR_WRITE_MASK =? 0)) map_writable it pfn'
        prefault
    /\ iter_level it = level
    /\ iter_gfn it = round_gfn_for_level gfn level
    /\ iter_old_spte it = fault_target_entry st vcpu gfn level
    /\ snapshot_current st' it
    /\ path_in gfn st' (fault_tables st vcpu gfn level
                        ++ fault_pages st vcpu gfn level)
               (shadow_root_level vcpu) (iter_sptep it)
    /\ tdp_mmu_roots st' = tdp_mmu_roots st.
Proof.
  intros gfn Hgpa (Hvalid & (root & Hfind & Htdp & Hcount) & Hlevel & Hlen
                   & Hptr & Hnz & Hsep) Hfuel Hadj Hnx.
  set (n := Z.to_nat (shadow_root_level vcpu - level)) in *.
  assert (HR : shadow_root_level vcpu = level + Z.of_nat n)
    by (unfold n; lia).
  destruct (map_loop_reaches gfn level pfn' vcpu Hzero Hlarge Hnx
              (proj1 Hlevel) (gfn_of_gpa gpa Hgpa) n fuel st
              (tdp_iter_start st (__va (root_hpa vcpu))
                              (shadow_root_level vcpu) PG_LEVEL_4K gfn)
              (__va (root_hpa vcpu)) Hfuel)
    as (st' & it' & p & Hrun & Hl & Hg & Hp & Hold & Hsnap & Hpath & _ & Hroots).
  - rewrite <- HR. apply iter_at_start.
  - apply snapshot_start.
  - rewrite <- HR. exact Hlen.
  - rewrite <- HR. exact Hptr.
  - rewrite <- HR. exact Hnz.
  - rewrite <- HR. exact Hsep.
  - exists st', it'. rewrite <- HR in Hold, Hpath. subst p.
    split; [|by repeat split].
    unfold kvm_tdp_mmu_map. fold gfn. rewrite Hvalid.
    rewrite (is_tdp_mmu_root_of_roots _ _ _ Hfind Htdp Hcount).
    cbn [negb]. rewrite Hadj.
    lazymatch goal with
    | |- bind ?m _ = _ =>
        assert (Hm : m = Ok (st', mk_round true it' pfn' level)) by exact Hrun;
        rewrite Hm
    end.
    cbn [bind round_iter round_level round_pfn]. rewrite Hl, Z.eqb_refl.
    reflexivity.
Qed.

End FaultPath.

Section FaultTwice.
Context {ops : spte_ops}.

Lemma hd_app_walk_tables gfn n st pt k l :
  hd 0 (walk_tables gfn n st pt k ++ l) = pt.
Proof. by destruct n. Qed.


End FaultTwice.

Lemma x86_large_is_last : large_is_last x86_ops.
Proof.
  intros pte level H. simpl in *. unfold X86.is_last_spte.
  rewrite H. apply orb_true_r.
Qed.

Lemma x86_mmio_not_present : mmio_not_present x86_ops.
Proof.
  intros pte H. simpl in *. unfold X86.is_shadow_present_pte.
  rewrite H. apply andb_false_r.
Qed.

(** Page 32, the first page of the cache of [sample_tree], can be
    linked into a tree. *)
Lemma x86_table_pointer_page_32 : table_pointer (ops := x86_ops) (512 * 32).
Proof.
  split; [discriminate|]. split; [reflexivity|].
  intros k Hk. simpl. unfold X86.spte_to_child_pt, X86.is_last_spte.
  unfold PG_LEVEL_4K in *.
  destruct (Z.eqb_spec k 1) as [->|_]; [lia|]. reflexivity.
Qed.

(** The write fault on guest frame 600 of [sample_tree], which lies in
    the large leaf of the frames 512..1023, is one of those. *)
Lemma sample_fault_walk_ready :
  fault_walk_ready (ops := x86_ops) sample_tree sample_vcpu 600 1.
Proof.
  split; [reflexivity|].
  split; [exists sample_root; by repeat split|].
  split; [simpl; lia|].
  split; [reflexivity|].
  split; [exact (Forall_cons_2 _ _ _ x86_table_pointer_page_32 (Forall_nil_2 _))|].
  split.
  - repeat (apply Forall_cons_2; [discriminate|]). apply Forall_nil_2.
  - vm_compute. repeat split; repeat constructor; discriminate.
Qed.



Section NoSlot.
Context {ops : spte_ops}.

(** At the entry of the level, a frame without a memory slot gets the
    MMIO entry, and RET_PF_EMULATE is returned, whether the entry was
    written now or found. *)
Lemma target_level_mmio st write map_writable it pfn prefault :
  mmio_not_present ops ->
  is_noslot_pfn pfn = true ->
  is_mmio_spte (make_mmio_spte (iter_gfn it) ACC_ALL) = true ->
  no_child_table (iter_old_spte it) (iter_level it) = true ->
  snapshot_current st it ->
  exists st',
    tdp_mmu_map_handle_target_level st write map_writable it pfn prefault
    = Ok (st', RET_PF_EMULATE)
    /\ READ_ONCE st' (iter_sptep it) = make_mmio_spte (iter_gfn it) ACC_ALL
    /\ (iter_old_spte it <> make_mmio_spte (iter_gfn it) ACC_ALL ->
        In (spte_changed (iter_gfn it) (iter_old_spte it)
                         (make_mmio_spte (iter_gfn it) ACC_ALL) (iter_level it))
           (events_since st st')).
Proof.
  intros Hmmio Hslot Hm Hflat Hsnap.
  unfold tdp_mmu_map_handle_target_level. rewrite Hslot, Hm.
  rewrite Z.land_0_l. cbn [Z.eqb negb].
  set (new_spte := make_mmio_spte (iter_gfn it) ACC_ALL) in *.
  destruct (Z.eqb_spec new_spte (iter_old_spte it)) as [Heq|Hne].
  - cbn [bind]. eexists. split; [reflexivity|]. split.
    + rewrite Heq, Hsnap. by destruct prefault.
    + congruence.
  - assert (Hbug : bug_transition (iter_old_spte it) new_spte (iter_level it)
                   = false).
    { unfold bug_transition, was_leaf. rewrite (Hmmio _ Hm). simpl.
      by rewrite andb_false_r. }
    destruct (tdp_mmu_set_spte_no_child st it new_spte Hflat Hbug)
      as (s1 & Hset & Heq).
    pose proof (tdp_mmu_set_spte_head st it new_spte s1 Hset) as Hhead.
    rewrite Hset. cbn [bind]. eexists. split; [reflexivity|]. split.
    + assert (Hb : heap_eq s1 (if negb prefault then bump_pf_fixed s1 else s1))
        by (destruct prefault; by repeat split).
      rewrite (heap_eq_READ _ _ _ (heap_eq_trans _ _ _ Heq Hb)).
      apply READ_ONCE_WRITE_ONCE.
    + intros _.
      assert (He : events_since st (if negb prefault then bump_pf_fixed s1
                                    else s1) = events_since st s1)
        by (by destruct prefault).
      rewrite He. destruct Hhead as (rest & ->). by left.
Qed.

End NoSlot.

Section NoSlotFault.
Context {ops : spte_ops}.

(** C10: a fault whose frame has no memory slot leaves the MMIO entry
    of the guest frame in the entry of the level of the fault, at the
    end of the path from the root, and returns RET_PF_EMULATE. The
    fault is one kvm_tdp_mmu_map resolves: the root of the vCPU is
    registered, the cache holds the pages the walk needs, and the entry
    the walk finds at the level is not a table. *)
Theorem C10_noslot_fault_installs_mmio_and_needs_emulation :
  zero_not_present ops -> large_is_last ops -> mmio_not_present ops ->
  forall fuel st vcpu gpa error_code map_writable max_level pfn prefault
         level pfn' req_level,
    let gfn := Z.shiftr gpa PAGE_SHIFT in
    let mmio := make_mmio_spte (round_gfn_for_level gfn level) ACC_ALL in
    0 <= gpa < 2 ^ 64 ->
    fault_walk_ready st vcpu gfn level ->
    (Z.to_nat (shadow_root_level vcpu - level) < fuel)%nat ->
    kvm_mmu_hugepage_adjust gfn max_level pfn
      (negb (Z.land error_code PFERR_FETCH_MASK =? 0)
       && is_nx_huge_page_enabled)
    = (level, pfn', req_level) ->
    nx_inert gfn level pfn' ->
    is_noslot_pfn pfn' = true ->
    is_mmio_spte mmio = true ->
    no_child_table (fault_target_entry st vcpu gfn level) level = true ->
    exists st' p,
      kvm_tdp_mmu_map fuel st vcpu gpa error_code map_writable max_level pfn
                      prefault = Ok (st', RET_PF_EMULATE)
      /\ path_in gfn st' (fault_tables st vcpu gfn level
                          ++ fault_pages st vcpu gfn level)
                 (shadow_root_level vcpu) p
      /\ READ_ONCE st' p = mmio.
Proof.
  intros Hzero Hlarge Hmmio fuel st vcpu gpa error_code map_writable max_level
         pfn prefault level pfn' req_level gfn mmio
         Hgpa Hready Hfuel Hadj Hnx Hslot Hm Hflat.
  destruct (kvm_tdp_mmu_map_walk Hzero Hlarge fuel st vcpu gpa error_code
              map_writable max_level pfn prefault level pfn' req_level
              Hgpa Hready Hfuel Hadj Hnx)
    as (s & it & Hrun & Hl & Hg & Hold & Hsnap & Hpath & Hroots).
  fold gfn in Hg, Hold, Hpath.
  assert (Hsep : separated (fault_tables st vcpu gfn level
                            ++ fault_pages st vcpu gfn level))
    by apply Hready.
  destruct (Z.eq_dec (iter_old_spte it) mmio) as [Heq|Hne].
  - destruct (target_level_mmio s
                (negb (Z.land error_code PFERR_WRITE_MASK =? 0)) map_writable
                it pfn' prefault Hmmio Hslot)
      as (st' & Hres & Hread & _);
      try (rewrite ?Hl, ?Hg, ?Hold; assumption).
    exists st', (iter_sptep it). rewrite Hrun. split; [exact Hres|].
    rewrite Hg in Hread. split; [|exact Hread].
    apply path_in_frame with s; [exact Hsep | exact Hpath |].
    intros a _. revert Hres.
    unfold tdp_mmu_map_handle_target_level. rewrite Hslot.
    rewrite Hg. fold mmio. rewrite <- Heq, Z.eqb_refl. cbn [bind].
    rewrite Z.land_0_l. cbn [Z.eqb negb].
    intros [= <- _]. by destruct prefault.
  - assert (Hbug : bug_transition (iter_old_spte it) mmio (iter_level it)
                   = false).
    { unfold bug_transition, was_leaf. rewrite (Hmmio _ Hm). simpl.
      by rewrite andb_false_r. }
    assert (Hflat' : no_child_table (iter_old_spte it) (iter_level it) = true)
      by (by rewrite Hl, Hold).
    destruct (tdp_mmu_set_spte_no_child s it mmio Hflat' Hbug)
      as (s1 & Hset & Hheap).
    exists (if negb prefault then bump_pf_fixed s1 else s1), (iter_sptep it).
    assert (Hb : heap_eq (WRITE_ONCE s (iter_sptep it) mmio)
                         (if negb prefault then bump_pf_fixed s1 else s1)).
    { apply heap_eq_trans with s1; [exact Hheap|].
      destruct prefault; by repeat split. }
    split; [|split].
    + rewrite Hrun. unfold tdp_mmu_map_handle_target_level.
      rewrite Hslot, Hg. fold mmio.
      destruct (Z.eqb_spec mmio (iter_old_spte it)) as [E|_]; [congruence|].
      rewrite Hset. cbn [bind]. rewrite Z.land_0_l. cbn [Z.eqb negb].
      by rewrite Hm.
    + apply path_in_frame with s; [exact Hsep | exact Hpath |].
      intros a Ha. rewrite (heap_eq_READ _ _ _ Hb).
      apply READ_ONCE_WRITE_ONCE_ne. congruence.
    + rewrite (heap_eq_READ _ _ _ Hb). apply READ_ONCE_WRITE_ONCE.
Qed.

End NoSlotFault.

Lemma C10_witness :
  exists st' p,
    kvm_tdp_mmu_map 8 sample_tree sample_vcpu (600 * 4096) 2 1 1
                    X86.KVM_PFN_NOSLOT false = Ok (st', RET_PF_EMULATE)
    /\ path_in 600 st' [512 * 16; 512 * 17; 512 * 18; 512 * 32] 4 p
    /\ READ_ONCE st' p = X86.make_mmio_spte 600 7.
Proof.
  apply (C10_noslot_fault_installs_mmio_and_needs_emulation (ops := x86_ops)
           x86_zero_not_present x86_large_is_last x86_mmio_not_present
           8%nat sample_tree sample_vcpu (600 * 4096) 2 1 1
           X86.KVM_PFN_NOSLOT false 1 X86.KVM_PFN_NOSLOT 1).
  - lia.
  - exact sample_fault_walk_ready.
  - simpl. lia.
  - reflexivity.
  - left. reflexivity.
  - reflexivity.
  - reflexivity.
  - reflexivity.
Defined.

(** * Further properties of tdp_mmu.c *)

(** ** The change handler *)

Section HandlerOutcome.
Context {ops : spte_ops}.


End HandlerOutcome.


(** ** What the range operations record *)

Section HandlerEvents.
Context {ops : spte_ops}.

Lemma handler_event_entry_warnings gfn level :
  Forall (fun e => handler_event e = true) (entry_warnings gfn level).
Proof.
  unfold entry_warnings.
  repeat match goal with |- context [if ?c then _ else _] => destruct c end;
    simpl; repeat constructor.
Qed.

(** A call of the handler records its own entry and then calls of the
    handler only: it does not drop the lock and does not ask for the
    remote flush of the whole VM. *)
Lemma handle_changed_spte_handler_events depth :
  forall st as_id gfn old_spte new_spte level st',
    handle_changed_spte_rec depth st as_id gfn old_spte new_spte level = Ok st' ->
    exists evs,
      trace st' = trace st ++ spte_changed gfn old_spte new_spte level :: evs
      /\ Forall (fun e => handler_event e = true) evs.
Proof.
  induction depth as [|depth IH]; intros st as_id gfn old new level st';
    rewrite handle_changed_spte_rec_eq; cbv zeta; intros Hrun.
  all: pose proof (handler_event_entry_warnings gfn level) as Hw.
  all: repeat match type of Hrun with
              | (if ?c then _ else _) = _ => destruct c
              end; try discriminate.
  all: try (injection Hrun as <-; unfold handler_dirty;
            try destruct (dirty_harvest old new level); simpl;
            rewrite trace_handler_enter, <- ?app_assoc; simpl;
            eexists; (split; [reflexivity|]);
            repeat first [ exact Hw | apply Forall_nil_2
                         | (apply Forall_cons_2; [reflexivity|])
                         | (apply Forall_app; split) ]).
  apply bind_Ok in Hrun as (s3 & Hloop & [= <-]).
  apply (for_each_rel
           (fun s s' => exists e, trace s' = trace s ++ e
                                  /\ Forall (fun e => handler_event e = true) e))
    in Hloop.
  - destruct Hloop as (e & He & Hz). simpl. rewrite He. unfold handler_dirty.
    destruct (dirty_harvest old new level); simpl;
      rewrite trace_handler_enter, <- ?app_assoc; simpl;
      rewrite <- ?app_assoc; simpl;
      (eexists; split; [reflexivity|]);
      repeat first [ exact Hw | exact Hz | apply Forall_nil_2
                   | (apply Forall_cons_2; [reflexivity|])
                   | (apply Forall_app; split) ].
  - intros s. exists []. by rewrite app_nil_r.
  - intros s1 s2 s3' (e1 & H1 & Z1) (e2 & H2 & Z2). exists (e1 ++ e2).
    rewrite H2, H1, app_assoc. split; [reflexivity|].
    apply Forall_app; auto.
  - intros s x s' _ Hb. apply IH in Hb as (e & He & Hz). simpl in He.
    eexists. split; [exact He|]. constructor; [reflexivity | exact Hz].
Qed.

Lemma tdp_mmu_set_spte_handler_events st it new_spte st' :
  tdp_mmu_set_spte st it new_spte = Ok st' ->
  exists evs,
    trace st' = trace st
                ++ spte_changed (iter_gfn it) (iter_old_spte it) new_spte
                                (iter_level it) :: evs
    /\ Forall (fun e => handler_event e = true) evs.
Proof.
  unfold tdp_mmu_set_spte, handle_changed_spte, __handle_changed_spte.
  intros H. apply handle_changed_spte_handler_events in H as (evs & He & Hz).
  simpl in He. eauto.
Qed.

(** One round of the loop of zap_gfn_range, by what it records: nothing
    (the state is the same); or the change of the present entry to
    zero and the calls of the handler, and then, when the round may
    yield and the scheduler asks for it, the remote flush and the
    yield, in this order. *)
Lemma zap_step_events st it start end_ can_yield f st' it' f' :
  zap_step st it start end_ can_yield f = Ok (st', it', f') ->
  (st' = st /\ f' = f)
  \/ exists evs,
       is_shadow_present_pte (iter_old_spte it) = true
       /\ Forall (fun e => handler_event e = true) evs
       /\ (trace st' = trace st
                       ++ spte_changed (iter_gfn it) (iter_old_spte it) 0
                                       (iter_level it) :: evs
           /\ f' = true
           \/ trace st' = trace st
                          ++ (spte_changed (iter_gfn it) (iter_old_spte it) 0
                                           (iter_level it) :: evs)
                          ++ [kvm_flush_remote_tlbs; cond_resched_lock]
              /\ f' = false /\ can_yield = true).
Proof.
  unfold zap_step.
  destruct (is_shadow_present_pte (iter_old_spte it)) eqn:Hp; simpl;
    [|intros [= <- <- <-]; by left].
  match goal with |- (if ?c then _ else _) = _ -> _ => destruct c end;
    [intros [= <- <- <-]; by left|].
  intros H. apply bind_Ok in H as (s1 & Hset & H). right.
  apply tdp_mmu_set_spte_handler_events in Hset as (evs & He & Hh).
  exists evs. split; [reflexivity|]. split; [exact Hh|].
  destruct can_yield.
  - injection H as H. revert H.
    unfold tdp_mmu_iter_flush_cond_resched, need_resched.
    destruct (resched s1) as [|[] rest]; simpl; intros [= <- <- <-]; simpl.
    + left. by split.
    + right. rewrite He, <- !app_assoc. by repeat split.
    + left. by split.
  - injection H as <- <- <-. left. by split.
Qed.

(** A relation between the state and the flag before and after that
    holds across each round holds across the loop. *)
Lemma zap_loop_rel (Q : kvm * bool -> kvm * bool -> Prop) start end_ can_yield :
  (forall a, Q a a) ->
  (forall a b c, Q a b -> Q b c -> Q a c) ->
  (forall st it f st' it' f',
      zap_step st it start end_ can_yield f = Ok (st', it', f') ->
      Q (st, f) (st', f')) ->
  forall fuel st it f st' f',
    zap_loop fuel st it start end_ can_yield f = Ok (st', f') ->
    Q (st, f) (st', f').
Proof.
  intros Hrefl Htrans Hstep.
  induction fuel as [|fuel IH]; intros st it f st' f'; simpl;
    destruct (iter_valid it && (iter_gfn it <? end_)); try discriminate;
    try (intros [= <- <-]; apply Hrefl).
  intros H. apply bind_Ok in H as ([[s1 it1] f1] & H1 & H2).
  eapply Htrans; [eapply Hstep; exact H1 | eapply IH; exact H2].
Qed.

End HandlerEvents.

Lemma handler_event_no_yield l :
  Forall (fun e => handler_event e = true) l -> ~ In cond_resched_lock l.
Proof.
  intros H Hin. rewrite Forall_forall in H.
  apply list_elem_of_In in Hin. apply H in Hin. discriminate.
Qed.

Lemma yields_after_flush_none l :
  ~ In cond_resched_lock l -> yields_after_flush l.
Proof. intros Hn l1 l2 ->. destruct Hn. apply in_elt. Qed.

Lemma yields_after_flush_last l :
  ~ In cond_resched_lock l ->
  yields_after_flush (l ++ [kvm_flush_remote_tlbs; cond_resched_lock]).
Proof.
  induction l as [|x l IH]; intros Hn l1 l2 H.
  - destruct l1 as [|a [|b l1]]; simpl in H.
    + discriminate.
    + injection H as <- _. by exists [].
    + injection H as _ _ H. by destruct l1.
  - destruct l1 as [|a l1]; simpl in H.
    + injection H as -> _. destruct Hn. by left.
    + injection H as <- H. destruct (IH (fun Hi => Hn (or_intror Hi)) _ _ H)
        as [l0 ->].
      by exists (x :: l0).
Qed.

Lemma yields_after_flush_app a b :
  yields_after_flush a -> yields_after_flush b -> yields_after_flush (a ++ b).
Proof.
  intros Ha Hb l1 l2 H. apply app_eq_app in H as [l [[-> H] | [-> H]]].
  - destruct l as [|y l]; simpl in H.
    + destruct (Hb [] l2 (eq_sym H)) as [l0 Hl0]. by destruct l0.
    + injection H as <- ->. destruct (Ha l1 l eq_refl) as [l0 ->].
      by exists l0.
  - destruct (Hb _ _ H) as [l0 ->]. exists (a ++ l0). by rewrite app_assoc.
Qed.

Lemma flush_pending_app p a b :
  flush_pending p (a ++ b) = flush_pending (flush_pending p a) b.
Proof. unfold flush_pending. apply fold_left_app. Qed.

Lemma flush_pending_handler_events p l :
  Forall (fun e => handler_event e = true) l ->
  flush_pending p l = true \/ flush_pending p l = p.
Proof.
  revert p. induction l as [|e l IH]; intros p H; [by right|].
  apply Forall_cons in H as [He Hl]. destruct e; try discriminate; simpl.
  all: try (apply IH; exact Hl).
  destruct (IH true Hl) as [E|E]; left; exact E.
Qed.

Lemma flush_pending_after_change p g o n lv l :
  Forall (fun e => handler_event e = true) l ->
  flush_pending p (spte_changed g o n lv :: l) = true.
Proof.
  intros H. simpl. fold (flush_pending true l).
  by destruct (flush_pending_handler_events true l H).
Qed.

Section ZapTrace.
Context {ops : spte_ops}.

(** Across the loop of zap_gfn_range: the lock is dropped only just
    after the remote flush, and the flag the loop carries says whether
    a flush is pending. *)
Lemma zap_loop_flush fuel st it start end_ can_yield f st' f' :
  zap_loop fuel st it start end_ can_yield f = Ok (st', f') ->
  extends st st'
  /\ yields_after_flush (events_since st st')
  /\ (events_since st st' = [] /\ f' = f
      \/ forall p, flush_pending p (events_since st st') = f').
Proof.
  apply (zap_loop_rel
           (fun a b =>
              extends (fst a) (fst b)
              /\ yields_after_flush (events_since (fst a) (fst b))
              /\ (events_since (fst a) (fst b) = [] /\ snd b = snd a
                  \/ forall p,
                      flush_pending p (events_since (fst a) (fst b)) = snd b))).
  - intros [s b]. simpl. rewrite events_since_refl.
    split; [exists []; by rewrite app_nil_r|].
    split; [apply yields_after_flush_none; intros []|]. by left.
  - intros [s1 b1] [s2 b2] [s3 b3]; simpl.
    intros (E1 & Y1 & P1) (E2 & Y2 & P2).
    rewrite (events_since_trans _ _ _ E1 E2).
    split; [destruct E1 as [e1 H1], E2 as [e2 H2]; exists (e1 ++ e2);
            by rewrite H2, H1, app_assoc|].
    split; [by apply yields_after_flush_app|].
    destruct P2 as [[-> ->] | P2].
    + rewrite app_nil_r. exact P1.
    + right. intros p. rewrite flush_pending_app. apply P2.
  - intros s i b s' i' b' Hstep. simpl.
    apply zap_step_events in Hstep
      as [[-> ->] | (evs & _ & Hh & [[He ->] | (He & -> & _)])].
    + rewrite events_since_refl.
      split; [exists []; by rewrite app_nil_r|].
      split; [apply yields_after_flush_none; intros []|]. by left.
    + rewrite (events_since_app _ _ _ He).
      split; [eexists; exact He|].
      split.
      * apply yields_after_flush_none. intros [Hx | Hx]; [discriminate|].
        by apply handler_event_no_yield in Hh.
      * right. intros p. by apply flush_pending_after_change.
    + rewrite (events_since_app _ _ _ He).
      split; [eexists; exact He|].
      split.
      * apply yields_after_flush_last. intros [Hx | Hx]; [discriminate|].
        by apply handler_event_no_yield in Hh.
      * right. intros p. by rewrite flush_pending_app.
Qed.

(** Across the loop of zap_gfn_range that may not yield: nothing but
    the handler is called; the flag stays false only while nothing is
    changed, and turns true only by setting a present entry to zero. *)
Lemma zap_loop_no_yield fuel st it start end_ f st' f' :
  zap_loop fuel st it start end_ false f = Ok (st', f') ->
  extends st st'
  /\ Forall (fun e => handler_event e = true) (events_since st st')
  /\ (f' = false -> st' = st /\ f = false)
  /\ (f' = true ->
      f = true \/ exists e, In e (events_since st st') /\ zapped e = true).
Proof.
  apply (zap_loop_rel
           (fun a b =>
              extends (fst a) (fst b)
              /\ Forall (fun e => handler_event e = true)
                        (events_since (fst a) (fst b))
              /\ (snd b = false -> fst b = fst a /\ snd a = false)
              /\ (snd b = true ->
                  snd a = true
                  \/ exists e, In e (events_since (fst a) (fst b))
                               /\ zapped e = true))).
  - intros [s b]. simpl. rewrite events_since_refl.
    split; [exists []; by rewrite app_nil_r|].
    split; [constructor|]. split; [done|]. by left.
  - intros [s1 b1] [s2 b2] [s3 b3]; simpl.
    intros (E1 & H1 & F1 & T1) (E2 & H2 & F2 & T2).
    rewrite (events_since_trans _ _ _ E1 E2).
    split; [destruct E1 as [e1 K1], E2 as [e2 K2]; exists (e1 ++ e2);
            by rewrite K2, K1, app_assoc|].
    split; [by apply Forall_app|]. split.
    + intros Hb. destruct (F2 Hb) as [-> Hb2]. by apply F1.
    + intros Hb. destruct (T2 Hb) as [Hb2 | (e & Hin & Hz)].
      * destruct (T1 Hb2) as [? | (e & Hin & Hz)]; [by left|].
        right. exists e. split; [|exact Hz]. apply in_or_app. by left.
      * right. exists e. split; [|exact Hz]. apply in_or_app. by right.
  - intros s i b s' i' b' Hstep. simpl.
    apply zap_step_events in Hstep
      as [[-> ->] | (evs & Hp & Hh & [[He ->] | (_ & _ & Hy)])];
      [| |discriminate].
    + rewrite events_since_refl.
      split; [exists []; by rewrite app_nil_r|].
      split; [constructor|]. split; [done|]. by left.
    + rewrite (events_since_app _ _ _ He).
      split; [eexists; exact He|].
      split; [by constructor|]. split; [discriminate|].
      intros _. right. eexists. split; [by left|]. simpl. by rewrite Hp.
Qed.

End ZapTrace.

Section ZapResults.
Context {ops : spte_ops}.

(** X2. zap_gfn_range that may not yield (as kvm_tdp_mmu_free_root and
    the hva wrapper call it) calls nothing but the change handler: it
    does not drop the lock and does not flush, which is left to the
    caller. It returns false only when it changed nothing at all, the
    state is then the one it started from; it returns true only when
    it set a present entry to zero. *)
Theorem X2_zap_without_yield_tells_whether_it_cleared :
  forall fuel st root start end_ st' flush,
    zap_gfn_range fuel st root start end_ false = Ok (st', flush) ->
    Forall (fun e => handler_event e = true) (events_since st st')
    /\ if flush
       then exists e, In e (events_since st st') /\ zapped e = true
       else st' = st.
Proof.
  intros fuel st root start end_ st' flush H.
  apply zap_loop_no_yield in H as (_ & Hh & Hf & Ht).
  split; [exact Hh|]. destruct flush.
  - by destruct (Ht eq_refl).
  - by destruct (Hf eq_refl).
Qed.

(** X3. The value zap_gfn_range returns is true exactly when a remote
    TLB flush is pending at the end: an entry was written after the
    last kvm_flush_remote_tlbs of the call, or no such flush was made
    and an entry was written. *)
Theorem X3_zap_returns_whether_a_flush_is_pending :
  forall fuel st root start end_ can_yield st' flush,
    zap_gfn_range fuel st root start end_ can_yield = Ok (st', flush) ->
    flush = flush_pending false (events_since st st').
Proof.
  intros fuel st root start end_ can_yield st' flush H.
  apply zap_loop_flush in H as (_ & _ & [[-> ->] | H]); [reflexivity|].
  by rewrite H.
Qed.

Lemma trace_update_root f sp st : trace (update_root f sp st) = trace st.
Proof. reflexivity. Qed.

(** Across kvm_tdp_mmu_zap_gfn_range, root after root. *)
Lemma kvm_tdp_mmu_zap_gfn_range_flush fuel st start end_ st' flush :
  kvm_tdp_mmu_zap_gfn_range fuel st start end_ = Ok (st', flush) ->
  extends st st'
  /\ yields_after_flush (events_since st st')
  /\ forall p, flush_pending p (events_since st st') = true ->
               p = true \/ flush = true.
Proof.
  unfold kvm_tdp_mmu_zap_gfn_range. intros H.
  apply (for_each_rel
           (fun a b : kvm * bool =>
              extends (fst a) (fst b)
              /\ yields_after_flush (events_since (fst a) (fst b))
              /\ (snd a = true -> snd b = true)
              /\ forall p,
                  flush_pending p (events_since (fst a) (fst b)) = true ->
                  p = true \/ snd b = true)) in H.
  - simpl in H. destruct H as (E & Y & _ & P). by repeat split.
  - intros [s b]. simpl. rewrite events_since_refl.
    split; [exists []; by rewrite app_nil_r|].
    split; [apply yields_after_flush_none; intros []|].
    split; [done|]. intros p Hp. by left.
  - intros [s1 b1] [s2 b2] [s3 b3]; simpl.
    intros (E1 & Y1 & M1 & P1) (E2 & Y2 & M2 & P2).
    rewrite (events_since_trans _ _ _ E1 E2).
    split; [destruct E1 as [e1 K1], E2 as [e2 K2]; exists (e1 ++ e2);
            by rewrite K2, K1, app_assoc|].
    split; [by apply yields_after_flush_app|].
    split; [auto|].
    intros p Hp. rewrite flush_pending_app in Hp.
    destruct (P2 _ Hp) as [Hq | ?]; [|by right].
    destruct (P1 _ Hq) as [? | ?]; [by left | right; auto].
  - intros [s b] root [s1 b1] _ Hb. simpl.
    apply bind_Ok in Hb as ([s2 f2] & Hz & [= <- <-]).
    apply zap_loop_flush in Hz as (E & Y & P).
    assert (Hev : events_since s (update_root kvm_mmu_put_root (sp_spt root) s2)
                  = events_since (update_root kvm_mmu_get_root (sp_spt root) s)
                                 s2) by reflexivity.
    rewrite Hev. split; [exact E|]. split; [exact Y|].
    split; [intros ->; reflexivity|].
    intros p Hp. destruct P as [[P _] | P].
    + rewrite P in Hp. by left.
    + rewrite P in Hp. right. rewrite Hp. apply orb_true_r.
Qed.

(** X4. kvm_tdp_mmu_zap_gfn_range, which may yield, drops the lock
    only just after kvm_flush_remote_tlbs, for every root and however
    often the scheduler asks; and when a flush is pending at the end,
    it returns true. *)
Theorem X4_zap_range_yields_only_after_flush :
  forall fuel st start end_ st' flush,
    kvm_tdp_mmu_zap_gfn_range fuel st start end_ = Ok (st', flush) ->
    yields_after_flush (events_since st st')
    /\ (flush_pending false (events_since st st') = true -> flush = true).
Proof.
  intros fuel st start end_ st' flush H.
  apply kvm_tdp_mmu_zap_gfn_range_flush in H as (_ & Y & P).
  split; [exact Y|]. intros Hp. by destruct (P _ Hp).
Qed.

(** X5. When kvm_tdp_mmu_zap_all returns, no remote TLB flush is
    pending: every write to an entry it recorded is followed by
    kvm_flush_remote_tlbs. *)
Theorem X5_zap_all_leaves_no_flush_pending :
  forall fuel st st',
    kvm_tdp_mmu_zap_all fuel st = Ok st' ->
    flush_pending false (events_since st st') = false.
Proof.
  intros fuel st st'. unfold kvm_tdp_mmu_zap_all. intros H.
  apply bind_Ok in H as ([s1 f1] & Hz & [= <-]).
  apply kvm_tdp_mmu_zap_gfn_range_flush in Hz as ([evs He] & _ & P).
  rewrite (events_since_app _ _ _ He) in P.
  destruct f1.
  - assert (Ht : trace (emit kvm_flush_remote_tlbs s1)
                 = trace st ++ evs ++ [kvm_flush_remote_tlbs])
      by (simpl; by rewrite He, app_assoc).
    rewrite (events_since_app _ _ _ Ht). by rewrite flush_pending_app.
  - rewrite (events_since_app _ _ _ He).
    destruct (flush_pending false evs) eqn:Hp; [|reflexivity].
    by destruct (P _ Hp).
Qed.

End ZapResults.

Lemma returns_inv {A} (test : A -> bool) (m : outcome A) :
  returns test m = true -> exists a, m = Ok a /\ test a = true.
Proof. destruct m as [a|c]; simpl; [eauto | discriminate]. Qed.

Lemma returns_flag {S} (m : outcome (S * bool)) (b : bool) :
  returns (fun r => Bool.eqb (snd r) b) m = true ->
  exists st', m = Ok (st', b).
Proof.
  intros H. apply returns_inv in H as ([s f] & -> & H). simpl in H.
  apply Bool.eqb_prop in H as ->. by exists s.
Qed.

Lemma returns_value {S} (m : outcome (S * Z)) (v : Z) :
  returns (fun r => snd r =? v) m = true -> exists st', m = Ok (st', v).
Proof.
  intros H. apply returns_inv in H as ([s f] & -> & H). simpl in H.
  apply Z.eqb_eq in H as ->. by exists s.
Qed.

Lemma returns_state {S} (m : outcome S) :
  returns (fun _ => true) m = true -> exists st', m = Ok st'.
Proof. intros H. apply returns_inv in H as (s & -> & _). by exists s. Qed.

(** The frames 513..514 of [sample_tree] lie in the large leaf of the
    frames 512..1023, which is cleared whole. *)
Lemma X2_witness :
  exists st',
    zap_gfn_range 16 sample_tree sample_root 513 514 false = Ok (st', true)
    /\ Forall (fun e => handler_event e = true) (events_since sample_tree st')
    /\ exists e, In e (events_since sample_tree st') /\ zapped e = true.
Proof.
  destruct (returns_flag
              (zap_gfn_range 16 sample_tree sample_root 513 514 false) true)
    as [st' H]; [vm_compute; reflexivity|].
  exists st'. split; [exact H|].
  exact (X2_zap_without_yield_tells_whether_it_cleared _ _ _ _ _ _ _ H).
Defined.

(** The frames 0..1023 of [sample_busy_tree]: the table of the frames
    0..511 is cleared and freed, the scheduler asks for the lock, the
    flush is made and the lock dropped; then the large leaf is cleared
    and nothing is asked: a flush is pending at the end. *)
Lemma X3_witness :
  exists st',
    zap_gfn_range 64 sample_busy_tree sample_root 0 1024 true = Ok (st', true)
    /\ true = flush_pending false (events_since sample_busy_tree st').
Proof.
  destruct (returns_flag
              (zap_gfn_range 64 sample_busy_tree sample_root 0 1024 true) true)
    as [st' H]; [vm_compute; reflexivity|].
  exists st'. split; [exact H|].
  exact (X3_zap_returns_whether_a_flush_is_pending _ _ _ _ _ _ _ _ H).
Defined.

(** The frames 0..511 of [sample_busy_tree]: the one yield follows the
    flush, and nothing is pending at the end. *)
Lemma sample_zap_range :
  exists st',
    kvm_tdp_mmu_zap_gfn_range 64 sample_busy_tree 0 512 = Ok (st', false).
Proof. apply returns_flag. vm_compute. reflexivity. Qed.

Lemma X4_witness :
  exists st',
    kvm_tdp_mmu_zap_gfn_range 64 sample_busy_tree 0 512 = Ok (st', false)
    /\ yields_after_flush (events_since sample_busy_tree st')
    /\ (flush_pending false (events_since sample_busy_tree st') = true ->
        false = true).
Proof.
  destruct sample_zap_range as [st' H]. exists st'. split; [exact H|].
  exact (X4_zap_range_yields_only_after_flush _ _ _ _ _ _ H).
Defined.

Lemma X5_witness :
  exists st',
    kvm_tdp_mmu_zap_all 2000 sample_busy_tree = Ok st'
    /\ flush_pending false (events_since sample_busy_tree st') = false.
Proof.
  destruct (returns_state (kvm_tdp_mmu_zap_all 2000 sample_busy_tree))
    as [st' H]; [vm_compute; reflexivity|].
  exists st'. split; [exact H|].
  exact (X5_zap_all_leaves_no_flush_pending _ _ _ H).
Defined.

(** ** What the range operations leave in place *)

Section Clearing.
Context {ops : spte_ops}.
Variable R : kvm -> kvm -> Prop.
Hypothesis Hrefl : forall s, R s s.
Hypothesis Htrans : forall s1 s2 s3, R s1 s2 -> R s2 s3 -> R s1 s3.
Hypothesis Hemit : forall e s, R s (emit e s).
Hypothesis Hwrite : forall p s, R s (WRITE_ONCE s p 0).
Hypothesis Hdel : forall sp s, R s (list_del sp s).
Hypothesis Hresched : forall s, R s (snd (need_resched s)).

(** A relation that holds across the steps a zap is made of -- a call
    recorded, a zero written, a page unlinked, the scheduler asked --
    holds across the zap. *)
Lemma clearing_set_spte st it st' :
  tdp_mmu_set_spte st it 0 = Ok st' -> R st st'.
Proof.
  unfold tdp_mmu_set_spte, handle_changed_spte, __handle_changed_spte.
  intros H. eapply Htrans; [apply Hwrite|].
  eapply handle_changed_spte_rel; eauto.
Qed.

Lemma clearing_zap_step st it start end_ can_yield f st' it' f' :
  zap_step st it start end_ can_yield f = Ok (st', it', f') -> R st st'.
Proof.
  unfold zap_step.
  destruct (negb (is_shadow_present_pte (iter_old_spte it)));
    [intros [= <- <- <-]; apply Hrefl|].
  match goal with |- (if ?c then _ else _) = _ -> _ => destruct c end;
    [intros [= <- <- <-]; apply Hrefl|].
  intros H. apply bind_Ok in H as (s1 & Hset & H).
  apply clearing_set_spte in Hset. eapply Htrans; [exact Hset|].
  destruct can_yield; [|injection H as <- <- <-; apply Hrefl].
  injection H as H. revert H. unfold tdp_mmu_iter_flush_cond_resched.
  pose proof (Hresched s1) as Hr.
  destruct (need_resched s1) as [c s2]. simpl in Hr.
  destruct c; intros [= <- <- <-]; [|exact Hr].
  eapply Htrans; [exact Hr|]. eapply Htrans; apply Hemit.
Qed.

Lemma clearing_zap_gfn_range fuel st root start end_ can_yield st' f' :
  zap_gfn_range fuel st root start end_ can_yield = Ok (st', f') -> R st st'.
Proof.
  unfold zap_gfn_range.
  apply (zap_loop_rel (fun a b => R (fst a) (fst b))).
  - intros a. apply Hrefl.
  - intros a b c. apply Htrans.
  - intros. simpl. eapply clearing_zap_step. eassumption.
Qed.

End Clearing.

Lemma only_cleared_refl s : only_cleared s s.
Proof. intros p. by left. Qed.

Lemma only_cleared_trans s1 s2 s3 :
  only_cleared s1 s2 -> only_cleared s2 s3 -> only_cleared s1 s3.
Proof.
  intros H1 H2 p. destruct (H2 p) as [-> | ?]; [apply H1 | by right].
Qed.

Lemma only_cleared_mem s s' : mem s' = mem s -> only_cleared s s'.
Proof. intros H p. left. unfold READ_ONCE. by rewrite H. Qed.

Lemma only_cleared_write p s : only_cleared s (WRITE_ONCE s p 0).
Proof.
  intros q. destruct (decide (p = q)) as [-> | Hne].
  - right. apply READ_ONCE_WRITE_ONCE.
  - left. by apply READ_ONCE_WRITE_ONCE_ne.
Qed.

Lemma only_cleared_resched s : only_cleared s (snd (need_resched s)).
Proof.
  apply only_cleared_mem. unfold need_resched. by destruct (resched s).
Qed.

Lemma roots_kept_refl s : roots_kept s s.
Proof.
  exists (fun _ => true). symmetry. apply forallb_filter_id.
  by apply forallb_forall.
Qed.

Lemma roots_kept_trans s1 s2 s3 :
  roots_kept s1 s2 -> roots_kept s2 s3 -> roots_kept s1 s3.
Proof.
  intros [q1 H1] [q2 H2]. exists (fun sp => q1 sp && q2 sp).
  rewrite H2, H1. clear.
  induction (tdp_mmu_roots s1) as [|r l IH]; simpl; [reflexivity|].
  destruct (q1 (sp_spt r)); simpl; [|exact IH].
  destruct (q2 (sp_spt r)); by rewrite IH.
Qed.

Lemma roots_kept_roots s s' :
  tdp_mmu_roots s' = tdp_mmu_roots s -> roots_kept s s'.
Proof.
  intros H. destruct (roots_kept_refl s) as [q Hq]. exists q.
  by rewrite H.
Qed.

Lemma roots_kept_list_del sp s : roots_kept s (list_del sp s).
Proof. by exists (fun x => negb (x =? sp)). Qed.

Lemma roots_kept_resched s : roots_kept s (snd (need_resched s)).
Proof.
  apply roots_kept_roots. unfold need_resched. by destruct (resched s).
Qed.

Section ZapKeeps.
Context {ops : spte_ops}.

Lemma only_cleared_zap_gfn_range fuel st root start end_ can_yield st' f' :
  zap_gfn_range fuel st root start end_ can_yield = Ok (st', f') ->
  only_cleared st st'.
Proof.
  apply (clearing_zap_gfn_range only_cleared).
  - apply only_cleared_refl.
  - apply only_cleared_trans.
  - intros e s. by apply only_cleared_mem.
  - apply only_cleared_write.
  - intros sp s. by apply only_cleared_mem.
  - apply only_cleared_resched.
Qed.

Lemma roots_kept_zap_gfn_range fuel st root start end_ can_yield st' f' :
  zap_gfn_range fuel st root start end_ can_yield = Ok (st', f') ->
  roots_kept st st'.
Proof.
  apply (clearing_zap_gfn_range roots_kept).
  - apply roots_kept_refl.
  - apply roots_kept_trans.
  - intros e s. by apply roots_kept_roots.
  - intros p s. by apply roots_kept_roots.
  - apply roots_kept_list_del.
  - apply roots_kept_resched.
Qed.

Lemma kvm_mmu_put_get_root r : kvm_mmu_put_root (kvm_mmu_get_root r) = r.
Proof.
  destruct r. unfold kvm_mmu_put_root, kvm_mmu_get_root, set_root_count.
  simpl. f_equal. lia.
Qed.

(** The reference taken on a root for the time of its zap is the one
    dropped after it. *)
Lemma roots_kept_get_zap_put sp s s2 :
  roots_kept (update_root kvm_mmu_get_root sp s) s2 ->
  roots_kept s (update_root kvm_mmu_put_root sp s2).
Proof.
  intros [q H]. exists q. simpl in *. rewrite H. clear.
  induction (tdp_mmu_roots s) as [|r l IH]; simpl; [reflexivity|].
  destruct (sp_spt r =? sp) eqn:E; simpl.
  - destruct (q (sp_spt r)); [|exact IH]. simpl. rewrite E, IH.
    by rewrite kvm_mmu_put_get_root.
  - destruct (q (sp_spt r)); [|exact IH]. simpl. by rewrite E, IH.
Qed.

(** X6. Zapping never maps anything: after kvm_tdp_mmu_zap_gfn_range
    every word of memory holds the value it held before or zero,
    whatever the range and the tree. *)
Theorem X6_zap_only_clears_entries :
  forall fuel st start end_ st' flush,
    kvm_tdp_mmu_zap_gfn_range fuel st start end_ = Ok (st', flush) ->
    forall p, READ_ONCE st' p = READ_ONCE st p \/ READ_ONCE st' p = 0.
Proof.
  intros fuel st start end_ st' flush H. change (only_cleared st st').
  unfold kvm_tdp_mmu_zap_gfn_range in H.
  apply (for_each_rel (fun a b : kvm * bool => only_cleared (fst a) (fst b)))
    in H; [exact H | intros; apply only_cleared_refl
           | intros ? ? ?; apply only_cleared_trans |].
  intros [s f] root [s1 f1] _ Hb. simpl.
  apply bind_Ok in Hb as ([s2 f2] & Hz & [= <- <-]).
  apply only_cleared_zap_gfn_range in Hz.
  intros p. destruct (Hz p) as [E | E]; [left | right]; exact E.
Qed.

(** X7. kvm_tdp_mmu_zap_gfn_range drops every reference it takes: the
    roots it leaves on the list are roots of the list before, in the
    same order and with the reference counts they had; a root is
    missing only if its page was unlinked as a table of a subtree. *)
Theorem X7_zap_range_restores_the_root_references :
  forall fuel st start end_ st' flush,
    kvm_tdp_mmu_zap_gfn_range fuel st start end_ = Ok (st', flush) ->
    roots_kept st st'.
Proof.
  intros fuel st start end_ st' flush H.
  unfold kvm_tdp_mmu_zap_gfn_range in H.
  apply (for_each_rel (fun a b : kvm * bool => roots_kept (fst a) (fst b)))
    in H; [exact H | intros; apply roots_kept_refl
           | intros ? ? ?; apply roots_kept_trans |].
  intros [s f] root [s1 f1] _ Hb. simpl.
  apply bind_Ok in Hb as ([s2 f2] & Hz & [= <- <-]).
  apply roots_kept_zap_gfn_range in Hz.
  by apply roots_kept_get_zap_put.
Qed.

End ZapKeeps.

Lemma X6_witness :
  exists st',
    kvm_tdp_mmu_zap_gfn_range 64 sample_busy_tree 0 512 = Ok (st', false)
    /\ forall p, READ_ONCE st' p = READ_ONCE sample_busy_tree p
                 \/ READ_ONCE st' p = 0.
Proof.
  destruct sample_zap_range as [st' H]. exists st'. split; [exact H|].
  exact (X6_zap_only_clears_entries _ _ _ _ _ _ H).
Defined.

Lemma X7_witness :
  exists st',
    kvm_tdp_mmu_zap_gfn_range 64 sample_busy_tree 0 512 = Ok (st', false)
    /\ roots_kept sample_busy_tree st'.
Proof.
  destruct sample_zap_range as [st' H]. exists st'. split; [exact H|].
  exact (X7_zap_range_restores_the_root_references _ _ _ _ _ _ H).
Defined.

(** ** Freeing a root *)

Section FreeRoot.
Context {ops : spte_ops}.

Lemma flush_pending_handler_tail p l sp :
  flush_pending p (l ++ [free_page sp; kmem_cache_free sp]) = flush_pending p l.
Proof. by rewrite flush_pending_app. Qed.

(** kvm_tdp_mmu_free_root, step by step. *)
Lemma kvm_tdp_mmu_free_root_steps fuel st root st' :
  kvm_tdp_mmu_free_root fuel st root = Ok st' ->
  exists s3 s4 w f,
    trace s3 = trace st ++ w
    /\ Forall (fun e => handler_event e = true) w
    /\ flush_pending false w = false
    /\ mem s3 = mem st
    /\ tdp_mmu_roots s3
       = List.filter (fun r => negb (sp_spt r =? sp_spt root))
                     (tdp_mmu_roots st)
    /\ zap_gfn_range fuel s3 root 0 max_gfn false = Ok (s4, f)
    /\ st' = emit (kmem_cache_free (sp_spt root))
                  (emit (free_page (sp_spt root)) s4).
Proof.
  unfold kvm_tdp_mmu_free_root. intros H.
  apply bind_Ok in H as ([s4 f] & Hz & [= <-]).
  exists (list_del (sp_spt root)
            (warn_on (negb (sp_tdp_mmu_page root)) W_not_tdp_mmu_page
               (warn_on (negb (sp_root_count root =? 0)) W_root_count st))),
    s4,
    ((if negb (sp_root_count root =? 0) then [WARN_ON W_root_count] else [])
     ++ (if negb (sp_tdp_mmu_page root) then [WARN_ON W_not_tdp_mmu_page]
         else [])),
    f.
  split; [simpl; rewrite !trace_warn_on, <- app_assoc; reflexivity|].
  split; [destruct (sp_root_count root =? 0), (sp_tdp_mmu_page root); simpl;
          repeat constructor|].
  split; [by destruct (sp_root_count root =? 0), (sp_tdp_mmu_page root)|].
  split; [simpl; by destruct (sp_root_count root =? 0),
                             (sp_tdp_mmu_page root)|].
  split; [simpl; by destruct (sp_root_count root =? 0),
                             (sp_tdp_mmu_page root)|].
  split; [exact Hz | reflexivity].
Qed.

(** X8. kvm_tdp_mmu_free_root calls nothing but the handler until its
    last two calls, which free the page of the root and its header: it
    never drops the lock. When it returns, no root of the list has the
    page of the freed root, and the roots left are roots of the list
    before, in their order and with their counts. *)
Theorem X8_free_root_unlinks_then_frees_last :
  forall fuel st root st',
    kvm_tdp_mmu_free_root fuel st root = Ok st' ->
    (exists evs,
        events_since st st'
        = evs ++ [free_page (sp_spt root); kmem_cache_free (sp_spt root)]
        /\ Forall (fun e => handler_event e = true) evs)
    /\ (forall r, In r (tdp_mmu_roots st') -> sp_spt r <> sp_spt root)
    /\ roots_kept st st'.
Proof.
  intros fuel st root st' H.
  apply kvm_tdp_mmu_free_root_steps in H
    as (s3 & s4 & w & f & Hw & Hhw & _ & _ & Hroots & Hz & ->).
  pose proof (roots_kept_zap_gfn_range _ _ _ _ _ _ _ _ Hz) as [q Hq].
  apply zap_loop_no_yield in Hz as ([evs He] & Hh & _ & _).
  rewrite (events_since_app _ _ _ He) in Hh.
  split; [|split].
  - exists (w ++ evs). split; [|by apply Forall_app].
    apply events_since_app. simpl. rewrite He, Hw, <- !app_assoc.
    reflexivity.
  - intros r Hr. simpl in Hr. rewrite Hq, Hroots in Hr.
    apply filter_In in Hr as [Hr _]. apply filter_In in Hr as [_ Hr].
    apply negb_true_iff, Z.eqb_neq in Hr. exact Hr.
  - exists (fun sp => negb (sp =? sp_spt root) && q sp). simpl.
    rewrite Hq, Hroots. clear.
    induction (tdp_mmu_roots st) as [|r l IH]; simpl; [reflexivity|].
    destruct (negb (sp_spt r =? sp_spt root)); simpl; [|exact IH].
    destruct (q (sp_spt r)); by rewrite IH.
Qed.


End FreeRoot.

(** The root of [sample_tree] is freed: the tree below it is torn
    down, and a flush is pending. *)
Lemma sample_free_root :
  exists st', kvm_tdp_mmu_free_root 2000 sample_tree sample_root = Ok st'.
Proof. apply returns_state. vm_compute. reflexivity. Qed.

Lemma X8_witness :
  exists st',
    kvm_tdp_mmu_free_root 2000 sample_tree sample_root = Ok st'
    /\ (exists evs,
          events_since sample_tree st'
          = evs ++ [free_page (512 * 16); kmem_cache_free (512 * 16)]
          /\ Forall (fun e => handler_event e = true) evs)
    /\ (forall r, In r (tdp_mmu_roots st') -> sp_spt r <> 512 * 16)
    /\ roots_kept sample_tree st'.
Proof.
  destruct sample_free_root as [st' H]. exists st'. split; [exact H|].
  exact (X8_free_root_unlinks_then_frees_last _ _ _ _ H).
Defined.


(** ** Ranges of host virtual addresses *)

Lemma update_root_put_get sp s :
  update_root kvm_mmu_put_root sp (update_root kvm_mmu_get_root sp s) = s.
Proof.
  destruct s as [m roots pages cache rs pf tr].
  unfold update_root, set_roots. simpl. f_equal.
  induction roots as [|r l IH]; simpl; [reflexivity|].
  rewrite IH. f_equal.
  destruct (sp_spt r =? sp) eqn:E; simpl; rewrite E; [|reflexivity].
  apply kvm_mmu_put_get_root.
Qed.

Section HvaRangeFacts.
Context {ops : spte_ops}.
Variable hva_to_gfn_memslot : Z -> kvm_memory_slot -> Z.
Variable __kvm_memslots : Z -> list kvm_memory_slot.


End HvaRangeFacts.


Section ZapHvaRange.
Context {ops : spte_ops}.
Variable hva_to_gfn_memslot : Z -> kvm_memory_slot -> Z.
Variable __kvm_memslots : Z -> list kvm_memory_slot.

Lemma zap_hva_progress_refl a : zap_hva_progress a a.
Proof.
  intros Ha. rewrite events_since_refl.
  split; [exists []; by rewrite app_nil_r|].
  split; [constructor|]. split; [exact Ha|]. split; [done|]. by left.
Qed.

Lemma zap_hva_progress_trans a b c :
  zap_hva_progress a b -> zap_hva_progress b c -> zap_hva_progress a c.
Proof.
  intros Hab Hbc Ha. destruct (Hab Ha) as (E1 & H1 & B1 & F1 & T1).
  destruct (Hbc B1) as (E2 & H2 & B2 & F2 & T2).
  rewrite (events_since_trans _ _ _ E1 E2).
  split; [destruct E1 as [e1 K1], E2 as [e2 K2]; exists (e1 ++ e2);
          by rewrite K2, K1, app_assoc|].
  split; [by apply Forall_app|]. split; [exact B2|]. split.
  - intros Hc. destruct (F2 Hc) as [-> Hb]. by apply F1.
  - intros Hc. destruct (T2 Hc) as [Hb | (e & Hin & Hz)].
    + destruct (T1 Hb) as [? | (e & Hin & Hz)]; [by left|].
      right. exists e. split; [|exact Hz]. apply in_or_app. by left.
    + right. exists e. split; [|exact Hz]. apply in_or_app. by right.
Qed.

Lemma zap_hva_progress_slot fuel root start end_ a slot b :
  hva_range_slot hva_to_gfn_memslot (zap_gfn_range_hva_wrapper fuel) root
                 start end_ 0 a slot = Ok b ->
  zap_hva_progress a b.
Proof.
  destruct a as [s r], b as [s' r']. unfold hva_range_slot.
  match goal with |- (if ?c then _ else _) = _ -> _ => destruct c end;
    [intros [= <- <-]; apply zap_hva_progress_refl|].
  intros H. apply bind_Ok in H as ([s1 v] & Hw & [= <- <-]).
  unfold zap_gfn_range_hva_wrapper in Hw.
  apply bind_Ok in Hw as ([s2 f] & Hz & [= <- <-]).
  apply zap_loop_no_yield in Hz as (E & Hh & Hf & Ht).
  intros Hr. simpl in *. split; [exact E|]. split; [exact Hh|].
  destruct Hr as [-> | ->], f; simpl.
  - split; [by right|]. split; [discriminate|]. intros _.
    destruct (Ht eq_refl) as [? | ?]; [discriminate | by right].
  - split; [by left|]. split; [|discriminate]. intros _.
    destruct (Hf eq_refl) as [-> _]. done.
  - split; [by right|]. split; [discriminate|]. intros _. by left.
  - split; [by right|]. split; [discriminate|]. intros _. by left.
Qed.

(** X11. kvm_tdp_mmu_zap_hva_range, which zaps through the wrapper that
    may not yield, calls nothing but the change handler, so it never
    drops the lock and makes no flush of its own. It returns 0 or 1:
    0 only when nothing was changed, and the state is then the state
    before; 1 only when a present entry was set to zero. *)
Theorem X11_zap_hva_range_never_yields_and_tells_whether_it_cleared :
  forall fuel st start end_ st' ret,
    kvm_tdp_mmu_zap_hva_range hva_to_gfn_memslot __kvm_memslots
                              fuel st start end_ = Ok (st', ret) ->
    Forall (fun e => handler_event e = true) (events_since st st')
    /\ (ret = 0 /\ st' = st
        \/ ret = 1 /\ exists e, In e (events_since st st') /\ zapped e = true).
Proof.
  intros fuel st start end_ st' ret H.
  unfold kvm_tdp_mmu_zap_hva_range, kvm_tdp_mmu_handle_hva_range in H.
  apply (for_each_rel zap_hva_progress) in H;
    [| apply zap_hva_progress_refl | apply zap_hva_progress_trans |].
  - destruct (H (or_introl eq_refl)) as (_ & Hh & B & F & T). simpl in *.
    split; [exact Hh|]. destruct B as [-> | ->].
    + left. by destruct (F eq_refl).
    + right. split; [reflexivity|].
      by destruct (T eq_refl) as [? | ?].
  - intros [s r] root [s' r'] _ Hb. simpl in Hb.
    apply bind_Ok in Hb as ([s2 r2] & Hin & [= <- <-]).
    apply (for_each_rel zap_hva_progress) in Hin;
      [| apply zap_hva_progress_refl | apply zap_hva_progress_trans
       | intros a slot b _; apply zap_hva_progress_slot].
    intros Hr. destruct (Hin Hr) as (E & Hh & B & F & T). simpl in *.
    assert (Hev : events_since s (update_root kvm_mmu_put_root (sp_spt root) s2)
                  = events_since (update_root kvm_mmu_get_root (sp_spt root) s)
                                 s2) by reflexivity.
    rewrite Hev. split; [exact E|]. split; [exact Hh|]. split; [exact B|].
    split; [|exact T].
    intros H0. destruct (F H0) as [-> ->]. split; [|reflexivity].
    apply update_root_put_get.
Qed.

End ZapHvaRange.

(** The host virtual addresses of the guest frame 513 of [sample_tree]:
    the large leaf it lies in is cleared, and 1 is returned. *)
Lemma X11_witness :
  exists st',
    kvm_tdp_mmu_zap_hva_range (ops := x86_ops) sample_hva_to_gfn sample_slots
      64 sample_tree (2 ^ 30 + 513 * 4096) (2 ^ 30 + 514 * 4096) = Ok (st', 1)
    /\ Forall (fun e => handler_event e = true) (events_since sample_tree st')
    /\ (1 = 0 /\ st' = sample_tree
        \/ 1 = 1 /\ exists e, In e (events_since sample_tree st')
                              /\ zapped e = true).
Proof.
  destruct (returns_value
              (kvm_tdp_mmu_zap_hva_range (ops := x86_ops) sample_hva_to_gfn
                 sample_slots 64 sample_tree (2 ^ 30 + 513 * 4096)
                 (2 ^ 30 + 514 * 4096)) 1)
    as [st' H]; [vm_compute; reflexivity|].
  exists st'. split; [exact H|].
  exact (X11_zap_hva_range_never_yields_and_tells_whether_it_cleared
           _ _ _ _ _ _ _ _ H).
Defined.

(** ** The root of a vCPU *)

Lemma find_skip {A} (f : A -> bool) l1 l2 :
  (forall x, In x l1 -> f x = false) ->
  List.find f (l1 ++ l2) = List.find f l2.
Proof.
  induction l1 as [|y l1 IH]; intros H; simpl; [reflexivity|].
  rewrite (H y (or_introl eq_refl)). apply IH. intros; apply H; by right.
Qed.

Lemma VALID_PAGE___pa p : VALID_PAGE (__pa p) = true.
Proof.
  unfold VALID_PAGE, __pa, INVALID_PAGE. apply negb_true_iff, Z.eqb_neq.
  change (2 ^ 64 - 1) with 18446744073709551615. lia.
Qed.

Lemma sptep_to_sp___va___pa p :
  p mod PT64_ENT_PER_PAGE = 0 -> sptep_to_sp (__va (__pa p)) = p.
Proof.
  intros H. unfold sptep_to_sp, __va, __pa.
  rewrite Z.div_mul by lia. lia.
Qed.

Section RootOfVcpu.
Context {ops : spte_ops}.

(** X12. The address kvm_tdp_mmu_get_vcpu_root_hpa returns is a valid
    page and a root of the TDP MMU for is_tdp_mmu_root, the two tests
    kvm_tdp_mmu_map makes of the root of a vCPU; and the registry stays
    as get_tdp_mmu_vcpu_root builds it. The page a new root takes from
    the cache is page-aligned and not the page of a root. *)
Theorem X12_root_hpa_is_a_live_tdp_mmu_root :
  forall st vcpu st' hpa,
    registry_ok st ->
    (forall p rest, mmu_shadow_page_cache st = p :: rest ->
       p mod PT64_ENT_PER_PAGE = 0
       /\ ~ In p (List.map sp_spt (tdp_mmu_roots st))) ->
    kvm_tdp_mmu_get_vcpu_root_hpa st vcpu = Ok (st', hpa) ->
    VALID_PAGE hpa = true
    /\ is_tdp_mmu_root st' hpa = true
    /\ registry_ok st'.
Proof.
  intros st vcpu st' hpa [Hnd Hok] Hcache H.
  unfold kvm_tdp_mmu_get_vcpu_root_hpa in H.
  apply bind_Ok in H as ([s1 root] & Hget & [= <- <-]).
  split; [apply VALID_PAGE___pa|].
  unfold get_tdp_mmu_vcpu_root in Hget.
  destruct (find_get_root _ (tdp_mmu_roots st)) as [[r l']|] eqn:Hfind.
  - injection Hget as <- <-.
    apply find_get_root_Some in Hfind
      as (l1 & r1 & l2 & Hl & _ & _ & -> & ->).
    rewrite Hl in Hnd, Hok.
    apply Forall_app in Hok as [Hok1 Hok2].
    apply Forall_cons in Hok2 as [(Htdp & Hcnt & Hal) Hok2].
    rewrite map_app in Hnd. simpl in Hnd.
    split.
    + unfold is_tdp_mmu_root, page_header. simpl.
      rewrite (sptep_to_sp___va___pa _ Hal), <- app_assoc.
      rewrite find_skip.
      * simpl. rewrite Z.eqb_refl. simpl. rewrite Htdp. simpl.
        apply negb_true_iff, Z.eqb_neq. lia.
      * intros x Hx. apply Z.eqb_neq. intros He.
        apply NoDup_app in Hnd as (_ & Hdis & _).
        apply (Hdis (sp_spt x)).
        -- apply list_elem_of_In, in_map, Hx.
        -- rewrite He. by left.
    + split; simpl.
      * by rewrite map_app.
      * apply Forall_app. split; [exact Hok1|].
        constructor; [|exact Hok2]. simpl. repeat split; auto; lia.
  - unfold alloc_tdp_mmu_page, kvm_mmu_memory_cache_alloc in Hget.
    destruct (mmu_shadow_page_cache st) as [|p rest] eqn:Hc;
      [discriminate|].
    destruct (Hcache p rest eq_refl) as [Hal Hfresh].
    simpl in Hget. injection Hget as <- <-. simpl. split.
    + unfold is_tdp_mmu_root, page_header. simpl.
      rewrite (sptep_to_sp___va___pa _ Hal), Z.eqb_refl. reflexivity.
    + split; simpl.
      * apply NoDup_cons. split; [|exact Hnd].
        intros Hin. by apply list_elem_of_In in Hin.
      * constructor; [|exact Hok]. simpl. repeat split; auto; lia.
Qed.

End RootOfVcpu.

(** The first root of a fresh VM. *)
Lemma X12_witness :
  exists st',
    kvm_tdp_mmu_get_vcpu_root_hpa (ops := x86_ops) fresh_kvm sample_vcpu
    = Ok (st', __pa (512 * 16))
    /\ VALID_PAGE (__pa (512 * 16)) = true
    /\ is_tdp_mmu_root st' (__pa (512 * 16)) = true
    /\ registry_ok st'.
Proof.
  destruct (returns_value
              (kvm_tdp_mmu_get_vcpu_root_hpa (ops := x86_ops) fresh_kvm
                                             sample_vcpu) (__pa (512 * 16)))
    as [st' H]; [vm_compute; reflexivity|].
  exists st'. split; [exact H|].
  apply (X12_root_hpa_is_a_live_tdp_mmu_root (ops := x86_ops)
           fresh_kvm sample_vcpu st' (__pa (512 * 16))).
  - split; simpl; constructor.
  - intros p rest Hc. vm_compute in Hc. injection Hc as <- _.
    split; [reflexivity | intros []].
  - exact H.
Defined.

(** ** The last step of a fault *)

Section TargetLevel.
Context {ops : spte_ops}.

Lemma pf_fixed_set_spte st it new_spte st' :
  tdp_mmu_set_spte st it new_spte = Ok st' -> pf_fixed st' = pf_fixed st.
Proof.
  unfold tdp_mmu_set_spte, handle_changed_spte, __handle_changed_spte.
  intros H.
  apply (handle_changed_spte_rel (fun s s' => pf_fixed s' = pf_fixed s))
    in H; [exact H | | | | |]; try (intros; reflexivity).
  intros s1 s2 s3 H1 H2. by rewrite H2.
Qed.

Lemma bug_transition_same old_spte level :
  bug_transition old_spte old_spte level = false.
Proof.
  unfold bug_transition, pfn_changed. rewrite Z.eqb_refl. simpl.
  apply andb_false_r.
Qed.


End TargetLevel.


(** ** A fault, from the root to the entry *)

Section FaultResolved.
Context {ops : spte_ops}.

(** The last step on an entry without a child table: the entry built
    is written, or found; nothing else of the memory changes. *)
Lemma target_level_flat st write map_writable it pfn prefault flags new_spte :
  (if is_noslot_pfn pfn
   then (0, make_mmio_spte (iter_gfn it) ACC_ALL)
   else make_spte ACC_ALL (iter_level it) (iter_gfn it) pfn
                  (iter_old_spte it) prefault true map_writable
                  (shadow_accessed_mask =? 0))
  = (flags, new_spte) ->
  no_child_table (iter_old_spte it) (iter_level it) = true ->
  bug_transition (iter_old_spte it) new_spte (iter_level it) = false ->
  snapshot_current st it ->
  exists st' ret,
    tdp_mmu_map_handle_target_level st write map_writable it pfn prefault
    = Ok (st', ret)
    /\ READ_ONCE st' (iter_sptep it) = new_spte
    /\ (forall a, a <> iter_sptep it -> READ_ONCE st' a = READ_ONCE st a)
    /\ tdp_mmu_roots st' = tdp_mmu_roots st.
Proof.
  intros Hmk Hflat Hbug Hsnap.
  unfold tdp_mmu_map_handle_target_level. rewrite Hmk.
  destruct (Z.eqb_spec new_spte (iter_old_spte it)) as [Heq | Hne].
  - cbn [bind].
    destruct (negb (Z.land flags SET_SPTE_WRITE_PROTECTED_PT =? 0)), write,
      (is_mmio_spte new_spte), prefault;
      (eexists _, _; split; [reflexivity|]; split; [|by split];
       rewrite Heq, Hsnap; reflexivity).
  - destruct (tdp_mmu_set_spte_no_child st it new_spte Hflat Hbug)
      as (s1 & Hset & Hheap).
    rewrite Hset. cbn [bind].
    assert (Hfin : forall s2, heap_eq s1 s2 ->
               READ_ONCE s2 (iter_sptep it) = new_spte
               /\ (forall a, a <> iter_sptep it ->
                     READ_ONCE s2 a = READ_ONCE st a)
               /\ tdp_mmu_roots s2 = tdp_mmu_roots st).
    { intros s2 H2. pose proof (heap_eq_trans _ _ _ Hheap H2) as H.
      split; [|split].
      - rewrite (heap_eq_READ _ _ _ H). apply READ_ONCE_WRITE_ONCE.
      - intros a Ha. rewrite (heap_eq_READ _ _ _ H).
        apply READ_ONCE_WRITE_ONCE_ne. congruence.
      - by destruct H as (_ & -> & _). }
    destruct (negb (Z.land flags SET_SPTE_WRITE_PROTECTED_PT =? 0)), write,
      (is_mmio_spte new_spte), prefault;
      (eexists _, _; split; [reflexivity|]; apply Hfin; by repeat split).
Qed.

(** kvm_tdp_mmu_map for a fault it resolves, whatever value it returns
    for it: what it leaves in memory. *)
Lemma kvm_tdp_mmu_map_resolves :
  zero_not_present ops -> large_is_last ops ->
  forall fuel st vcpu gpa error_code map_writable max_level pfn prefault
         level pfn' req_level flags new_spte,
    let gfn := Z.shiftr gpa PAGE_SHIFT in
    let old_spte := fault_target_entry st vcpu gfn level in
    let tables := fault_tables st vcpu gfn level
                  ++ fault_pages st vcpu gfn level in
    0 <= gpa < 2 ^ 64 ->
    fault_walk_ready st vcpu gfn level ->
    (Z.to_nat (shadow_root_level vcpu - level) < fuel)%nat ->
    kvm_mmu_hugepage_adjust gfn max_level pfn
      (negb (Z.land error_code PFERR_FETCH_MASK =? 0)
       && is_nx_huge_page_enabled)
    = (level, pfn', req_level) ->
    nx_inert gfn level pfn' ->
    (if is_noslot_pfn pfn'
     then (0, make_mmio_spte (round_gfn_for_level gfn level) ACC_ALL)
     else make_spte ACC_ALL level (round_gfn_for_level gfn level) pfn'
                    old_spte prefault true map_writable
                    (shadow_accessed_mask =? 0))
    = (flags, new_spte) ->
    no_child_table old_spte level = true ->
    bug_transition old_spte new_spte level = false ->
    exists st' ret p,
      kvm_tdp_mmu_map fuel st vcpu gpa error_code map_writable max_level pfn
                      prefault = Ok (st', ret)
      /\ path_in gfn st' tables (shadow_root_level vcpu) p
      /\ READ_ONCE st' p = new_spte
      /\ (forall a, (forall t, In t tables -> ~ in_page t a) ->
            READ_ONCE st' a = READ_ONCE st a)
      /\ tdp_mmu_roots st' = tdp_mmu_roots st.
Proof.
  intros Hzero Hlarge fuel st vcpu gpa error_code map_writable max_level pfn
         prefault level pfn' req_level flags new_spte gfn old_spte tables
         Hgpa Hready Hfuel Hadj Hnx Hmk Hflat Hbug.
  pose proof Hready as (Hvalid & (root & Hfind & Htdp & Hcount) & Hlevel
                        & Hlen & Hptr & Hnz & Hsep).
  set (n := Z.to_nat (shadow_root_level vcpu - level)) in *.
  assert (HR : shadow_root_level vcpu = level + Z.of_nat n)
    by (unfold n; lia).
  destruct (map_loop_reaches gfn level pfn' vcpu Hzero Hlarge Hnx
              (proj1 Hlevel) (gfn_of_gpa gpa Hgpa) n fuel st
              (tdp_iter_start st (__va (root_hpa vcpu))
                              (shadow_root_level vcpu) PG_LEVEL_4K gfn)
              (__va (root_hpa vcpu)) Hfuel)
    as (s & it & p & Hrun & Hl & Hg & Hp & Hold & Hsnap & Hpath & Hframe
        & Hroots).
  - rewrite <- HR. apply iter_at_start.
  - apply snapshot_start.
  - rewrite <- HR. exact Hlen.
  - rewrite <- HR. exact Hptr.
  - rewrite <- HR. exact Hnz.
  - rewrite <- HR. exact Hsep.
  - rewrite <- HR in Hold, Hpath, Hframe. subst p.
    fold (fault_tables st vcpu gfn level) in Hpath, Hframe.
    fold (fault_pages st vcpu gfn level) in Hpath, Hframe.
    fold tables in Hpath, Hframe. fold (fault_target_entry st vcpu gfn level)
      in Hold. fold old_spte in Hold.
    destruct (target_level_flat s
                (negb (Z.land error_code PFERR_WRITE_MASK =? 0)) map_writable
                it pfn' prefault flags new_spte)
      as (st' & ret & Hres & Hread & Hother & Hroots');
      try (rewrite ?Hl, ?Hg, ?Hold; assumption).
    exists st', ret, (iter_sptep it).
    split; [|split; [|split; [|split]]].
    + unfold kvm_tdp_mmu_map. fold gfn. rewrite Hvalid.
      rewrite (is_tdp_mmu_root_of_roots _ _ _ Hfind Htdp Hcount).
      cbn [negb]. rewrite Hadj.
      lazymatch goal with
      | |- bind ?m _ = _ =>
          assert (Hm : m = Ok (s, mk_round true it pfn' level)) by exact Hrun;
          rewrite Hm
      end.
      cbn [bind round_iter round_level round_pfn]. rewrite Hl, Z.eqb_refl.
      exact Hres.
    + apply path_in_frame with s; [exact Hsep | exact Hpath | exact Hother].
    + exact Hread.
    + intros a Ha. rewrite Hother; [by apply Hframe|].
      intros ->. destruct (path_in_last _ _ _ _ _ Hpath) as (t & Ht & Hin).
      exact (Ha t Ht Hin).
    + congruence.
Qed.

End FaultResolved.

Section FaultRoundTrip.
Context {ops : spte_ops}.

(** X14. After kvm_tdp_mmu_map has resolved a fault, the walk from the
    root for the guest frame ends, at the level of the fault, at an
    entry that holds the entry built for the fault -- by make_spte, or
    the MMIO entry for a frame without a memory slot -- whether it was
    written or found there, and whatever value the call returns. The
    fault is one kvm_tdp_mmu_map resolves: the root of the vCPU is
    registered, the cache holds the pages the walk needs, and the entry
    the walk finds at the level is neither a table nor a leaf of
    another frame. *)
Theorem X14_fault_leaves_the_built_entry_at_the_end_of_the_walk :
  zero_not_present ops -> large_is_last ops ->
  forall fuel st vcpu gpa error_code map_writable max_level pfn prefault
         level pfn' req_level flags new_spte,
    let gfn := Z.shiftr gpa PAGE_SHIFT in
    let old_spte := fault_target_entry st vcpu gfn level in
    0 <= gpa < 2 ^ 64 ->
    fault_walk_ready st vcpu gfn level ->
    (Z.to_nat (shadow_root_level vcpu - level) < fuel)%nat ->
    kvm_mmu_hugepage_adjust gfn max_level pfn
      (negb (Z.land error_code PFERR_FETCH_MASK =? 0)
       && is_nx_huge_page_enabled)
    = (level, pfn', req_level) ->
    nx_inert gfn level pfn' ->
    (if is_noslot_pfn pfn'
     then (0, make_mmio_spte (round_gfn_for_level gfn level) ACC_ALL)
     else make_spte ACC_ALL level (round_gfn_for_level gfn level) pfn'
                    old_spte prefault true map_writable
                    (shadow_accessed_mask =? 0))
    = (flags, new_spte) ->
    no_child_table old_spte level = true ->
    bug_transition old_spte new_spte level = false ->
    exists st' ret p,
      kvm_tdp_mmu_map fuel st vcpu gpa error_code map_writable max_level pfn
                      prefault = Ok (st', ret)
      /\ path_in gfn st' (fault_tables st vcpu gfn level
                          ++ fault_pages st vcpu gfn level)
                 (shadow_root_level vcpu) p
      /\ READ_ONCE st' p = new_spte.
Proof.
  intros Hzero Hlarge fuel st vcpu gpa error_code map_writable max_level pfn
         prefault level pfn' req_level flags new_spte gfn old_spte
         Hgpa Hready Hfuel Hadj Hnx Hmk Hflat Hbug.
  destruct (kvm_tdp_mmu_map_resolves Hzero Hlarge fuel st vcpu gpa error_code
              map_writable max_level pfn prefault level pfn' req_level flags
              new_spte Hgpa Hready Hfuel Hadj Hnx Hmk Hflat Hbug)
    as (st' & ret & p & Hrun & Hpath & Hread & _).
  by exists st', ret, p.
Qed.

(** X15. A fault kvm_tdp_mmu_map resolves writes to the tables on the
    walk for its guest frame and to the pages it takes from the cache
    for the tables that were missing, and to nothing else: every other
    word of memory, so every table of another part of the tree and of
    other roots, is as before, and so is the list of roots. *)
Theorem X15_fault_writes_only_to_the_tables_of_its_walk :
  zero_not_present ops -> large_is_last ops ->
  forall fuel st vcpu gpa error_code map_writable max_level pfn prefault
         level pfn' req_level flags new_spte,
    let gfn := Z.shiftr gpa PAGE_SHIFT in
    let old_spte := fault_target_entry st vcpu gfn level in
    0 <= gpa < 2 ^ 64 ->
    fault_walk_ready st vcpu gfn level ->
    (Z.to_nat (shadow_root_level vcpu - level) < fuel)%nat ->
    kvm_mmu_hugepage_adjust gfn max_level pfn
      (negb (Z.land error_code PFERR_FETCH_MASK =? 0)
       && is_nx_huge_page_enabled)
    = (level, pfn', req_level) ->
    nx_inert gfn level pfn' ->
    (if is_noslot_pfn pfn'
     then (0, make_mmio_spte (round_gfn_for_level gfn level) ACC_ALL)
     else make_spte ACC_ALL level (round_gfn_for_level gfn level) pfn'
                    old_spte prefault true map_writable
                    (shadow_accessed_mask =? 0))
    = (flags, new_spte) ->
    no_child_table old_spte level = true ->
    bug_transition old_spte new_spte level = false ->
    exists st' ret,
      kvm_tdp_mmu_map fuel st vcpu gpa error_code map_writable max_level pfn
                      prefault = Ok (st', ret)
      /\ (forall a,
            (forall t, In t (fault_tables st vcpu gfn level
                             ++ fault_pages st vcpu gfn level) ->
                       ~ in_page t a) ->
            READ_ONCE st' a = READ_ONCE st a)
      /\ tdp_mmu_roots st' = tdp_mmu_roots st.
Proof.
  intros Hzero Hlarge fuel st vcpu gpa error_code map_writable max_level pfn
         prefault level pfn' req_level flags new_spte gfn old_spte
         Hgpa Hready Hfuel Hadj Hnx Hmk Hflat Hbug.
  destruct (kvm_tdp_mmu_map_resolves Hzero Hlarge fuel st vcpu gpa error_code
              map_writable max_level pfn prefault level pfn' req_level flags
              new_spte Hgpa Hready Hfuel Hadj Hnx Hmk Hflat Hbug)
    as (st' & ret & p & Hrun & _ & _ & Hframe & Hroots).
  by exists st', ret.
Qed.

End FaultRoundTrip.

(** The write fault on the guest frame 600 of [sample_tree] for the
    host frame 77: the walk goes through the pages 16, 17 and 18 and
    the page 32 it takes from the cache. *)
Lemma X14_witness :
  exists st' ret p,
    kvm_tdp_mmu_map 8 sample_tree sample_vcpu (600 * 4096) 2 1 1 77 false
    = Ok (st', ret)
    /\ path_in 600 st' [512 * 16; 512 * 17; 512 * 18; 512 * 32] 4 p
    /\ READ_ONCE st' p = Sample.leaf 77 + 36.
Proof.
  apply (X14_fault_leaves_the_built_entry_at_the_end_of_the_walk
           (ops := x86_ops) x86_zero_not_present x86_large_is_last
           8%nat sample_tree sample_vcpu (600 * 4096) 2 1 1 77 false
           1 77 1 0 (Sample.leaf 77 + 36)).
  - lia.
  - exact sample_fault_walk_ready.
  - simpl. lia.
  - reflexivity.
  - left. reflexivity.
  - reflexivity.
  - vm_compute. reflexivity.
  - vm_compute. reflexivity.
Defined.

Lemma X15_witness :
  exists st' ret,
    kvm_tdp_mmu_map 8 sample_tree sample_vcpu (600 * 4096) 2 1 1 77 false
    = Ok (st', ret)
    /\ (forall a,
          (forall t, In t [512 * 16; 512 * 17; 512 * 18; 512 * 32] ->
                     ~ in_page t a) ->
          READ_ONCE st' a = READ_ONCE sample_tree a)
    /\ tdp_mmu_roots st' = tdp_mmu_roots sample_tree.
Proof.
  apply (X15_fault_writes_only_to_the_tables_of_its_walk
           (ops := x86_ops) x86_zero_not_present x86_large_is_last
           8%nat sample_tree sample_vcpu (600 * 4096) 2 1 1 77 false
           1 77 1 0 (Sample.leaf 77 + 36)).
  - lia.
  - exact sample_fault_walk_ready.
  - simpl. lia.
  - reflexivity.
  - left. reflexivity.
  - reflexivity.
  - vm_compute. reflexivity.
  - vm_compute. reflexivity.
Defined.

(** ** Dirty bits of a table that is torn down *)

Lemma NoDup_upto n : NoDup (upto n).
Proof.
  unfold upto. apply NoDup_fmap_2; [apply Nat2Z.inj'|apply NoDup_seq].
Qed.

Section TeardownDirty.
Context {ops : spte_ops}.

(** The loop over a child table whose entries have no tables below
    them: for each entry that is a dirty leaf the dirty notification
    is made. *)
Lemma zap_children_dirty depth as_id gfn pt level l :
  forall s s',
    NoDup l ->
    (forall j, In j l ->
       no_child_table (READ_ONCE s (pt + j)) (level - 1) = true) ->
    for_each
      (fun st i =>
         handle_changed_spte_rec depth (WRITE_ONCE st (pt + i) 0) as_id
           (wrap64 (gfn + i * KVM_PAGES_PER_HPAGE (level - 1)))
           (READ_ONCE st (pt + i)) 0 (level - 1)) l s = Ok s' ->
    extends s s'
    /\ forall i, In i l ->
         dirty_harvest (READ_ONCE s (pt + i)) 0 (level - 1) = true ->
         In (kvm_set_pfn_dirty (spte_to_pfn (READ_ONCE s (pt + i))))
            (events_since s s').
Proof.
  induction l as [|x l IH]; intros s s' Hnd Hflat Hrun; simpl in Hrun.
  - injection Hrun as <-. split; [exists []; by rewrite app_nil_r|].
    intros i [].
  - apply bind_Ok in Hrun as (s1 & H1 & H2).
    apply NoDup_cons in Hnd as [Hx Hnd].
    pose proof (handle_changed_spte_extends _ _ _ _ _ _ _ _ H1) as E1.
    assert (Hfx : is_shadow_present_pte (READ_ONCE s (pt + x))
                  && negb (is_last_spte (READ_ONCE s (pt + x)) (level - 1))
                  = false).
    { specialize (Hflat x (or_introl eq_refl)). unfold no_child_table in Hflat.
      by apply negb_true_iff in Hflat. }
    destruct (handle_changed_spte_flat _ _ _ _ _ _ _ _ Hfx H1)
      as (Hmem & rest & Hev & Hrest).
    assert (Hread : forall j, In j l ->
              READ_ONCE s1 (pt + j) = READ_ONCE s (pt + j)).
    { intros j Hj. unfold READ_ONCE at 1. rewrite Hmem.
      apply READ_ONCE_WRITE_ONCE_ne. intros He.
      apply Hx. apply list_elem_of_In. by replace x with j by lia. }
    destruct (IH s1 s' Hnd) as [E2 Hd]; [|exact H2|].
    { intros j Hj. rewrite (Hread j Hj). apply Hflat. by right. }
    assert (E1' : extends s s1) by exact E1.
    split.
    + destruct E1' as [e1 K1], E2 as [e2 K2]. exists (e1 ++ e2).
      by rewrite K2, K1, app_assoc.
    + intros i Hi Hdirty. rewrite (events_since_trans _ _ _ E1' E2).
      apply in_or_app. destruct Hi as [<- | Hi].
      * left. change (events_since s s1)
          with (events_since (WRITE_ONCE s (pt + x) 0) s1).
        rewrite Hev. right. apply in_or_app. right.
        destruct Hrest as [[-> _] | [_ [Hn | Hz]]].
        -- by left.
        -- congruence.
        -- rewrite Hz, dirty_harvest_same in Hdirty. discriminate.
      * right. rewrite <- (Hread i Hi). apply Hd; [exact Hi|].
        by rewrite (Hread i Hi).
Qed.

(** X16. When the handler tears down a table whose entries have no
    tables below them (as every table of level 1 has), no dirty bit
    is lost: for each entry of the table that is a present leaf with
    the dirty bit, kvm_set_pfn_dirty is called for its frame. The zero
    entry has no dirty bit. *)
Theorem X16_teardown_hands_on_the_dirty_bits_of_the_leaves :
  is_dirty_spte 0 = false ->
  forall st as_id gfn old_spte new_spte level st',
    removes_subtree old_spte new_spte level = true ->
    (forall j, 0 <= j < PT64_ENT_PER_PAGE ->
       no_child_table
         (READ_ONCE st (spte_to_child_pt old_spte level + j)) (level - 1)
       = true) ->
    handle_changed_spte st as_id gfn old_spte new_spte level = Ok st' ->
    forall i, 0 <= i < PT64_ENT_PER_PAGE ->
      let child := READ_ONCE st (spte_to_child_pt old_spte level + i) in
      is_shadow_present_pte child = true ->
      is_last_spte child (level - 1) = true ->
      is_dirty_spte child = true ->
      In (kvm_set_pfn_dirty (spte_to_pfn child)) (events_since st st').
Proof.
  intros Hclean st as_id gfn old_spte new_spte level st' Hrm Hflat Hrun i Hi
         child Hp Hlast Hdirty.
  destruct (removes_subtree_facts _ _ _ Hrm) as (Hbug & Hne & Hpo & Hdo).
  unfold handle_changed_spte, __handle_changed_spte in Hrun.
  rewrite handle_changed_spte_rec_eq in Hrun. cbv zeta in Hrun.
  rewrite Hbug, Hne, Hpo, Hrm in Hrun. simpl in Hrun.
  destruct (depth_of_level level) as [|depth]; [discriminate|].
  apply bind_Ok in Hrun as (s3 & Hloop & [= <-]).
  unfold handler_dirty in Hloop. rewrite Hdo in Hloop.
  set (s0 := list_del _ _) in Hloop.
  assert (Hread : forall p, READ_ONCE s0 p = READ_ONCE st p).
  { intros p. unfold s0. by rewrite READ_ONCE_list_del, READ_ONCE_handler_enter. }
  assert (Htr : trace s0 = trace st ++ spte_changed gfn old_spte new_spte level
                                       :: entry_warnings gfn level).
  { unfold s0. simpl. apply trace_handler_enter. }
  apply zap_children_dirty in Hloop as [[evs He] Hd].
  - assert (Hin : In (kvm_set_pfn_dirty (spte_to_pfn child)) evs).
    { rewrite <- (events_since_app _ _ _ He). unfold child.
      rewrite <- Hread. apply Hd; [by apply upto_spec|].
      rewrite Hread. fold child. unfold dirty_harvest, was_leaf.
      by rewrite Hp, Hlast, Hdirty, Hclean. }
    assert (Ht : trace (teardown_tail s3 gfn (spte_to_child_pt old_spte level)
                                      level)
                 = trace st
                   ++ (spte_changed gfn old_spte new_spte level
                       :: entry_warnings gfn level)
                   ++ evs
                   ++ [kvm_flush_remote_tlbs_with_address gfn
                         (KVM_PAGES_PER_HPAGE level);
                       free_page (spte_to_child_pt old_spte level);
                       kmem_cache_free
                         (sptep_to_sp (spte_to_child_pt old_spte level))]).
    { simpl. rewrite He, Htr, <- !app_assoc. reflexivity. }
    rewrite (events_since_app _ _ _ Ht).
    apply in_or_app. right. apply in_or_app. by left.
  - apply NoDup_upto.
  - intros j Hj. rewrite Hread. apply Hflat. by apply upto_spec.
Qed.

End TeardownDirty.

Lemma no_child_table_4K {ops : spte_ops} v :
  leaf_at_4K ops -> no_child_table v PG_LEVEL_4K = true.
Proof.
  intros H. unfold no_child_table. rewrite (H v). simpl.
  by rewrite andb_false_r.
Qed.

(** The entry that points to the table in frame 5 is cleared; the
    table holds a dirty leaf of the host frame 7. *)
Lemma X16_witness :
  exists st',
    handle_changed_spte (ops := x86_ops) one_leaf_table 0 0 (Sample.table 5) 0 2
    = Ok st'
    /\ In (kvm_set_pfn_dirty 7) (events_since one_leaf_table st').
Proof.
  destruct (returns_state
              (handle_changed_spte (ops := x86_ops) one_leaf_table 0 0
                                   (Sample.table 5) 0 2))
    as [st' H]; [vm_compute; reflexivity|].
  exists st'. split; [exact H|].
  assert (Hrm : removes_subtree (ops := x86_ops) (Sample.table 5) 0 2 = true)
    by (vm_compute; reflexivity).
  assert (Hc : @spte_to_pfn x86_ops
                 (READ_ONCE one_leaf_table
                    (@spte_to_child_pt x86_ops (Sample.table 5) 2 + 3))
               = 7) by (vm_compute; reflexivity).
  pose proof (X16_teardown_hands_on_the_dirty_bits_of_the_leaves
                (ops := x86_ops) eq_refl one_leaf_table 0 0 (Sample.table 5)
                0 2 st' Hrm
                (fun j _ => no_child_table_4K _ x86_leaf_at_4K) H 3
                ltac:(change PT64_ENT_PER_PAGE with 512; lia)) as K.
  cbv zeta in K. rewrite Hc in K.
  apply K; vm_compute; reflexivity.
Defined.

(** ** The pages a fault takes *)

Lemma took_pages_refl s : took_pages 0 s s.
Proof. split; [by rewrite drop_0 | reflexivity]. Qed.

Lemma took_pages_trans k1 k2 s1 s2 s3 :
  took_pages k1 s1 s2 -> took_pages k2 s2 s3 -> took_pages (k1 + k2) s1 s3.
Proof.
  intros [C1 P1] [C2 P2]. split.
  - by rewrite C2, C1, drop_drop.
  - rewrite P2, P1, C1, app_assoc, <- rev_app_distr.
    f_equal. f_equal. by rewrite take_take_drop.
Qed.

Lemma took_pages_same s s' :
  mmu_shadow_page_cache s' = mmu_shadow_page_cache s ->
  tdp_mmu_pages s' = tdp_mmu_pages s ->
  took_pages 0 s s'.
Proof. intros C P. split; [by rewrite drop_0 | by rewrite P]. Qed.

Section FaultPages.
Context {ops : spte_ops}.

(** A call of the handler for an old value without a child table
    leaves the pages and the cache alone. *)
Lemma handle_changed_spte_no_child_lists depth st as_id gfn old_spte new_spte
      level st' :
  no_child_table old_spte level = true ->
  handle_changed_spte_rec depth st as_id gfn old_spte new_spte level = Ok st' ->
  mmu_shadow_page_cache st' = mmu_shadow_page_cache st
  /\ tdp_mmu_pages st' = tdp_mmu_pages st.
Proof.
  intros Hflat. rewrite handle_changed_spte_rec_eq. cbv zeta.
  rewrite (no_child_table_removes _ _ _ Hflat).
  unfold handler_dirty, handler_enter, warn_on.
  repeat match goal with
         | |- context [if ?c then _ else _] => destruct c
         end; try discriminate; by intros [= <-].
Qed.

Lemma tdp_mmu_set_spte_no_child_lists st it new_spte st' :
  no_child_table (iter_old_spte it) (iter_level it) = true ->
  tdp_mmu_set_spte st it new_spte = Ok st' ->
  took_pages 0 st st'.
Proof.
  intros Hflat H. unfold tdp_mmu_set_spte, handle_changed_spte,
                    __handle_changed_spte in H.
  apply handle_changed_spte_no_child_lists in H as [C P]; [|exact Hflat].
  by apply took_pages_same.
Qed.

Lemma no_child_table_not_present v level :
  is_shadow_present_pte v = false -> no_child_table v level = true.
Proof. intros H. unfold no_child_table. by rewrite H. Qed.

Lemma no_child_table_large v level :
  large_is_last ops -> is_large_pte v = true -> no_child_table v level = true.
Proof.
  intros Hlarge H. unfold no_child_table. rewrite (Hlarge _ level H).
  simpl. by rewrite andb_false_r.
Qed.

(** One round of the loop of kvm_tdp_mmu_map takes no page, or takes
    the page at the head of the cache and links it. *)
Lemma map_step_takes_pages st vcpu it gfn pfn level st' r :
  large_is_last ops ->
  map_step st vcpu it gfn pfn level = Ok (st', r) ->
  exists k, (k <= 1)%nat /\ took_pages k st st'.
Proof.
  intros Hlarge. unfold map_step.
  destruct (if is_nx_huge_page_enabled then _ else _) as [pfn1 level1].
  destruct (iter_level it =? level1).
  { intros [= <- <-]. exists 0%nat. split; [lia | apply took_pages_refl]. }
  intros H. apply bind_Ok in H as ([s1 it1] & Hzap & H).
  apply bind_Ok in H as (s2 & Hfill & [= <- <-]).
  assert (Hz : took_pages 0 st s1).
  { destruct (is_shadow_present_pte (iter_old_spte it)
              && is_large_pte (iter_old_spte it)) eqn:Hc.
    - apply andb_prop in Hc as [_ Hc].
      apply bind_Ok in Hzap as (s0 & Hset & [= <- <-]).
      apply tdp_mmu_set_spte_no_child_lists in Hset as [C P];
        [|by apply no_child_table_large].
      by split.
    - injection Hzap as <- <-. apply took_pages_refl. }
  destruct (is_shadow_present_pte (iter_old_spte it1)) eqn:Hp;
    simpl in Hfill.
  { injection Hfill as <-. exists 0%nat. split; [lia | exact Hz]. }
  apply bind_Ok in Hfill as ([s3 sp] & Halloc & Hset).
  unfold alloc_tdp_mmu_page, kvm_mmu_memory_cache_alloc in Halloc.
  destruct (mmu_shadow_page_cache s1) as [|c rest] eqn:Hcache;
    [discriminate|].
  simpl in Halloc. injection Halloc as <- <-.
  apply tdp_mmu_set_spte_no_child_lists in Hset as [C P];
    [|by apply no_child_table_not_present].
  exists 1%nat. split; [lia|].
  apply (took_pages_trans 0 1 st s1 s2 Hz).
  match type of C with
  | context [clear_page ?c0 ?X] =>
      destruct (clear_page_fields c0 X) as (_ & Hcc & Hpp)
  end.
  rewrite Hcc in C. rewrite Hpp in P. simpl in C, P.
  split.
  - rewrite C, Hcache. reflexivity.
  - rewrite P, Hcache. reflexivity.
Qed.

End FaultPages.

Section WalkPages.
Context {ops : spte_ops}.
Variables (gfn target pfn : Z) (vcpu : kvm_vcpu).
Hypothesis Hzero : zero_not_present ops.
Hypothesis Hlarge : large_is_last ops.
Hypothesis Hnx : nx_inert gfn target pfn.
Hypothesis Htarget : 1 <= target.
Hypothesis Hgfn : 0 <= gfn < 2 ^ 64 - 1.

(** The walk of kvm_tdp_mmu_map takes one page from the cache for each
    table that is missing on the way to the target level, and no
    other. *)
Lemma map_loop_takes_pages n :
  forall fuel st it pt,
    (n < fuel)%nat ->
    iter_at gfn it pt (target + Z.of_nat n) ->
    snapshot_current st it ->
    let tabs := walk_tables gfn n st pt (target + Z.of_nat n) in
    let fresh := take (S n - length tabs) (mmu_shadow_page_cache st) in
    length fresh = (S n - length tabs)%nat ->
    Forall table_pointer fresh ->
    Forall (fun t => t <> 0) tabs ->
    separated (tabs ++ fresh) ->
    exists st' r,
      map_loop fuel st vcpu it gfn pfn target = Ok (st', r)
      /\ took_pages (S n - length tabs) st st'.
Proof.
  induction n as [|n IH]; intros fuel st it pt Hfuel Hat Hsnap tabs fresh
                                 Hlen Hptr Hnz Hsep.
  - destruct fuel as [|fuel]; [lia|]. simpl.
    rewrite (iter_at_in_range gfn Hgfn _ _ _ Hat).
    destruct Hat as (Hv & Hl & Hgoal & Hg & Hs & Hmin).
    rewrite Z.add_0_r in *.
    rewrite (map_step_at_target gfn target pfn vcpu Hnx st it Hl).
    simpl. exists st, (mk_round true it pfn target).
    split; [reflexivity | apply took_pages_refl].
  - destruct fuel as [|fuel]; [lia|].
    set (k := target + Z.of_nat (S n)) in *.
    assert (Hk1 : k - 1 = target + Z.of_nat n) by (subst k; lia).
    assert (Hk : PG_LEVEL_4K < k) by (unfold PG_LEVEL_4K; subst k; lia).
    assert (Hkt : k <> target) by (subst k; lia).
    pose proof Hat as (Hv & Hl & Hgoal & Hg & Hs & Hmin).
    assert (Hold : iter_old_spte it = READ_ONCE st (entry_addr gfn pt k))
      by (rewrite Hsnap, Hs; reflexivity).
    cbn [map_loop]. rewrite (iter_at_in_range gfn Hgfn _ _ _ Hat).
    subst tabs fresh. cbn [walk_tables] in *.
    destruct (is_table_entry (READ_ONCE st (entry_addr gfn pt k))) eqn:He.
    + set (c := spte_to_child_pt (READ_ONCE st (entry_addr gfn pt k)) k) in *.
      rewrite (map_step_through gfn target pfn vcpu Hnx st it)
        by (rewrite ?Hl, ?Hold; auto).
      cbn [bind round_break round_iter round_pfn round_level].
      rewrite Hk1 in *.
      assert (Hc0 : c <> 0).
      { apply Forall_cons in Hnz as [_ Hnz].
        destruct n; simpl in Hnz; by apply Forall_cons in Hnz as [? _]. }
      destruct (next_at gfn st it pt k c Hat Hk eq_refl Hc0) as [Hat' Hsnap'].
      rewrite Hk1 in Hat'.
      cbn [length Nat.sub] in *.
      apply Forall_cons in Hnz as [_ Hnz].
      destruct (IH fuel st (tdp_iter_next st it) c) as (st' & r & Hrun & Ht);
        auto.
      { lia. }
      { simpl in Hsep. apply Hsep. }
      exists st', r. by split.
    + cbn [length Nat.sub] in *.
      destruct (mmu_shadow_page_cache st) as [|c rest] eqn:Hcache;
        [discriminate|].
      cbn [take length] in *.
      apply Forall_cons in Hptr as [(Hc0 & Hte & Hchild) Hptr].
      destruct (map_step_fill gfn target pfn vcpu Hzero Hlarge Hnx
                  st it c rest) as (st2 & v & Hstep & Hrd & Hfr & Hro & Hca);
        auto; [by rewrite Hl | by rewrite Hold|].
      rewrite Hstep.
      cbn [bind round_break round_iter round_pfn round_level].
      rewrite Hs in Hrd, Hfr.
      assert (Hat1 : iter_at gfn (set_old_spte v it) pt k)
        by by apply iter_at_set_old_spte.
      destruct (next_at gfn st2 (set_old_spte v it) pt k c Hat1 Hk)
        as [Hat' Hsnap'];
        [rewrite Hrd; by apply Hchild | exact Hc0 |].
      rewrite Hk1 in Hat'.
      assert (Hpc : forall a, in_page c a -> READ_ONCE st2 a = 0).
      { intros a Ha. rewrite Hfr.
        - unfold in_page in Ha.
          replace ((c <=? a) && (a <? c + PT64_ENT_PER_PAGE)) with true;
            [reflexivity|]. symmetry. apply andb_true_iff. split; lia.
        - intros ->. revert Ha. eapply separated_head; [exact Hsep | |by left].
          apply entry_addr_in_page. }
      assert (Hfresh : READ_ONCE st2 (entry_addr gfn c (target + Z.of_nat n))
                       = 0) by (apply Hpc, entry_addr_in_page).
      assert (Htab2 : walk_tables gfn n st2 c (target + Z.of_nat n) = [c])
        by (by apply walk_tables_fresh).
      assert (Hm2 : (S n - length [c])%nat = n) by (simpl; lia).
      destruct (IH fuel st2 (tdp_iter_next st2 (set_old_spte v it)) c) as
        (st' & r & Hrun & Ht); auto.
      { lia. }
      { rewrite Htab2, Hm2, Hca. simpl in Hlen. lia. }
      { by rewrite Htab2, Hm2, Hca. }
      { rewrite Htab2. by repeat constructor. }
      { rewrite Htab2, Hm2, Hca. simpl in Hsep. apply Hsep. }
      rewrite Htab2, Hm2 in Ht.
      exists st', r. split; [exact Hrun|].
      destruct (map_step_takes_pages _ _ _ _ _ _ _ _ Hlarge Hstep)
        as (k1 & Hk1le & Ht1).
      assert (k1 = 1%nat) as ->.
      { destruct Ht1 as [C _]. rewrite Hca, Hcache in C.
        destruct k1 as [|[|k1]]; [|reflexivity|lia].
        simpl in C. apply (f_equal length) in C. simpl in C. lia. }
      replace (S n) with (1 + n)%nat by lia.
      exact (took_pages_trans _ _ _ _ _ Ht1 Ht).
Qed.

End WalkPages.

Section FaultTakesPages.
Context {ops : spte_ops}.

Lemma target_level_lists st write map_writable it pfn prefault st' ret :
  no_child_table (iter_old_spte it) (iter_level it) = true ->
  tdp_mmu_map_handle_target_level st write map_writable it pfn prefault
  = Ok (st', ret) ->
  took_pages 0 st st'.
Proof.
  intros Hflat. unfold tdp_mmu_map_handle_target_level.
  destruct (if is_noslot_pfn pfn then _ else _) as [flags new_spte].
  intros H. apply bind_Ok in H as ([s1 r1] & Hset & H).
  assert (H1 : took_pages 0 st s1).
  { destruct (new_spte =? iter_old_spte it).
    - injection Hset as <- <-. apply took_pages_refl.
    - apply bind_Ok in Hset as (s0 & Hset & [= <- <-]).
      by apply tdp_mmu_set_spte_no_child_lists in Hset. }
  destruct H1 as [C P].
  destruct (negb (Z.land flags SET_SPTE_WRITE_PROTECTED_PT =? 0)), prefault;
    injection H as <- _; by split.
Qed.

(** X17. A fault kvm_tdp_mmu_map resolves takes from the cache of the
    vCPU exactly one page for each table that is missing on the walk
    to the level of the fault, from the head of the cache, and links
    each on the list of pages of the TDP MMU; no page is taken for a
    table that is there, none is put back. *)
Theorem X17_fault_takes_one_page_for_each_missing_table :
  zero_not_present ops -> large_is_last ops ->
  forall fuel st vcpu gpa error_code map_writable max_level pfn prefault
         level pfn' req_level,
    let gfn := Z.shiftr gpa PAGE_SHIFT in
    0 <= gpa < 2 ^ 64 ->
    fault_walk_ready st vcpu gfn level ->
    (Z.to_nat (shadow_root_level vcpu - level) < fuel)%nat ->
    kvm_mmu_hugepage_adjust gfn max_level pfn
      (negb (Z.land error_code PFERR_FETCH_MASK =? 0)
       && is_nx_huge_page_enabled)
    = (level, pfn', req_level) ->
    nx_inert gfn level pfn' ->
    no_child_table (fault_target_entry st vcpu gfn level) level = true ->
    forall st' ret,
      kvm_tdp_mmu_map fuel st vcpu gpa error_code map_writable max_level pfn
                      prefault = Ok (st', ret) ->
      mmu_shadow_page_cache st'
      = drop (length (fault_pages st vcpu gfn level))
             (mmu_shadow_page_cache st)
      /\ List.map sp_spt (tdp_mmu_pages st')
         = rev (fault_pages st vcpu gfn level)
           ++ List.map sp_spt (tdp_mmu_pages st).
Proof.
  intros Hzero Hlarge fuel st vcpu gpa error_code map_writable max_level pfn
         prefault level pfn' req_level gfn Hgpa Hready Hfuel Hadj Hnx Hflat
         st' ret Hrun.
  pose proof Hready as (Hvalid & (root & Hfind & Htdp & Hcount) & Hlevel
                        & Hlen & Hptr & Hnz & Hsep).
  set (n := Z.to_nat (shadow_root_level vcpu - level)) in *.
  assert (HR : shadow_root_level vcpu = level + Z.of_nat n)
    by (unfold n; lia).
  set (it0 := tdp_iter_start st (__va (root_hpa vcpu))
                             (shadow_root_level vcpu) PG_LEVEL_4K gfn).
  assert (Hat : iter_at gfn it0 (__va (root_hpa vcpu)) (level + Z.of_nat n))
    by (rewrite <- HR; apply iter_at_start).
  unfold fault_pages, fault_tables in Hlen, Hptr, Hnz, Hsep. fold n in Hlen,
    Hptr, Hnz, Hsep. rewrite HR in Hlen, Hptr, Hnz, Hsep.
  destruct (map_loop_reaches gfn level pfn' vcpu Hzero Hlarge Hnx
              (proj1 Hlevel) (gfn_of_gpa gpa Hgpa) n fuel st it0
              (__va (root_hpa vcpu)) Hfuel Hat (snapshot_start _ _ _ _ _)
              Hlen Hptr Hnz Hsep)
    as (s & it & p & Hloop & Hl & Hg & Hp & Hold & _).
  destruct (map_loop_takes_pages gfn level pfn' vcpu Hzero Hlarge Hnx
              (proj1 Hlevel) (gfn_of_gpa gpa Hgpa) n fuel st it0
              (__va (root_hpa vcpu)) Hfuel Hat (snapshot_start _ _ _ _ _)
              Hlen Hptr Hnz Hsep)
    as (s' & r & Hloop' & Htook).
  rewrite Hloop in Hloop'. injection Hloop' as <- <-.
  unfold kvm_tdp_mmu_map in Hrun. fold gfn in Hrun. rewrite Hvalid in Hrun.
  rewrite (is_tdp_mmu_root_of_roots _ _ _ Hfind Htdp Hcount) in Hrun.
  cbn [negb] in Hrun. rewrite Hadj in Hrun. fold it0 in Hrun.
  rewrite Hloop in Hrun.
  cbn [bind round_iter round_level round_pfn] in Hrun.
  rewrite Hl, Z.eqb_refl in Hrun. cbn [negb] in Hrun.
  apply target_level_lists in Hrun.
  - pose proof (took_pages_trans _ _ _ _ _ Htook Hrun) as [C P].
    rewrite Nat.add_0_r in C, P.
    unfold fault_pages, fault_tables. fold n. rewrite HR.
    rewrite Hlen. split; [exact C | exact P].
  - rewrite Hl, Hold. unfold fault_target_entry in Hflat. fold n in Hflat.
    rewrite HR in Hflat. exact Hflat.
Qed.

End FaultTakesPages.

(** The write fault on the guest frame 600 of [sample_tree] takes the
    page 32 for the table below the large leaf it replaces. *)
Lemma X17_witness :
  exists st' ret,
    kvm_tdp_mmu_map 8 sample_tree sample_vcpu (600 * 4096) 2 1 1 77 false
    = Ok (st', ret)
    /\ mmu_shadow_page_cache st'
       = drop (length [512 * 32]) (mmu_shadow_page_cache sample_tree)
    /\ List.map sp_spt (tdp_mmu_pages st')
       = rev [512 * 32] ++ List.map sp_spt (tdp_mmu_pages sample_tree).
Proof.
  destruct (returns_inv (fun _ => true)
              (kvm_tdp_mmu_map 8 sample_tree sample_vcpu (600 * 4096) 2 1 1
                               77 false))
    as ([st' ret] & H & _); [vm_compute; reflexivity|].
  exists st', ret. split; [exact H|].
  assert (Hflat : no_child_table (ops := x86_ops)
                    (fault_target_entry sample_tree sample_vcpu 600 1) 1
                  = true) by (vm_compute; reflexivity).
  assert (Hp : fault_pages (ops := x86_ops) sample_tree sample_vcpu 600 1
               = [512 * 32]) by (vm_compute; reflexivity).
  rewrite <- Hp.
  refine (X17_fault_takes_one_page_for_each_missing_table
            (ops := x86_ops) x86_zero_not_present x86_large_is_last
            8%nat sample_tree sample_vcpu (600 * 4096) 2 1 1 77 false
            1 77 1 _ _ _ _ _ Hflat st' ret H).
  - lia.
  - exact sample_fault_walk_ready.
  - simpl. lia.
  - reflexivity.
  - left. reflexivity.
Defined.

(** ** Writing one entry *)

Section SetSpte.
Context {ops : spte_ops}.


End SetSpte.


(** ** Zapping one guest frame *)

Lemma round_gfn_round g a b :
  0 < a -> 0 < b ->
  (g - g mod a) - (g - g mod a) mod (a * b) = g - g mod (a * b).
Proof.
  intros Ha Hb. rewrite (Z.rem_mul_r g a b) by lia.
  assert (E : g - g mod a = a * (g / a))
    by (pose proof (Z.div_mod g a); lia).
  rewrite E, Z.mul_mod_distr_l by lia. lia.
Qed.

Lemma KVM_PAGES_PER_HPAGE_succ level :
  1 <= level <= 4 ->
  KVM_PAGES_PER_HPAGE (level + 1) = KVM_PAGES_PER_HPAGE level * 512.
Proof.
  intros H.
  assert (level = 1 \/ level = 2 \/ level = 3 \/ level = 4)
    as [-> | [-> | [-> | ->]]] by lia; reflexivity.
Qed.

Lemma KVM_PAGES_PER_HPAGE_bounds level :
  1 <= level <= 5 -> 1 <= KVM_PAGES_PER_HPAGE level <= 2 ^ 36.
Proof.
  intros H.
  assert (level = 1 \/ level = 2 \/ level = 3 \/ level = 4 \/ level = 5)
    as [-> | [-> | [-> | [-> | ->]]]] by lia; vm_compute; split; discriminate.
Qed.

Lemma KVM_PAGES_PER_HPAGE_table level :
  2 <= level <= 5 -> 512 <= KVM_PAGES_PER_HPAGE level.
Proof.
  intros H.
  assert (level = 2 \/ level = 3 \/ level = 4 \/ level = 5)
    as [-> | [-> | [-> | ->]]] by lia; vm_compute; discriminate.
Qed.

Lemma round_gfn_for_level_up g level :
  1 <= level <= 4 ->
  round_gfn_for_level (round_gfn_for_level g level) (level + 1)
  = round_gfn_for_level g (level + 1).
Proof.
  intros H. unfold round_gfn_for_level.
  rewrite KVM_PAGES_PER_HPAGE_succ by exact H.
  pose proof (KVM_PAGES_PER_HPAGE_bounds level ltac:(lia)).
  apply round_gfn_round; lia.
Qed.

Lemma round_gfn_for_level_above g level :
  1 <= level <= 5 ->
  g < round_gfn_for_level g level + KVM_PAGES_PER_HPAGE level.
Proof.
  intros H. unfold round_gfn_for_level.
  pose proof (KVM_PAGES_PER_HPAGE_bounds level H).
  pose proof (Z.mod_pos_bound g (KVM_PAGES_PER_HPAGE level)). lia.
Qed.

Section ZapFrame.
Context {ops : spte_ops}.
Variable gfn : Z.
Hypothesis Hzero : zero_not_present ops.
Hypothesis Htable : table_not_last ops.
Hypothesis Hchild : absent_no_child ops.
Hypothesis Hgfn : 0 <= gfn < 2 ^ 52.

(** From an entry that covers the guest frame, the walker that cannot
    go down goes to an entry beyond the frame, or ends. *)
Lemma step_side_or_up_beyond n :
  forall st it,
    1 <= iter_level it <= iter_root_level it ->
    iter_root_level it <= 5 ->
    iter_gfn it = round_gfn_for_level gfn (iter_level it) ->
    iter_valid (step_side_or_up n st it) = false
    \/ gfn < iter_gfn (step_side_or_up n st it).
Proof.
  induction n as [|n IH]; intros st it Hl Hr Hg.
  all: pose proof (round_gfn_for_level_above gfn (iter_level it) ltac:(lia)).
  all: pose proof (round_gfn_for_level_bounds gfn (iter_level it) ltac:(lia)).
  all: pose proof (KVM_PAGES_PER_HPAGE_bounds (iter_level it) ltac:(lia)).
  all: assert (Hside : forall it', try_step_side st it = Some it' ->
                 gfn < iter_gfn it').
  1, 3: intros it'; unfold try_step_side;
    destruct (SHADOW_PT_INDEX _ _ =? _); [discriminate|];
    intros [= <-]; simpl; unfold wrap64; rewrite Z.mod_small; lia.
  - simpl. destruct (try_step_side st it) as [it'|] eqn:Hs.
    + right. by apply Hside.
    + by left.
  - simpl. destruct (try_step_side st it) as [it'|] eqn:Hs.
    + right. by apply Hside.
    + unfold try_step_up.
      destruct (Z.eqb_spec (iter_level it) (iter_root_level it)) as [E | E];
        [by left|].
      apply IH; simpl; [lia | lia |].
      rewrite Hg. apply round_gfn_for_level_up. lia.
Qed.

Lemma tdp_iter_next_beyond st it :
  1 <= iter_level it <= iter_root_level it ->
  iter_root_level it <= 5 ->
  iter_gfn it = round_gfn_for_level gfn (iter_level it) ->
  spte_to_child_pt (READ_ONCE st (iter_sptep it)) (iter_level it) = 0 ->
  iter_valid (tdp_iter_next st it) = false
  \/ gfn < iter_gfn (tdp_iter_next st it).
Proof.
  intros Hl Hr Hg Hrd. unfold tdp_iter_next, try_step_down.
  rewrite Hrd, Z.eqb_refl.
  destruct (iter_level it =? iter_min_level it); cbv beta iota;
    by apply step_side_or_up_beyond.
Qed.

(** The round of the loop at an entry that points to a table on the
    way to the frame: nothing is changed, and the walker goes down. *)
Lemma zap_step_through st it t k t' f :
  iter_at gfn it t k -> snapshot_current st it ->
  PG_LEVEL_4K < k <= 5 ->
  is_table_entry (READ_ONCE st (entry_addr gfn t k)) = true ->
  spte_to_child_pt (READ_ONCE st (entry_addr gfn t k)) k = t' ->
  t' <> 0 ->
  zap_step st it gfn (gfn + 1) false f = Ok (st, it, f)
  /\ iter_at gfn (tdp_iter_next st it) t' (k - 1)
  /\ snapshot_current st (tdp_iter_next st it)
  /\ iter_root_level (tdp_iter_next st it) = iter_root_level it.
Proof.
  intros Hat Hsnap Hk He Hc Hne.
  pose proof Hat as (Hv & Hl & Hgoal & Hg & Hs & Hmin).
  pose proof (round_gfn_for_level_bounds gfn k ltac:(lia)) as Hrb.
  assert (Hk4 : PG_LEVEL_4K < k) by lia.
  assert (Hold : iter_old_spte it = READ_ONCE st (entry_addr gfn t k))
    by (rewrite Hsnap, Hs; reflexivity).
  unfold is_table_entry in He. apply andb_prop in He as [Hp Hnl].
  apply negb_true_iff in Hnl.
  split.
  - unfold zap_step. rewrite Hold, Hp, Hl, Hg.
    rewrite (Htable _ k Hk4 Hnl). cbn [negb].
    pose proof (KVM_PAGES_PER_HPAGE_table k
                  ltac:(unfold PG_LEVEL_4K in *; lia)) as Hpg.
    pose proof (KVM_PAGES_PER_HPAGE_bounds k
                  ltac:(unfold PG_LEVEL_4K in *; lia)) as Hpb.
    replace ((round_gfn_for_level gfn k <? gfn)
             || (wrap64 (round_gfn_for_level gfn k + KVM_PAGES_PER_HPAGE k)
                 >? gfn + 1)) with true; [reflexivity|].
    symmetry. apply orb_true_iff.
    destruct (decide (round_gfn_for_level gfn k = gfn)) as [E | E].
    + right. apply Z.gtb_lt. unfold wrap64.
      rewrite Z.mod_small by lia. lia.
    + left. apply Z.ltb_lt. lia.
  - destruct (next_at gfn st it t k t' Hat Hk4 Hc Hne) as [Hat' Hsnap'].
    assert (Hm : iter_level it <> iter_min_level it)
      by (rewrite Hl, Hmin; lia).
    assert (Hch : spte_to_child_pt (READ_ONCE st (iter_sptep it))
                                   (iter_level it) <> 0)
      by (rewrite Hs, Hl, Hc; exact Hne).
    destruct (tdp_iter_next_descends st it Hm Hch)
      as (_ & _ & _ & _ & _ & _ & Hrl & _).
    split; [exact Hat'|]. split; [exact Hsnap'|]. exact Hrl.
Qed.

(** The loop ends at a walker that is beyond the frame or not valid. *)
Lemma zap_loop_ends fuel st it f :
  iter_valid it = false \/ gfn < iter_gfn it ->
  zap_loop fuel st it gfn (gfn + 1) false f = Ok (st, f).
Proof.
  intros [Hinv | Hbey].
  - destruct fuel; simpl; by rewrite Hinv.
  - assert (Hlt : (iter_gfn it <? gfn + 1) = false) by (apply Z.ltb_ge; lia).
    destruct fuel; simpl; rewrite Hlt, andb_false_r; reflexivity.
Qed.

(** The loop of zap_gfn_range for the one guest frame [gfn], without
    yielding: it goes down the tables that are linked for the frame,
    changing nothing, to the leaf that maps it, sets that entry to
    zero, and ends. *)
Lemma zap_loop_follows ts :
  forall fuel st it k p level f,
    (length ts <= fuel)%nat ->
    path_in gfn st ts k p ->
    1 <= level -> k = level + (Z.of_nat (length ts) - 1) ->
    iter_at gfn it (hd 0 ts) k -> snapshot_current st it ->
    k <= iter_root_level it -> iter_root_level it <= 5 ->
    is_shadow_present_pte (READ_ONCE st p) = true ->
    is_last_spte (READ_ONCE st p) level = true ->
    exists st',
      zap_loop fuel st it gfn (gfn + 1) false f = Ok (st', true)
      /\ READ_ONCE st' p = 0
      /\ (forall a, a <> p -> READ_ONCE st' a = READ_ONCE st a).
Proof.
  induction ts as [|t ts IH];
    intros fuel st it k p level f Hfuel Hpath Hlv Hk Hat Hsnap Hroot Hr5
           Hpres Hlast; [destruct Hpath|].
  destruct fuel as [|fuel]; [simpl in Hfuel; lia|].
  pose proof Hat as (Hv & Hl & Hgoal & Hg & Hs & Hmin).
  pose proof (round_gfn_for_level_bounds gfn k ltac:(lia)) as Hrb.
  cbn [zap_loop]. rewrite Hv, Hg.
  replace (round_gfn_for_level gfn k <? gfn + 1) with true
    by (symmetry; apply Z.ltb_lt; lia).
  cbn [andb hd] in *. destruct ts as [|t' rest].
  - (* the leaf *)
    simpl in Hpath, Hk. assert (k = level) as -> by lia. subst p.
    assert (Hold : iter_old_spte it = READ_ONCE st (entry_addr gfn t level))
      by (rewrite Hsnap, Hs; reflexivity).
    unfold zap_step. rewrite Hold, Hpres, Hl, Hlast. cbn [negb andb].
    rewrite andb_false_r.
    destruct (tdp_mmu_set_spte_no_child st it 0) as (s1 & Hset & Hheap).
    { rewrite Hold, Hl. unfold no_child_table. rewrite Hlast. simpl.
      by rewrite andb_false_r. }
    { by apply bug_transition_zero. }
    rewrite Hset. cbn [bind]. rewrite Hs in Hheap.
    assert (Hrd : READ_ONCE s1 (entry_addr gfn t level) = 0)
      by (rewrite (heap_eq_READ _ _ _ Hheap); apply READ_ONCE_WRITE_ONCE).
    exists s1.
    split; [|split; [exact Hrd|]].
    + apply zap_loop_ends. apply tdp_iter_next_beyond;
        [lia | lia | by rewrite Hl |].
      rewrite Hs, Hrd. apply Hchild. exact Hzero.
    + intros a Ha. rewrite (heap_eq_READ _ _ _ Hheap).
      apply READ_ONCE_WRITE_ONCE_ne. congruence.
  - (* a table on the way *)
    cbn [path_in] in Hpath. destruct Hpath as (He & Hc & Hne & Hpath).
    cbn [length] in Hk, Hfuel.
    destruct (zap_step_through st it t k t' f Hat Hsnap
                ltac:(unfold PG_LEVEL_4K; lia) He Hc Hne)
      as (Hstep & Hat' & Hsnap' & Hrl).
    rewrite Hstep. cbn [bind].
    apply (IH fuel st (tdp_iter_next st it) (k - 1) p level f);
      [ cbn [length] in *; lia | exact Hpath | exact Hlv
      | cbn [length] in *; lia | exact Hat' | exact Hsnap'
      | rewrite Hrl; lia | by rewrite Hrl | exact Hpres | exact Hlast ].
Qed.

(** The same loop where the walk for the frame ends at an entry that
    is not present, at whatever level: nothing is changed. *)
Lemma zap_loop_absent ts :
  forall fuel st it k p f,
    (length ts <= fuel)%nat ->
    path_in gfn st ts k p ->
    Z.of_nat (length ts) <= k ->
    iter_at gfn it (hd 0 ts) k -> snapshot_current st it ->
    k <= iter_root_level it -> iter_root_level it <= 5 ->
    is_shadow_present_pte (READ_ONCE st p) = false ->
    zap_loop fuel st it gfn (gfn + 1) false f = Ok (st, f).
Proof.
  induction ts as [|t ts IH];
    intros fuel st it k p f Hfuel Hpath Hk Hat Hsnap Hroot Hr5 Habs;
    [destruct Hpath|].
  destruct fuel as [|fuel]; [simpl in Hfuel; lia|].
  pose proof Hat as (Hv & Hl & Hgoal & Hg & Hs & Hmin).
  pose proof (round_gfn_for_level_bounds gfn k ltac:(lia)) as Hrb.
  cbn [zap_loop]. rewrite Hv, Hg.
  replace (round_gfn_for_level gfn k <? gfn + 1) with true
    by (symmetry; apply Z.ltb_lt; lia).
  cbn [andb hd] in *. destruct ts as [|t' rest].
  - simpl in Hpath, Hk. subst p.
    assert (Hold : iter_old_spte it = READ_ONCE st (entry_addr gfn t k))
      by (rewrite Hsnap, Hs; reflexivity).
    unfold zap_step. rewrite Hold, Habs. cbn [negb bind].
    apply zap_loop_ends. apply tdp_iter_next_beyond;
      [lia | lia | by rewrite Hl |].
    rewrite Hs. by apply Hchild.
  - cbn [path_in] in Hpath. destruct Hpath as (He & Hc & Hne & Hpath).
    cbn [length] in Hk, Hfuel.
    destruct (zap_step_through st it t k t' f Hat Hsnap
                ltac:(unfold PG_LEVEL_4K; lia) He Hc Hne)
      as (Hstep & Hat' & Hsnap' & Hrl).
    rewrite Hstep. cbn [bind].
    apply (IH fuel st (tdp_iter_next st it) (k - 1) p f);
      [ cbn [length] in *; lia | exact Hpath | cbn [length] in *; lia
      | exact Hat' | exact Hsnap' | rewrite Hrl; lia | by rewrite Hrl
      | exact Habs ].
Qed.

End ZapFrame.

Section ZapOneFrame.
Context {ops : spte_ops}.

(** X19. zap_gfn_range for the one guest frame [gfn], not yielding, in
    a tree where the tables for the frame are linked from the root
    down to a present leaf of some level: the walk changes nothing on
    the way down, the leaf -- of whatever size -- is set to zero, true
    is returned, and no other word of memory is changed. *)
Theorem X19_zap_of_one_frame_clears_the_leaf_that_maps_it :
  zero_not_present ops -> table_not_last ops -> absent_no_child ops ->
  forall fuel st root gfn tables p level,
    0 <= gfn < 2 ^ 52 ->
    1 <= level ->
    role_level (sp_role root) = level + (Z.of_nat (length tables) - 1) ->
    role_level (sp_role root) <= 5 ->
    hd 0 tables = sp_spt root ->
    path_in gfn st tables (role_level (sp_role root)) p ->
    is_shadow_present_pte (READ_ONCE st p) = true ->
    is_last_spte (READ_ONCE st p) level = true ->
    (length tables <= fuel)%nat ->
    exists st',
      zap_gfn_range fuel st root gfn (gfn + 1) false = Ok (st', true)
      /\ READ_ONCE st' p = 0
      /\ (forall a, a <> p -> READ_ONCE st' a = READ_ONCE st a).
Proof.
  intros Hzero Htable Hchild fuel st root gfn tables p level Hgfn Hlv Hk Hr5
         Hhd Hpath Hpres Hlast Hfuel.
  unfold zap_gfn_range.
  apply (zap_loop_follows gfn Hzero Htable Hchild Hgfn tables fuel st _
           (role_level (sp_role root)) p level false);
    try assumption.
  - rewrite Hhd. apply iter_at_start.
  - apply snapshot_start.
  - simpl. lia.
Qed.

(** X20. A fault and the zap of its guest frame: after
    kvm_tdp_mmu_map has resolved a fault with a present leaf, the entry
    at the end of the walk holds that leaf; zap_gfn_range for the
    frame, on the root of the vCPU, then sets that entry to zero,
    returns true and changes no other word of memory. *)
Theorem X20_zap_after_a_fault_clears_the_leaf_it_installed :
  zero_not_present ops -> large_is_last ops -> table_not_last ops ->
  absent_no_child ops ->
  forall fuel st vcpu gpa error_code map_writable max_level pfn prefault
         level pfn' req_level flags new_spte root,
    let gfn := Z.shiftr gpa PAGE_SHIFT in
    let old_spte := fault_target_entry st vcpu gfn level in
    0 <= gpa < 2 ^ 64 ->
    fault_walk_ready st vcpu gfn level ->
    (Z.to_nat (shadow_root_level vcpu - level) < fuel)%nat ->
    kvm_mmu_hugepage_adjust gfn max_level pfn
      (negb (Z.land error_code PFERR_FETCH_MASK =? 0)
       && is_nx_huge_page_enabled)
    = (level, pfn', req_level) ->
    nx_inert gfn level pfn' ->
    (if is_noslot_pfn pfn'
     then (0, make_mmio_spte (round_gfn_for_level gfn level) ACC_ALL)
     else make_spte ACC_ALL level (round_gfn_for_level gfn level) pfn'
                    old_spte prefault true map_writable
                    (shadow_accessed_mask =? 0))
    = (flags, new_spte) ->
    no_child_table old_spte level = true ->
    bug_transition old_spte new_spte level = false ->
    is_shadow_present_pte new_spte = true ->
    is_last_spte new_spte level = true ->
    sp_spt root = __va (root_hpa vcpu) ->
    role_level (sp_role root) = shadow_root_level vcpu ->
    shadow_root_level vcpu <= 5 ->
    exists st1 ret p st2,
      kvm_tdp_mmu_map fuel st vcpu gpa error_code map_writable max_level pfn
                      prefault = Ok (st1, ret)
      /\ READ_ONCE st1 p = new_spte
      /\ zap_gfn_range fuel st1 root gfn (gfn + 1) false = Ok (st2, true)
      /\ READ_ONCE st2 p = 0
      /\ (forall a, a <> p -> READ_ONCE st2 a = READ_ONCE st1 a).
Proof.
  intros Hzero Hlarge Htable Hchild fuel st vcpu gpa error_code map_writable
         max_level pfn prefault level pfn' req_level flags new_spte root
         gfn old_spte Hgpa Hready Hfuel Hadj Hnx Hmk Hflat Hbug Hpres Hlast
         Hspt Hrole Hr5.
  destruct (kvm_tdp_mmu_map_resolves Hzero Hlarge fuel st vcpu gpa error_code
              map_writable max_level pfn prefault level pfn' req_level flags
              new_spte Hgpa Hready Hfuel Hadj Hnx Hmk Hflat Hbug)
    as (st1 & ret & p & Hrun & Hpath & Hread & _).
  fold gfn in Hpath.
  destruct Hready as (_ & _ & Hlevel & Hlen & _).
  set (n := Z.to_nat (shadow_root_level vcpu - level)) in *.
  set (ts := fault_tables st vcpu gfn level ++ fault_pages st vcpu gfn level)
    in *.
  assert (Hts : length ts = S n).
  { unfold ts. rewrite length_app, Hlen.
    pose proof (walk_tables_length gfn n st (__va (root_hpa vcpu))
                  (shadow_root_level vcpu)) as Hb.
    unfold fault_tables. fold n. lia. }
  assert (Hgfn : 0 <= gfn < 2 ^ 52).
  { unfold gfn, PAGE_SHIFT. rewrite Z.shiftr_div_pow2 by lia.
    split; [apply Z.div_pos; lia | apply Z.div_lt_upper_bound; lia]. }
  destruct (zap_loop_follows gfn Hzero Htable Hchild Hgfn ts fuel st1
              (tdp_iter_start st1 (sp_spt root) (role_level (sp_role root))
                              PG_LEVEL_4K gfn)
              (shadow_root_level vcpu) p level false)
    as (st2 & Hzap & Hz & Hother).
  - lia.
  - exact Hpath.
  - lia.
  - rewrite Hts. unfold n. lia.
  - unfold ts, fault_tables. rewrite hd_app_walk_tables, Hspt, Hrole.
    apply iter_at_start.
  - apply snapshot_start.
  - simpl. lia.
  - simpl. lia.
  - by rewrite Hread.
  - by rewrite Hread.
  - by exists st1, ret, p, st2.
Qed.

(** X21. zap_gfn_range for a guest frame that nothing maps, not
    yielding: where the walk for the frame ends at an entry that is not
    present, at whatever level of the tree, the call returns false --
    no flush is needed -- and leaves the state, trace included, as it
    was. *)
Theorem X21_zap_of_an_unmapped_frame_changes_nothing :
  table_not_last ops -> absent_no_child ops ->
  forall fuel st root gfn tables p,
    0 <= gfn < 2 ^ 52 ->
    Z.of_nat (length tables) <= role_level (sp_role root) ->
    role_level (sp_role root) <= 5 ->
    hd 0 tables = sp_spt root ->
    path_in gfn st tables (role_level (sp_role root)) p ->
    is_shadow_present_pte (READ_ONCE st p) = false ->
    (length tables <= fuel)%nat ->
    zap_gfn_range fuel st root gfn (gfn + 1) false = Ok (st, false).
Proof.
  intros Htable Hchild fuel st root gfn tables p Hgfn Hk Hr5 Hhd Hpath Habs
         Hfuel.
  unfold zap_gfn_range.
  apply (zap_loop_absent gfn Htable Hchild Hgfn tables fuel st _
           (role_level (sp_role root)) p false);
    try assumption.
  - rewrite Hhd. apply iter_at_start.
  - apply snapshot_start.
  - simpl. lia.
Qed.

End ZapOneFrame.

Lemma x86_table_not_last : table_not_last x86_ops.
Proof.
  intros pte level Hl H. simpl in *. unfold X86.is_last_spte.
  rewrite H, orb_false_r. apply Z.eqb_neq. lia.
Qed.

Lemma x86_absent_no_child : absent_no_child x86_ops.
Proof.
  intros pte level H. simpl in *. unfold X86.spte_to_child_pt. by rewrite H.
Qed.

(** The walk of [sample_tree] for the guest frame 3: the pages 16, 17,
    18 and 19, to the leaf of the host frame 103. *)
Lemma sample_path_of_frame_3 :
  path_in (ops := x86_ops) 3 sample_tree
          [512 * 16; 512 * 17; 512 * 18; 512 * 19] 4 (512 * 19 + 3).
Proof.
  cbn [path_in].
  repeat (split; [vm_compute; first [reflexivity | discriminate]|]).
  vm_compute. reflexivity.
Qed.

Lemma X19_witness :
  exists st',
    zap_gfn_range (ops := x86_ops) 8 sample_tree sample_root 3 (3 + 1) false
    = Ok (st', true)
    /\ READ_ONCE st' (512 * 19 + 3) = 0
    /\ (forall a, a <> 512 * 19 + 3 ->
          READ_ONCE st' a = READ_ONCE sample_tree a).
Proof.
  apply (X19_zap_of_one_frame_clears_the_leaf_that_maps_it (ops := x86_ops)
           x86_zero_not_present x86_table_not_last x86_absent_no_child
           8%nat sample_tree sample_root 3
           [512 * 16; 512 * 17; 512 * 18; 512 * 19] (512 * 19 + 3) 1).
  - lia.
  - lia.
  - reflexivity.
  - vm_compute. discriminate.
  - reflexivity.
  - exact sample_path_of_frame_3.
  - vm_compute. reflexivity.
  - vm_compute. reflexivity.
  - simpl. lia.
Defined.

(** The write fault on the guest frame 600 of [sample_tree] for the
    host frame 77, and then the zap of the frame 600. *)
Lemma X20_witness :
  exists st1 ret p st2,
    kvm_tdp_mmu_map 8 sample_tree sample_vcpu (600 * 4096) 2 1 1 77 false
    = Ok (st1, ret)
    /\ READ_ONCE st1 p = Sample.leaf 77 + 36
    /\ zap_gfn_range 8 st1 sample_root 600 (600 + 1) false = Ok (st2, true)
    /\ READ_ONCE st2 p = 0
    /\ (forall a, a <> p -> READ_ONCE st2 a = READ_ONCE st1 a).
Proof.
  apply (X20_zap_after_a_fault_clears_the_leaf_it_installed (ops := x86_ops)
           x86_zero_not_present x86_large_is_last x86_table_not_last
           x86_absent_no_child
           8%nat sample_tree sample_vcpu (600 * 4096) 2 1 1 77 false
           1 77 1 0 (Sample.leaf 77 + 36) sample_root).
  - lia.
  - exact sample_fault_walk_ready.
  - simpl. lia.
  - reflexivity.
  - left. reflexivity.
  - reflexivity.
  - vm_compute. reflexivity.
  - vm_compute. reflexivity.
  - vm_compute. reflexivity.
  - vm_compute. reflexivity.
  - vm_compute. reflexivity.
  - reflexivity.
  - vm_compute. discriminate.
Defined.

(** The walk of [sample_tree] for the guest frame 20, which ends at an
    entry of the last table that is not present. *)
Lemma sample_path_of_frame_20 :
  path_in (ops := x86_ops) 20 sample_tree
          [512 * 16; 512 * 17; 512 * 18; 512 * 19] 4 (512 * 19 + 20).
Proof.
  cbn [path_in].
  repeat (split; [vm_compute; first [reflexivity | discriminate]|]).
  vm_compute. reflexivity.
Qed.

Lemma X21_witness :
  zap_gfn_range (ops := x86_ops) 8 sample_tree sample_root 20 (20 + 1) false
  = Ok (sample_tree, false).
Proof.
  apply (X21_zap_of_an_unmapped_frame_changes_nothing (ops := x86_ops)
           x86_table_not_last x86_absent_no_child
           8%nat sample_tree sample_root 20
           [512 * 16; 512 * 17; 512 * 18; 512 * 19] (512 * 19 + 20)).
  - lia.
  - vm_compute. discriminate.
  - vm_compute. discriminate.
  - reflexivity.
  - exact sample_path_of_frame_20.
  - vm_compute. reflexivity.
  - simpl. lia.
Defined.
